(** * Chapter bookkeeping of the audiobook tools

    A shallow embedding of the chapter logic of three scripts:
    - [overwrite_chapters.py]: chapter-spec parsing ([parse_duration],
      [read_chapters]) and the FFMETADATA writer ([create_metadata_file]);
    - [combine_audio.py]: the cumulative offsets of [combine_files] and
      [generate_chapter_metadata];
    - [extract_chapters.py]: the duration filter, [build_chapter_hierarchy],
      [display_chapter_hierarchy] and [ChapterExtractor.extract_chapters].

    Python values are modelled as follows.
    - [str] is [string]; only ASCII code points are modelled. Whitespace
      and digits are the ASCII ones: [str.strip], [str.isdigit], [\s] and
      [\d] of [re], [int()] and [Decimal()] are as Python has them on ASCII
      text ([PyStr.isascii]), and every statement that rests on them for
      text that is not fixed is made for ASCII text.
    - [int] is [Z].
    - [float] is an IEEE-754 binary64 value, [spec_float] with precision 53
      and maximal exponent 1024, with the arithmetic of [SpecFloat].
    - [decimal.Decimal] is a sign, a coefficient and an exponent, or a
      special value; arithmetic follows the default context (28 digits,
      round-half-even, Emax 999999, traps on InvalidOperation and Overflow).
    - A run of a function either returns, stops the process through
      [sys.exit(1)] after printing a message, or leaves through an exception
      nobody catches. *)

From Stdlib Require Import ZArith NArith PArith List Bool Lia Ascii String.
From Stdlib Require Import QArith Qabs DecimalString SpecFloat Sorted Permutation.
From Stdlib Require Import DecimalZ DecimalPos.
Import ListNotations.
Open Scope string_scope.
Open Scope Z_scope.

Set Implicit Arguments.

(* ===================================================================== *)
(** ** Outcomes of a run *)

Inductive pyexc : Type :=
| ValueError            (* int(), int(Decimal('NaN')), float(Decimal('sNaN')) *)
| InvalidOperation      (* decimal.InvalidOperation *)
| DecOverflow.          (* decimal.Overflow *)

Inductive error : Type :=
| InvalidFormatLine (line_number : nat) (line : string)
    (* read_chapters: "Error: Invalid format in line N: '...'" and exit *)
| InvalidDurationFormat (duration_str : string)
    (* parse_duration: "Error: Invalid duration format '...'" and exit *)
| Uncaught (e : pyexc).

Inductive result (A : Type) : Type :=
| Ok (a : A)
| Err (e : error).

Arguments Ok {A} a.
Arguments Err {A} e.

Definition bind {A B : Type} (r : result A) (k : A -> result B) : result B :=
  match r with
  | Ok a => k a
  | Err e => Err e
  end.

Notation "x <- r ;; k" := (bind r (fun x => k))
  (at level 61, r at next level, right associativity).

Definition raise {A : Type} (e : pyexc) : result A := Err (Uncaught e).

(** [try: ... except (ValueError, InvalidOperation): handler]. *)
Definition try_except {A : Type} (body : result A) (handler : result A) : result A :=
  match body with
  | Err (Uncaught ValueError) | Err (Uncaught InvalidOperation) => handler
  | r => r
  end.

(* ===================================================================== *)
(** ** Python strings *)

Module PyStr.

Definition code (c : ascii) : N := N_of_ascii c.

(** An ASCII code point, and [s.isascii()]. *)
Definition is_ascii (c : ascii) : bool := (code c <? 128)%N.

Fixpoint isascii (s : string) : bool :=
  match s with
  | EmptyString => true
  | String c s' => is_ascii c && isascii s'
  end.

(** [str.isspace] on one ASCII character: TAB, LF, VT, FF, CR, the four
    separators 0x1c-0x1f and the space. [\s] of [re] is the same set.
    Python has more whitespace beyond ASCII (U+0085, U+00A0, U+3000, ...),
    which is not modelled. *)
Definition is_space (c : ascii) : bool :=
  let n := code c in
  ((9 <=? n) && (n <=? 13) || (28 <=? n) && (n <=? 32))%N.

(** [\d] and the digits [int()] and [Decimal()] read, among the ASCII
    characters. Python reads every Unicode decimal digit; those beyond
    ASCII are not modelled. *)
Definition is_digit (c : ascii) : bool :=
  let n := code c in ((48 <=? n) && (n <=? 57))%N.

Definition digit_val (c : ascii) : Z := Z.of_N (code c) - 48.

Fixpoint lstrip (s : string) : string :=
  match s with
  | String c s' => if is_space c then lstrip s' else s
  | EmptyString => EmptyString
  end.

Fixpoint rstrip (s : string) : string :=
  match s with
  | String c s' =>
      match rstrip s' with
      | EmptyString => if is_space c then EmptyString else String c EmptyString
      | r => String c r
      end
  | EmptyString => EmptyString
  end.

(** [s.strip()] *)
Definition strip (s : string) : string := rstrip (lstrip s).

(** [s.startswith(c)] for a one-character prefix. *)
Definition startswith (c : ascii) (s : string) : bool :=
  match s with
  | String c' _ => Ascii.eqb c' c
  | EmptyString => false
  end.

(** [s.split(sep)] for a one-character separator: never the empty list. *)
Fixpoint split (sep : ascii) (s : string) : list string :=
  match s with
  | EmptyString => [EmptyString]
  | String c s' =>
      if Ascii.eqb c sep then EmptyString :: split sep s'
      else match split sep s' with
           | p :: ps => String c p :: ps
           | [] => [String c EmptyString]
           end
  end.

(** [s.replace(old, new)] for a one-character [old]. *)
Fixpoint replace (old : ascii) (new : string) (s : string) : string :=
  match s with
  | EmptyString => EmptyString
  | String c s' =>
      if Ascii.eqb c old then new ++ replace old new s'
      else String c (replace old new s')
  end.

(** [str(n)] for an [int]. *)
Definition of_Z (z : Z) : string := NilZero.string_of_int (Z.to_int z).

(** ASCII lower-casing, for the case-insensitive literals of [Decimal]. *)
Definition lower (c : ascii) : ascii :=
  let n := code c in
  if ((65 <=? n) && (n <=? 90))%N then ascii_of_N (n + 32) else c.

Fixpoint lower_str (s : string) : string :=
  match s with
  | EmptyString => EmptyString
  | String c s' => String (lower c) (lower_str s')
  end.

Fixpoint all_digits (s : string) : bool :=
  match s with
  | EmptyString => true
  | String c s' => is_digit c && all_digits s'
  end.

(** The value of a string of digits read in base ten, most significant
    digit first, continuing from [acc]. *)
Fixpoint digits_val (acc : Z) (s : string) : Z :=
  match s with
  | EmptyString => acc
  | String c s' => digits_val (10 * acc + digit_val c) s'
  end.

Fixpoint remove (old : ascii) (s : string) : string :=
  match s with
  | EmptyString => EmptyString
  | String c s' =>
      if Ascii.eqb c old then remove old s' else String c (remove old s')
  end.

(** [s.startswith(prefix)] *)
Fixpoint startswith_str (prefix s : string) : bool :=
  match prefix, s with
  | EmptyString, _ => true
  | String a p, String b r => Ascii.eqb a b && startswith_str p r
  | String _ _, EmptyString => false
  end.

(** [s.isdigit()] on ASCII text: at least one character, and all of them
    digits. Beyond ASCII [str.isdigit] also takes characters, such as the
    superscript two, that [int()] does not read; they are not modelled. *)
Definition isdigit (s : string) : bool :=
  match s with
  | EmptyString => false
  | _ => all_digits s
  end.

(** [s.replace(old, new)] for a non-empty [old]: the occurrences are taken
    from the left and do not overlap. [skip] counts the characters of an
    occurrence already replaced that are still to be passed over. *)
Fixpoint replace_from (old new : string) (skip : nat) (s : string) : string :=
  match s with
  | EmptyString => EmptyString
  | String c r =>
      match skip with
      | S k => replace_from old new k r
      | O =>
          if startswith_str old s
          then new ++ replace_from old new (Nat.pred (String.length old)) r
          else String c (replace_from old new O r)
      end
  end.

Definition replace_str (old new s : string) : string := replace_from old new O s.

End PyStr.

(* ===================================================================== *)
(** ** Rounding a quotient to the nearest integer, ties to even *)

(** The integer nearest to [n / d] for [d > 0]; on a tie the even one.
    This is [ROUND_HALF_EVEN], the rounding of the default decimal context. *)
Definition round_half_even (n d : Z) : Z :=
  let q := n / d in
  let r := n mod d in
  match 2 * r ?= d with
  | Lt => q
  | Gt => q + 1
  | Eq => if Z.even q then q else q + 1
  end.

(* ===================================================================== *)
(** ** Python floats: IEEE-754 binary64 *)

Module F64.

Definition prec : Z := 53.
Definition emax : Z := 1024.

Definition t : Type := spec_float.

Definition add : t -> t -> t := SFadd prec emax.
Definition sub : t -> t -> t := SFsub prec emax.
Definition mul : t -> t -> t := SFmul prec emax.

(** [a < b], [a <= b], [a >= b], [a == b]; all false on a NaN. *)
Definition ltb : t -> t -> bool := SFltb.
Definition leb : t -> t -> bool := SFleb.
Definition geb (a b : t) : bool := SFleb b a.
Definition eqb : t -> t -> bool := SFeqb.

(** [float(n)] for an [int] that does not overflow; also the implicit
    conversion of the [int] operand in [x * 1000]. *)
Definition of_Z (z : Z) : t := binary_normalize prec emax z 0 false.

Definition zero : t := S754_zero false.          (* 0.0 *)
Definition one : t := Eval vm_compute in of_Z 1. (* 1.0 *)
Definition thousand : t := Eval vm_compute in of_Z 1000.

(** The correctly rounded (nearest, ties to even) binary64 value of
    [(-1)^s * n / d]; overflows to an infinity. *)
Definition of_ratio (s : bool) (n d : positive) : t :=
  let '(q, e, l) := SFdiv_core_binary prec emax (Zpos n) 0 (Zpos d) 0 in
  binary_round_aux prec emax s q e l.

Definition is_nan (x : t) : bool :=
  match x with S754_nan => true | _ => false end.

(** The sign bit is clear: +0.0, a positive finite value or +inf. *)
Definition is_nonneg (x : t) : bool :=
  match x with
  | S754_zero s | S754_infinity s | S754_finite s _ _ => negb s
  | S754_nan => false
  end.

(** The exact value of a finite float, as a rational. *)
Definition to_Q (x : t) : option Q :=
  match x with
  | S754_zero _ => Some (0 # 1)%Q
  | S754_finite s m e =>
      let n := if s then Zneg m else Zpos m in
      Some (match e with
            | Zneg k => (n # Pos.shiftl 1 (Npos k))%Q
            | _ => (n * 2 ^ e # 1)%Q
            end)
  | _ => None
  end.

End F64.

(* ===================================================================== *)
(** ** [int(str)] *)

(** The body of a base-ten [int] literal: digits, with single underscores
    allowed between two digits. [prev] tells whether the previous character
    was a digit. *)
Fixpoint int_body (prev : bool) (s : string) : bool :=
  match s with
  | EmptyString => prev
  | String c s' =>
      if PyStr.is_digit c then int_body true s'
      else if Ascii.eqb c "_" then prev && int_body false s'
      else false
  end.

(** The whitespace [int()] passes over around an ASCII literal, the
    [isspace] of C: TAB, LF, VT, FF, CR and the space. The separators
    0x1c-0x1f, which [str.strip] takes off, are not among them: [int] of
    0x1c and a digit is a ValueError. *)
Definition int_space (c : ascii) : bool :=
  let n := PyStr.code c in ((9 <=? n) && (n <=? 13) || (n =? 32))%N.

Fixpoint int_lstrip (s : string) : string :=
  match s with
  | String c s' => if int_space c then int_lstrip s' else s
  | EmptyString => EmptyString
  end.

Fixpoint int_rstrip (s : string) : string :=
  match s with
  | String c s' =>
      match int_rstrip s' with
      | EmptyString => if int_space c then EmptyString else String c EmptyString
      | r => String c r
      end
  | EmptyString => EmptyString
  end.

(** [int(s)] on ASCII text: the whitespace around the literal is passed
    over, one sign is allowed. Raises ValueError on anything else. *)
Definition py_int (s : string) : result Z :=
  let body_val (neg : bool) (b : string) : result Z :=
    if int_body false b then
      let v := PyStr.digits_val 0 (PyStr.remove "_" b) in
      Ok (if neg then - v else v)
    else raise ValueError in
  match int_rstrip (int_lstrip s) with
  | String "-" b => body_val true b
  | String "+" b => body_val false b
  | b => body_val false b
  end.

(* ===================================================================== *)
(** ** [decimal.Decimal] under the default context *)

Module Dec.

Definition prec : Z := 28.
Definition Emax : Z := 999999.
Definition Emin : Z := -999999.
Definition Etiny : Z := Emin - prec + 1.
Definition Etop : Z := Emax - prec + 1.

(** A finite value is [(-1)^s * c * 10^e] with [0 <= c]. The payload of a
    NaN is not modelled. *)
Inductive t : Type :=
| Fin (s : bool) (c : Z) (e : Z)
| Inf (s : bool)
| NaN (s : bool)
| SNaN (s : bool).

Fixpoint ndigits_aux (fuel : nat) (c : Z) : Z :=
  match fuel with
  | O => 1
  | S f => if c <? 10 then 1 else 1 + ndigits_aux f (c / 10)
  end.

(** The number of decimal digits of the coefficient, [len(self._int)];
    the coefficient 0 has one digit. *)
Definition ndigits (c : Z) : Z := ndigits_aux (Z.to_nat (Z.log2 c)) c.

Definition signed (s : bool) (c : Z) : Z := if s then - c else c.

(** [Decimal._fix]: round a finite result to the context. The coefficient
    is cut to [prec] digits, half-even; a result above Emax raises
    Overflow (trapped); one below Etiny is rounded at Etiny. *)
Definition fix_ (s : bool) (c e : Z) : result t :=
  if c =? 0 then Ok (Fin s 0 (Z.min (Z.max e Etiny) Emax))
  else
    let exp_min := ndigits c + e - prec in
    if exp_min >? Etop then raise DecOverflow
    else
      let exp_min := Z.max exp_min Etiny in
      if e <? exp_min then
        let q := round_half_even c (10 ^ (exp_min - e)) in
        let '(q, exp_min) :=
          if ndigits q >? prec then (q / 10, exp_min + 1) else (q, exp_min) in
        if exp_min >? Etop then raise DecOverflow else Ok (Fin s q exp_min)
      else Ok (Fin s c e).

(** [Decimal(n)] for an [int]: exact. *)
Definition of_Z (z : Z) : t := Fin (z <? 0) (Z.abs z) 0.

(** [x + y] *)
Definition add (x y : t) : result t :=
  match x, y with
  | SNaN _, _ | _, SNaN _ => raise InvalidOperation
  | NaN s, _ => Ok (NaN s)
  | _, NaN s => Ok (NaN s)
  | Inf s1, Inf s2 => if Bool.eqb s1 s2 then Ok (Inf s1) else raise InvalidOperation
  | Inf s, _ => Ok (Inf s)
  | _, Inf s => Ok (Inf s)
  | Fin s1 c1 e1, Fin s2 c2 e2 =>
      let exp := Z.min e1 e2 in
      if (c1 =? 0) && (c2 =? 0) then fix_ (s1 && s2) 0 exp
      else if c1 =? 0 then
        let exp := Z.max exp (e2 - prec - 1) in
        fix_ s2 (c2 * 10 ^ (e2 - exp)) exp
      else if c2 =? 0 then
        let exp := Z.max exp (e1 - prec - 1) in
        fix_ s1 (c1 * 10 ^ (e1 - exp)) exp
      else
        let v := signed s1 (c1 * 10 ^ (e1 - exp)) + signed s2 (c2 * 10 ^ (e2 - exp)) in
        fix_ (v <? 0) (Z.abs v) exp
  end.

(** [x * y] *)
Definition mul (x y : t) : result t :=
  match x, y with
  | SNaN _, _ | _, SNaN _ => raise InvalidOperation
  | NaN s, _ => Ok (NaN s)
  | _, NaN s => Ok (NaN s)
  | Inf s1, Inf s2 => Ok (Inf (xorb s1 s2))
  | Inf s1, Fin s2 c2 _ =>
      if c2 =? 0 then raise InvalidOperation else Ok (Inf (xorb s1 s2))
  | Fin s1 c1 _, Inf s2 =>
      if c1 =? 0 then raise InvalidOperation else Ok (Inf (xorb s1 s2))
  | Fin s1 c1 e1, Fin s2 c2 e2 => fix_ (xorb s1 s2) (c1 * c2) (e1 + e2)
  end.

(** [x.quantize(Decimal('1'))]: the value rounded half-even to exponent 0.
    [None] stands for a quiet NaN, which [quantize] hands through. *)
Definition quantize (x : t) : result (option Z) :=
  match x with
  | SNaN _ => raise InvalidOperation
  | NaN _ => Ok None
  | Inf _ => raise InvalidOperation
  | Fin s c e =>
      let r := if e <? 0 then round_half_even c (10 ^ (- e)) else c * 10 ^ e in
      if r <? 10 ^ prec then Ok (Some (signed s r)) else raise InvalidOperation
  end.

(** [int(d)] on the outcome of [quantize]: ValueError on a NaN. *)
Definition to_int (q : option Z) : result Z :=
  match q with
  | Some z => Ok z
  | None => raise ValueError
  end.

(** [float(d)]: correctly rounded; ValueError on a signaling NaN. *)
Definition to_float (x : t) : result F64.t :=
  match x with
  | SNaN _ => raise ValueError
  | NaN _ => Ok S754_nan
  | Inf s => Ok (S754_infinity s)
  | Fin s c e =>
      if c =? 0 then Ok (S754_zero s)
      else Ok (F64.of_ratio s (Z.to_pos (c * 10 ^ Z.max e 0))
                              (Z.to_pos (10 ^ Z.max (- e) 0)))
  end.

(** Cancel the common powers of two of [m / 2^k], as
    [float.as_integer_ratio] does. *)
Fixpoint reduce (m : positive) (k : nat) : positive * nat :=
  match k, m with
  | S k', xO m' => reduce m' k'
  | _, _ => (m, k)
  end.

(** [Decimal(x)] for a [float]: exact. The value [n / 2^k] in lowest
    terms is [n * 5^k * 10^(-k)]. *)
Definition of_float (x : F64.t) : t :=
  match x with
  | S754_nan => NaN false
  | S754_infinity s => Inf s
  | S754_zero s => Fin s 0 0
  | S754_finite s m e =>
      match e with
      | Zneg k =>
          let '(n, k') := reduce m (Pos.to_nat k) in
          Fin s (Zpos n * 5 ^ Z.of_nat k') (- Z.of_nat k')
      | _ => Fin s (Zpos m * 2 ^ e) 0
      end
  end.

(** *** Reading a literal *)

(** The longest prefix of digits, and what follows it. *)
Fixpoint span_digits (s : string) : string * string :=
  match s with
  | String c s' =>
      if PyStr.is_digit c then
        let '(d, r) := span_digits s' in (String c d, r)
      else (EmptyString, s)
  | EmptyString => (EmptyString, EmptyString)
  end.

(** The exponent part: nothing, or [E], an optional sign and digits. *)
Definition read_exponent (s : string) : option Z :=
  match s with
  | EmptyString => Some 0
  | String c r =>
      if Ascii.eqb (PyStr.lower c) "e" then
        let '(neg, ds) :=
          match r with
          | String "-" r' => (true, r')
          | String "+" r' => (false, r')
          | _ => (false, r)
          end in
        match ds with
        | EmptyString => None
        | _ => if PyStr.all_digits ds
               then Some (signed neg (PyStr.digits_val 0 ds))
               else None
        end
      else None
  end.

(** A number: digits, an optional point and digits, an optional exponent,
    with at least one digit before the exponent. *)
Definition read_number (s : bool) (str : string) : option t :=
  let '(ip, r1) := span_digits str in
  let '(fp, r2) :=
    match r1 with
    | String "." r => span_digits r
    | _ => (EmptyString, r1)
    end in
  match ip ++ fp with
  | EmptyString => None
  | ds =>
      match read_exponent r2 with
      | Some ex => Some (Fin s (PyStr.digits_val 0 ds)
                           (ex - Z.of_nat (String.length fp)))
      | None => None
      end
  end.

(** [Inf], [Infinity], [NaN] and [sNaN] with optional diagnostic digits,
    in any letter case. *)
Definition read_special (s : bool) (str : string) : option t :=
  let l := PyStr.lower_str str in
  if String.eqb l "inf" || String.eqb l "infinity" then Some (Inf s)
  else match l with
       | String "n" (String "a" (String "n" d)) =>
           if PyStr.all_digits d then Some (NaN s) else None
       | String "s" (String "n" (String "a" (String "n" d))) =>
           if PyStr.all_digits d then Some (SNaN s) else None
       | _ => None
       end.

(** [Decimal(str)]: surrounding whitespace and all underscores are dropped;
    InvalidOperation on a string that is no literal. *)
Definition of_string (str : string) : result t :=
  let v := PyStr.remove "_" (PyStr.strip str) in
  let '(s, body) :=
    match v with
    | String "-" b => (true, b)
    | String "+" b => (false, b)
    | _ => (false, v)
    end in
  match read_number s body with
  | Some d => Ok d
  | None =>
      match read_special s body with
      | Some d => Ok d
      | None => raise InvalidOperation
      end
  end.

End Dec.

Definition LF : ascii := ascii_of_nat 10.
Definition CR : ascii := ascii_of_nat 13.
Definition nl : string := String LF EmptyString.

(* ===================================================================== *)
(** ** What a run does to the outside *)

(** The calls that reach outside the process, in the order they are
    made. *)
Inductive event : Type :=
| Ran (argv : list string)       (* [subprocess.run(argv, ...)] *)
| Wrote (path text : string)     (* a file opened with ['w'], written, closed *)
| Cut (path : string)            (* the same, left unfinished by an exception *)
| Removed (path : string)        (* [os.remove(path)], [os.unlink(path)] *)
| Replaced (src dst : string).   (* [os.replace(src, dst)] *)

(* ===================================================================== *)
(** ** overwrite_chapters.py *)

Module Overwrite.

(** [parse_duration(duration_str)]. The [try] block covers the three
    conversions; the sum and [float()] run after it, uncovered. In
    [hours * 3600 + minutes * 60 + seconds] the integer sum comes first and
    the [Decimal] on its right takes the addition over. *)
Definition parse_duration (duration_str : string) : result F64.t :=
  let parts := PyStr.split ":" (PyStr.strip duration_str) in
  hms <- try_except
           match parts with
           | [p0; p1; p2] =>
               hours <- py_int p0 ;;
               minutes <- py_int p1 ;;
               seconds <- Dec.of_string p2 ;;
               Ok (hours, minutes, seconds)
           | [p0; p1] =>
               minutes <- py_int p0 ;;
               seconds <- Dec.of_string p1 ;;
               Ok (0, minutes, seconds)
           | _ => raise ValueError
           end
           (Err (InvalidDurationFormat duration_str)) ;;
  let '(hours, minutes, seconds) := hms in
  total <- Dec.add seconds (Dec.of_Z (hours * 3600 + minutes * 60)) ;;
  Dec.to_float total.

(** *** The line pattern of [read_chapters]

    [^(.*?)\s+(\d{1,2}:\d{2}(?::\d{2})?(?:\.\d+)?)$], written out as the
    backtracking matcher runs it. Each function matches a tail of the
    pattern at the start of its argument and returns the text the second
    group takes from there. *)

(** [$]: the end of the string, or just before a final newline. *)
Definition at_dollar (s : string) : bool :=
  match s with
  | EmptyString => true
  | String c EmptyString => Ascii.eqb c LF
  | _ => false
  end.

(** [\d+$], greedy. *)
Fixpoint digits_dollar (s : string) : option string :=
  match s with
  | String c r =>
      if PyStr.is_digit c then
        match digits_dollar r with
        | Some d => Some (String c d)
        | None => if at_dollar r then Some (String c EmptyString) else None
        end
      else None
  | EmptyString => None
  end.

(** [(?:\.\d+)?$] *)
Definition frac_dollar (s : string) : option string :=
  let taken :=
    match s with
    | String "." r => option_map (String ".") (digits_dollar r)
    | _ => None
    end in
  match taken with
  | Some m => Some m
  | None => if at_dollar s then Some EmptyString else None
  end.

(** [:\d{2}] followed by [k]. *)
Definition colon_two (k : string -> option string) (s : string) : option string :=
  match s with
  | String ":" (String a (String b r)) =>
      if PyStr.is_digit a && PyStr.is_digit b
      then option_map (fun m => String ":" (String a (String b m))) (k r)
      else None
  | _ => None
  end.

(** [(?::\d{2})?(?:\.\d+)?$] *)
Definition sec_dollar (s : string) : option string :=
  match colon_two frac_dollar s with
  | Some m => Some m
  | None => frac_dollar s
  end.

(** [\d{1,2}:\d{2}(?::\d{2})?(?:\.\d+)?$]: two leading digits are tried
    before one. *)
Definition duration_dollar (s : string) : option string :=
  match s with
  | String a r =>
      if PyStr.is_digit a then
        let two :=
          match r with
          | String b r' =>
              if PyStr.is_digit b
              then option_map (String b) (colon_two sec_dollar r')
              else None
          | EmptyString => None
          end in
        option_map (String a)
          match two with
          | Some m => Some m
          | None => colon_two sec_dollar r
          end
      else None
  | EmptyString => None
  end.

(** [\s+] and the duration: the longest run of whitespace is tried first. *)
Fixpoint spaces_duration (s : string) : option string :=
  match s with
  | String c r =>
      if PyStr.is_space c then
        match spaces_duration r with
        | Some d => Some d
        | None => duration_dollar r
        end
      else None
  | EmptyString => None
  end.

(** The whole pattern, anchored at the start: the title is the shortest
    prefix after which the rest matches; [.] takes anything but a newline.
    Returns [match.groups()]. *)
Fixpoint line_match (line : string) : option (string * string) :=
  match spaces_duration line with
  | Some d => Some (EmptyString, d)
  | None =>
      match line with
      | String c r =>
          if Ascii.eqb c LF then None
          else option_map (fun td => (String c (fst td), snd td)) (line_match r)
      | EmptyString => None
      end
  end.

(** The loop of [read_chapters] from line [line_number] on, with the
    chapters gathered so far. *)
Fixpoint read_lines (line_number : nat) (lines : list string)
    (chapters : list (string * F64.t)) : result (list (string * F64.t)) :=
  match lines with
  | [] => Ok chapters
  | raw :: rest =>
      let line := PyStr.strip raw in
      if String.eqb line EmptyString || PyStr.startswith "#" line
      then read_lines (S line_number) rest chapters
      else
        match line_match line with
        | None => Err (InvalidFormatLine line_number line)
        | Some (title, duration_str) =>
            duration_seconds <- parse_duration duration_str ;;
            read_lines (S line_number) rest
              (chapters ++ [(title, duration_seconds)])
        end
  end.

(** [read_chapters(chapters_file)] on the lines of the file. *)
Definition read_chapters (lines : list string) : result (list (string * F64.t)) :=
  read_lines 1 lines [].

(** *** Writing the metadata *)

(** The title as written: backslash, semicolon, newline and carriage
    return are replaced one after the other. *)
Definition escape_title (title : string) : string :=
  PyStr.replace CR "\r"
    (PyStr.replace LF "\n"
       (PyStr.replace ";" "\;"
          (PyStr.replace "\" "\\" title))).

(** One [CHAPTER] block of the file. *)
Record block : Type := Block {
  b_start : Z;      (* START, milliseconds *)
  b_end : Z;        (* END, milliseconds *)
  b_title : string  (* the title, not yet escaped *)
}.

(** [Decimal(x * 1000).quantize(Decimal('1'))] *)
Definition to_ms (x : F64.t) : result (option Z) :=
  Dec.quantize (Dec.of_float (F64.mul x F64.thousand)).

(** The loop of [create_metadata_file] from the cursor [current_time] on:
    the blocks it writes. *)
Fixpoint chapter_blocks (current_time : F64.t) (chapters : list (string * F64.t))
    : result (list block) :=
  match chapters with
  | [] => Ok []
  | (title, duration) :: rest =>
      start <- to_ms current_time ;;
      end_ <- to_ms (F64.add current_time duration) ;;
      start_i <- Dec.to_int start ;;
      end_i <- Dec.to_int end_ ;;
      blocks <- chapter_blocks (F64.add current_time duration) rest ;;
      Ok (Block start_i end_i title :: blocks)
  end.

Definition render_block (b : block) : string :=
  "[CHAPTER]" ++ nl ++
  "TIMEBASE=1/1000" ++ nl ++
  "START=" ++ PyStr.of_Z (b_start b) ++ nl ++
  "END=" ++ PyStr.of_Z (b_end b) ++ nl ++
  "title=" ++ escape_title (b_title b) ++ nl ++ nl.

(** [create_metadata_file(chapters, metadata_path)]: the text of the file
    when the call returns. The progress lines it prints are left out. *)
Definition create_metadata_file (chapters : list (string * F64.t)) : result string :=
  blocks <- chapter_blocks F64.zero chapters ;;
  Ok (";FFMETADATA1" ++ nl ++ String.concat "" (map render_block blocks)).

(** *** The script *)

(** How a run of the script ends when it does not reach its last line:
    each of the first five is a message and [sys.exit(1)]. *)
Inductive stop : Type :=
| MissingTools (missing : list string)
| NoInputFile (input_file : string)
| NoChaptersFile (chapters_file : string)
| NoValidChapters
| FfmpegFailed
| Stopped (e : error).   (* inside [read_chapters] or [create_metadata_file] *)

Section Script.

(** The surroundings: [shutil.which] finds the tool, [os.path.isfile],
    the lines of a file that is there, and whether the command given to
    [subprocess.run(..., check=True)] succeeds. *)
Variable which : string -> bool.
Variable isfile : string -> bool.
Variable file_lines : string -> list string.
Variable ffmpeg_ok : list string -> bool.

(** [check_ffmpeg_installed()]: the tools that are missing; the script
    goes on when there is none. *)
Definition check_ffmpeg_installed : list string :=
  filter (fun cmd => negb (which cmd)) ["ffmpeg"; "ffprobe"].

(** The command of [apply_metadata(input_file, output_file, metadata_file)]. *)
Definition apply_metadata_command (input_file output_file metadata_file : string)
    : list string :=
  ["ffmpeg"; "-y"; "-i"; input_file; "-i"; metadata_file;
   "-map_metadata"; "1"; "-map_chapters"; "1"; "-codec"; "copy"; output_file].

(** [main()] on the three arguments: the events of the run, and how it
    stopped if it did not run to its end. A failure of the final
    [os.remove] is only reported by the script; the event stands for the
    call. *)
Definition main (input_file chapters_file output_file : string)
    : list event * option stop :=
  match check_ffmpeg_installed with
  | (_ :: _) as missing => ([], Some (MissingTools missing))
  | [] =>
      if negb (isfile input_file) then ([], Some (NoInputFile input_file))
      else if negb (isfile chapters_file)
      then ([], Some (NoChaptersFile chapters_file))
      else
        match read_chapters (file_lines chapters_file) with
        | Err e => ([], Some (Stopped e))
        | Ok [] => ([], Some NoValidChapters)
        | Ok chapters =>
            let metadata_file := "chapters_metadata.txt" in
            match create_metadata_file chapters with
            | Err e => ([Cut metadata_file], Some (Stopped e))
            | Ok text =>
                let command :=
                  apply_metadata_command input_file output_file metadata_file in
                if ffmpeg_ok command
                then ([Wrote metadata_file text; Ran command;
                       Removed metadata_file], None)
                else ([Wrote metadata_file text; Ran command],
                      Some FfmpegFailed)
            end
        end
  end.

End Script.

End Overwrite.

(* ===================================================================== *)
(** ** combine_audio.py *)

Module Combine.

(** The offsets loop of [combine_files]. [outputs] holds, for each
    temporary file in order, what the duration probe printed. An empty
    answer skips the file; anything [Decimal] cannot read raises. *)
Fixpoint offsets_loop (previous_time : Dec.t) (outputs : list string)
    (offsets : list (Dec.t * Dec.t)) : result (list (Dec.t * Dec.t)) :=
  match outputs with
  | [] => Ok offsets
  | out :: rest =>
      let duration_str := PyStr.strip out in
      if String.eqb duration_str EmptyString
      then offsets_loop previous_time rest offsets
      else
        duration <- Dec.of_string duration_str ;;
        let start_time := previous_time in
        previous_time <- Dec.add previous_time duration ;;
        let end_time := previous_time in
        offsets_loop previous_time rest (offsets ++ [(start_time, end_time)])
  end.

Definition combine_offsets (outputs : list string) : result (list (Dec.t * Dec.t)) :=
  offsets_loop (Dec.of_Z 0) outputs [].

(** [int((t * 1000).quantize(Decimal('1')))] *)
Definition to_ms (t : Dec.t) : result Z :=
  p <- Dec.mul t (Dec.of_Z 1000) ;;
  q <- Dec.quantize p ;;
  Dec.to_int q.

(** The title of chapter [index]: the supplied one when there is one,
    otherwise the label and the one-based number. *)
Definition chapter_title (chapter_label : string) (chapter_titles : option (list string))
    (index : nat) : string :=
  let numbered := chapter_label ++ " " ++ PyStr.of_Z (Z.of_nat index + 1) in
  match chapter_titles with
  | Some ((_ :: _) as titles) =>
      match nth_error titles index with
      | Some title => title
      | None => numbered
      end
  | _ => numbered
  end.

(** The chapter loop of [generate_chapter_metadata] from [index] on. An
    end time of [None] writes the start again. *)
Fixpoint write_chapters (chapter_label : string) (chapter_titles : option (list string))
    (index : nat) (offsets : list (Dec.t * option Dec.t)) : result string :=
  match offsets with
  | [] => Ok EmptyString
  | (start_time, end_time) :: rest =>
      chapter_start_ms <- to_ms start_time ;;
      chapter_end_ms <- match end_time with
                        | Some e => to_ms e
                        | None => Ok chapter_start_ms
                        end ;;
      let title := chapter_title chapter_label chapter_titles index in
      let text :=
        nl ++ "[CHAPTER]" ++ nl ++ "TIMEBASE=1/1000" ++ nl ++
        "START=" ++ PyStr.of_Z chapter_start_ms ++ nl ++
        "END=" ++ PyStr.of_Z chapter_end_ms ++ nl ++
        "TITLE=" ++ title ++ nl in
      tail <- write_chapters chapter_label chapter_titles (S index) rest ;;
      Ok (text ++ tail)
  end.

(** [generate_chapter_metadata(offsets, chapter_threshold, common_metadata,
    chapter_titles)]: the text of the file when the call returns. *)
Definition generate_chapter_metadata (offsets : list (Dec.t * option Dec.t))
    (chapter_threshold : Z) (common_metadata : list (string * string))
    (chapter_titles : option (list string)) : result string :=
  let header :=
    ";FFMETADATA1" ++ nl ++
    String.concat "" (map (fun kv => fst kv ++ "=" ++ snd kv ++ nl) common_metadata) in
  let total_parts := Z.of_nat (List.length offsets) in
  let chapter_label := if total_parts <? chapter_threshold then "Part" else "Chapter" in
  body <- write_chapters chapter_label chapter_titles 0 offsets ;;
  Ok (header ++ body).

(** *** Finding the parts *)

(** [fnmatch] of a name against a pattern made of literal characters
    and [*]. *)
Fixpoint fnmatch (pat name : string) : bool :=
  match pat with
  | EmptyString =>
      match name with
      | EmptyString => true
      | _ => false
      end
  | String p pat' =>
      if Ascii.eqb p "*" then
        (fix star (n : string) : bool :=
           fnmatch pat' n ||
           match n with
           | String _ n' => star n'
           | EmptyString => false
           end) name
      else
        match name with
        | String c n' => Ascii.eqb p c && fnmatch pat' n'
        | EmptyString => false
        end
  end.

(** [glob(pattern)] in the working directory, whose entries are
    [listing] in the order the system yields them. The pattern does not
    begin with a dot, so the entries that do are left out. *)
Definition glob (pattern : string) (listing : list string) : list string :=
  filter (fun name => negb (PyStr.startswith "." name) && fnmatch pattern name)
         listing.

(** [infer_book_name_and_extension()]; [None] stands for [(None, None)]. *)
Definition infer_book_name_and_extension (listing : list string)
    : option (string * list string) :=
  let files := (glob "*(*).mp3" listing ++ glob "*(*).m4a" listing
                ++ glob "*(*).aax" listing)%list in
  match files with
  | [] => None
  | first_file :: _ =>
      Some (PyStr.strip (hd EmptyString (PyStr.split "(" first_file)), files)
  end.

(** The sort key of [get_files]: [int(x.split("(")[-1].split(")")[0])]. *)
Definition part_number (x : string) : result Z :=
  py_int (hd EmptyString
            (PyStr.split ")" (last (PyStr.split "(" x) EmptyString))).

(** [sorted(..., key=...)] computes the key of every element before it
    compares any; the first key that raises ends the call. *)
Fixpoint keyed (l : list string) : result (list (Z * string)) :=
  match l with
  | [] => Ok []
  | x :: rest =>
      k <- part_number x ;;
      ks <- keyed rest ;;
      Ok ((k, x) :: ks)
  end.

(** The sort is stable and compares keys with [<]. *)
Fixpoint insert_by_key (kx : Z * string) (l : list (Z * string))
    : list (Z * string) :=
  match l with
  | [] => [kx]
  | d :: l' =>
      if fst d <? fst kx then d :: insert_by_key kx l' else kx :: l
  end.

Definition sorted_by_key (l : list (Z * string)) : list (Z * string) :=
  fold_right insert_by_key [] l.

(** [get_files(book_name, files)]; a [ValueError] of [int()] gives the
    empty list. *)
Definition get_files (book_name : string) (files : list string) : list string :=
  let book_files := filter (PyStr.startswith_str book_name) files in
  match keyed book_files with
  | Ok ks => map snd (sorted_by_key ks)
  | Err _ => []
  end.

(** *** Bitrates *)

(** [get_audio_bitrate(file_path)] on what the probe printed, ASCII text.
    There [int()] cannot fail after [isdigit()]; beyond ASCII it can, on a
    character such as the superscript two, which is not modelled. *)
Definition get_audio_bitrate (stdout : string) : result (option Z) :=
  let bitrate_str := PyStr.strip stdout in
  if PyStr.isdigit bitrate_str
  then bitrate <- py_int bitrate_str ;; Ok (Some bitrate)
  else Ok None.

Definition map_bitrate_to_quality (bitrate : Z) : Z :=
  if bitrate >=? 256000 then 0
  else if bitrate >=? 192000 then 1
  else if bitrate >=? 128000 then 2
  else if bitrate >=? 96000 then 3
  else if bitrate >=? 64000 then 4
  else 5.

Definition map_bitrate_to_cbr (bitrate : Z) : string :=
  if bitrate >=? 256000 then "256k"
  else if bitrate >=? 192000 then "192k"
  else if bitrate >=? 128000 then "128k"
  else if bitrate >=? 96000 then "96k"
  else if bitrate >=? 64000 then "64k"
  else if bitrate >=? 32000 then "32k"
  else "96k".

(** *** Common metadata *)

(** A dictionary of tags: its items in insertion order, each key once. *)
Definition tags : Type := list (string * string).

(** [d.get(key)] *)
Fixpoint lookup (key : string) (d : tags) : option string :=
  match d with
  | [] => None
  | (k, v) :: rest => if String.eqb k key then Some v else lookup key rest
  end.

(** [key in md and md[key] == value] *)
Definition agrees (key value : string) (md : tags) : bool :=
  match lookup key md with
  | Some v => String.eqb v value
  | None => false
  end.

(** [get_common_metadata(file_paths)] on the tags each probe decoded to;
    [None] is an output that is no JSON, which is skipped. *)
Definition get_common_metadata (probes : list (option tags)) : tags :=
  let metadata_list :=
    flat_map (fun p => match p with Some t => [t] | None => [] end) probes in
  let common_metadata :=
    match metadata_list with
    | [] => []
    | first_metadata :: _ =>
        filter (fun kv => forallb (agrees (fst kv) (snd kv)) metadata_list)
               first_metadata
    end in
  map (fun kv => if String.eqb (fst kv) "track" then ("track", "1") else kv)
      common_metadata.

(** *** The titles file *)

(** The pattern of [read_chapter_titles] is [^\s*\d+\S*\s+] followed by
    the group [.*]. It is written out as the backtracking matcher runs
    it: each function matches a tail of the pattern at the start of its
    argument and returns the text of the group. *)

(** The group [.*]: everything up to a newline. *)
Fixpoint dot_star (s : string) : string :=
  match s with
  | EmptyString => EmptyString
  | String c r => if Ascii.eqb c LF then EmptyString else String c (dot_star r)
  end.

(** [\s+] and the group, the longest run of whitespace first. *)
Fixpoint spaces_title (s : string) : option string :=
  match s with
  | String c r =>
      if PyStr.is_space c then
        match spaces_title r with
        | Some t => Some t
        | None => Some (dot_star r)
        end
      else None
  | EmptyString => None
  end.

(** [\S*\s+] and the group. *)
Fixpoint nonspaces_title (s : string) : option string :=
  match s with
  | String c r =>
      if PyStr.is_space c then spaces_title s
      else match nonspaces_title r with
           | Some t => Some t
           | None => spaces_title s
           end
  | EmptyString => None
  end.

(** [\d+\S*\s+] and the group. *)
Fixpoint digits_title (s : string) : option string :=
  match s with
  | String c r =>
      if PyStr.is_digit c then
        match digits_title r with
        | Some t => Some t
        | None => nonspaces_title r
        end
      else None
  | EmptyString => None
  end.

(** The whole pattern. *)
Fixpoint title_match (s : string) : option string :=
  match s with
  | String c r =>
      if PyStr.is_space c then
        match title_match r with
        | Some t => Some t
        | None => digits_title s
        end
      else digits_title s
  | EmptyString => None
  end.

(** The title a line gives: the line without its number, or the line. *)
Definition title_of_line (line : string) : string :=
  match title_match line with
  | Some title => title
  | None => line
  end.

(** [read_chapter_titles(chapter_titles_file)] on the lines of the file;
    [None] is a file that cannot be opened or read, and the [None] the
    function returns for it. *)
Definition read_chapter_titles (file : option (list string))
    : option (list string) :=
  match file with
  | None => None
  | Some lines =>
      Some (flat_map (fun raw =>
                        let line := PyStr.strip raw in
                        if String.eqb line EmptyString then []
                        else [title_of_line line])
                     lines)
  end.

(** *** The run of the tool *)

Inductive exc : Type :=
| TypeError              (* [None] compared with a number *)
| CalledProcessError     (* a checked command that failed *)
| Inner (e : error).     (* what [Decimal] raises *)

Inductive outcome (A : Type) : Type :=
| Returned (a : A)
| Raised (e : exc).

Arguments Returned {A} a.
Arguments Raised {A} e.

(** A step of the run: from the events so far to the events after it. *)
Definition act (A : Type) : Type := list event -> list event * outcome A.

Definition ret {A : Type} (a : A) : act A := fun tr => (tr, Returned a).

Definition throw {A : Type} (e : exc) : act A := fun tr => (tr, Raised e).

Definition then_ {A B : Type} (m : act A) (k : A -> act B) : act B :=
  fun tr =>
    match m tr with
    | (tr', Returned a) => k a tr'
    | (tr', Raised e) => (tr', Raised e)
    end.

Notation "x <~ m ;; k" := (then_ m (fun x => k))
  (at level 61, m at next level, right associativity).

Definition emit (e : event) : act unit := fun tr => ((tr ++ [e])%list, Returned tt).

Definition lift {A : Type} (r : result A) : act A :=
  fun tr => (tr, match r with
                 | Ok a => Returned a
                 | Err e => Raised (Inner e)
                 end).

(** [try: ... except subprocess.CalledProcessError: return False] *)
Definition or_false (m : act bool) : act bool :=
  fun tr =>
    match m tr with
    | (tr', Raised CalledProcessError) => (tr', Returned false)
    | r => r
    end.

Record args : Type := Args {
  a_combine : bool;
  a_clean : bool;
  a_dry_run : bool;
  a_vbr : bool;
  a_quality : option Z;
  a_bitrate : option string;
  a_sample_rate : option Z;
  a_chapter_threshold : Z;
  a_chapter_titles_file : option string
}.

Section World.

(** The surroundings, each asked with the events so far: whether a
    checked command succeeds, what a command prints, whether a path exists
    and how large the file is. Then the tags the output of a format probe
    decodes to ([None] when it is no JSON), [os.path.abspath], and the
    lines of the titles file. Removing or replacing a file the run has
    just made or found is taken to succeed. *)
Variable succeeds : list event -> list string -> bool.
Variable prints : list event -> list string -> string.
Variable path_exists : list event -> string -> bool.
Variable getsize : list event -> string -> Z.
Variable decode_tags : string -> option tags.
Variable abspath : string -> string.
Variable titles_file : string -> option (list string).

(** [subprocess.run(argv, stdout=PIPE, stderr=PIPE)]: the output. *)
Definition call (argv : list string) : act string :=
  fun tr => ((tr ++ [Ran argv])%list, Returned (prints tr argv)).

(** [subprocess.run(argv, check=True)] *)
Definition check_call (argv : list string) : act unit :=
  fun tr => ((tr ++ [Ran argv])%list,
             if succeeds tr argv then Returned tt else Raised CalledProcessError).

Definition ask {A : Type} (f : list event -> A) : act A :=
  fun tr => (tr, Returned (f tr)).

(** [extract_cover_image(file_path)] *)
Definition extract_cover_image (file_path : string) : act (option string) :=
  _ <~ call ["ffmpeg"; "-y"; "-i"; file_path; "-an"; "-vcodec"; "copy";
             "_temp_cover.jpg"] ;;
  there <~ ask (fun tr => path_exists tr "_temp_cover.jpg") ;;
  size <~ ask (fun tr => getsize tr "_temp_cover.jpg") ;;
  if there && (size >? 0) then ret (Some "_temp_cover.jpg")
  else
    _ <~ (if there then emit (Removed "_temp_cover.jpg") else ret tt) ;;
    ret None.

(** The first loop of [combine_files]: every part is encoded again,
    into [_temp_<index>.m4b]. *)
Fixpoint reencode (bitrate_option sample_rate_option : list string)
    (index : nat) (part_files : list string) : act (list string) :=
  match part_files with
  | [] => ret []
  | input_file :: rest =>
      let temp_file := "_temp_" ++ PyStr.of_Z (Z.of_nat index) ++ ".m4b" in
      _ <~ check_call (["ffmpeg"; "-y"; "-i"; input_file; "-vn"; "-c:a"; "aac"]
                       ++ bitrate_option ++ sample_rate_option ++ [temp_file]) ;;
      temp_files <~ reencode bitrate_option sample_rate_option (S index) rest ;;
      ret (temp_file :: temp_files)
  end.

(** The loop over the temporary files: each is probed for its duration;
    one whose probe prints nothing is passed over and stays, the others
    are added to the offsets and removed. *)
Fixpoint probe_offsets (previous_time : Dec.t) (temp_files : list string)
    (offsets : list (Dec.t * Dec.t)) : act (list (Dec.t * Dec.t)) :=
  match temp_files with
  | [] => ret offsets
  | temp_file :: rest =>
      out <~ call ["ffprobe"; "-v"; "error"; "-show_entries"; "format=duration";
                   "-of"; "default=noprint_wrappers=1:nokey=1"; temp_file] ;;
      let duration_str := PyStr.strip out in
      if String.eqb duration_str EmptyString
      then probe_offsets previous_time rest offsets
      else
        duration <~ lift (Dec.of_string duration_str) ;;
        let start_time := previous_time in
        previous_time <~ lift (Dec.add previous_time duration) ;;
        let end_time := previous_time in
        _ <~ emit (Removed temp_file) ;;
        probe_offsets previous_time rest (offsets ++ [(start_time, end_time)])
  end.

(** The probes of [get_common_metadata]. *)
Fixpoint probe_tags (file_paths : list string) : act (list (option tags)) :=
  match file_paths with
  | [] => ret []
  | file_path :: rest =>
      out <~ call ["ffprobe"; "-v"; "quiet"; "-print_format"; "json";
                   "-show_format"; file_path] ;;
      probes <~ probe_tags rest ;;
      ret (decode_tags out :: probes)
  end.

(** The body of the [try] of [combine_files]. *)
Definition join_and_tag (part_files temp_files : list string)
    (cover_image : option string) (output_file : string)
    (chapter_threshold : Z) (chapter_titles : option (list string))
    : act bool :=
  let file_list_path := "_temp_file_list.txt" in
  let command :=
    (["ffmpeg"; "-y"; "-f"; "concat"; "-safe"; "0"; "-i"; file_list_path]
     ++ match cover_image with
        | Some cover => ["-i"; cover; "-map"; "0:a"; "-map"; "1:v";
                         "-c:v"; "copy"; "-disposition:v:0"; "attached_pic"]
        | None => ["-map"; "0:a"]
        end
     ++ ["-c:a"; "copy"; output_file])%list in
  _ <~ check_call command ;;
  _ <~ emit (Removed file_list_path) ;;
  offsets <~ probe_offsets (Dec.of_Z 0) temp_files [] ;;
  probes <~ probe_tags part_files ;;
  let common_metadata := get_common_metadata probes in
  _ <~ match generate_chapter_metadata
               (map (fun se => (fst se, Some (snd se))) offsets)
               chapter_threshold common_metadata chapter_titles with
       | Ok text => emit (Wrote "_temp_chapters_metadata.txt" text)
       | Err e =>
           _ <~ emit (Cut "_temp_chapters_metadata.txt") ;;
           throw (Inner e)
       end ;;
  let temp_output_file := PyStr.replace_str ".m4b" ".tmp.m4b" output_file in
  _ <~ check_call ["ffmpeg"; "-y"; "-i"; output_file;
                   "-i"; "_temp_chapters_metadata.txt";
                   "-map_metadata"; "1"; "-map_chapters"; "1"; "-c"; "copy";
                   temp_output_file] ;;
  _ <~ emit (Replaced temp_output_file output_file) ;;
  _ <~ emit (Removed "_temp_chapters_metadata.txt") ;;
  _ <~ match cover_image with
       | Some cover =>
           there <~ ask (fun tr => path_exists tr cover) ;;
           if there then emit (Removed cover) else ret tt
       | None => ret tt
       end ;;
  ret true.

(** [combine_files(book_name, files, vbr, vbr_quality, cbr_bitrate,
    sample_rate, chapter_threshold, chapter_titles, dry_run)]. The sizes
    read at the end are only printed. *)
Definition combine_files (book_name : string) (files : list string)
    (vbr : bool) (vbr_quality : option Z) (cbr_bitrate : option string)
    (sample_rate : option Z) (chapter_threshold : Z)
    (chapter_titles : option (list string)) (dry_run : bool) : act bool :=
  let part_files := get_files book_name files in
  match part_files with
  | [] => ret false
  | first_part :: _ =>
      if dry_run then ret true
      else if match chapter_titles with
              | Some ((_ :: _) as titles) =>
                  negb (List.length titles =? List.length part_files)%nat
              | _ => false
              end
      then ret false
      else
        let output_file := book_name ++ ".m4b" in
        cover_image <~ extract_cover_image first_part ;;
        out <~ call ["ffprobe"; "-v"; "quiet"; "-show_entries"; "format=bit_rate";
                     "-of"; "default=noprint_wrappers=1:nokey=1"; first_part] ;;
        input_bitrate <~ lift (get_audio_bitrate out) ;;
        bitrate_option <~
          (if vbr then
             quality <~ match vbr_quality, input_bitrate with
                        | Some q, _ => ret q
                        | None, Some b => ret (map_bitrate_to_quality b)
                        | None, None => throw TypeError
                        end ;;
             ret ["-q:a"; PyStr.of_Z quality]
           else
             rate <~ match cbr_bitrate, input_bitrate with
                     | Some r, _ => ret r
                     | None, Some b => ret (map_bitrate_to_cbr b)
                     | None, None => throw TypeError
                     end ;;
             ret ["-b:a"; rate]) ;;
        let encode_and_join (sample_rate_option : list string) : act bool :=
          temp_files <~ reencode bitrate_option sample_rate_option O part_files ;;
          _ <~ emit (Wrote "_temp_file_list.txt"
                       (String.concat ""
                          (map (fun file => "file '" ++ abspath file ++ "'" ++ nl)
                               temp_files))) ;;
          or_false (join_and_tag part_files temp_files cover_image
                      output_file chapter_threshold chapter_titles) in
        match sample_rate with
        | Some rate =>
            if rate <=? 0 then ret false
            else encode_and_join ["-ar"; PyStr.of_Z rate]
        | None => encode_and_join []
        end
  end.

(** [clean_files(book_name, files, dry_run)]; a part that cannot be
    removed is reported and the loop goes on. *)
Definition clean_files (book_name : string) (files : list string)
    (dry_run : bool) : act unit :=
  there <~ ask (fun tr => path_exists tr (book_name ++ ".m4b")) ;;
  if there then
    let part_files := get_files book_name files in
    if dry_run then ret tt
    else fun tr => ((tr ++ map Removed part_files)%list, Returned tt)
  else ret tt.

(** [main()] with the parsed arguments, on the entries of the working
    directory. *)
Definition main (a : args) (listing : list string) : act unit :=
  match infer_book_name_and_extension listing with
  | None => ret tt
  | Some (book_name, files) =>
      if String.eqb book_name EmptyString then ret tt
      else
        let rest (chapter_titles : option (list string)) : act unit :=
          go_on <~ (if a_combine a then
                      success <~ combine_files book_name files (a_vbr a)
                                   (a_quality a) (a_bitrate a) (a_sample_rate a)
                                   (a_chapter_threshold a) chapter_titles
                                   (a_dry_run a) ;;
                      ret (success || a_dry_run a)
                    else ret true) ;;
          if go_on && a_clean a
          then clean_files book_name files (a_dry_run a)
          else ret tt in
        match a_chapter_titles_file a with
        | Some path =>
            if String.eqb path EmptyString then rest None
            else match read_chapter_titles (titles_file path) with
                 | Some chapter_titles => rest (Some chapter_titles)
                 | None => ret tt
                 end
        | None => rest None
        end
  end.

End World.

End Combine.

(* ===================================================================== *)
(** ** extract_chapters.py *)

Module Extract.

(** A chapter as the prober reports it. The times are the values
    [float()] gives on the fields; a field that is absent reads as [0].
    [c_title] is [tags.title], absent when either level is missing. *)
Record chapter : Type := Chapter {
  c_id : option Z;
  c_title : option string;
  c_start : option F64.t;
  c_end : option F64.t
}.

(** [float(c.get('start_time', 0))] and [float(c.get('end_time', 0))] *)
Definition start_time (c : chapter) : F64.t :=
  match c_start c with Some x => x | None => F64.zero end.

Definition end_time (c : chapter) : F64.t :=
  match c_end c with Some x => x | None => F64.zero end.

(** [tags.get('title', f"Chapter {chapter.get('id', 'Unknown')}")] *)
Definition title_of (c : chapter) : string :=
  match c_title c with
  | Some t => t
  | None => "Chapter " ++ match c_id c with
                          | Some i => PyStr.of_Z i
                          | None => "Unknown"
                          end
  end.

Definition duration (c : chapter) : F64.t := F64.sub (end_time c) (start_time c).

(** The filter the three entry points share: [end - start >= 1.0]. *)
Definition long_enough (c : chapter) : bool := F64.geb (duration c) F64.one.

Definition filtered_chapters (chapters : list chapter) : list chapter :=
  filter long_enough chapters.

(** *** The hierarchy *)

(** [sorted(chapters, key=start)]: stable, comparing keys with [<]. This
    is the order Python gives when no start is a NaN; with a NaN among the
    keys the order of [sorted] depends on its merging and is not
    modelled. *)
Fixpoint insert_by_start (c : chapter) (l : list chapter) : list chapter :=
  match l with
  | [] => [c]
  | d :: l' =>
      if F64.ltb (start_time d) (start_time c)
      then d :: insert_by_start c l'
      else c :: l
  end.

Definition sorted (chapters : list chapter) : list chapter :=
  fold_right insert_by_start [] chapters.

(** A node dictionary on the heap. Nodes are shared between the stack and
    the lists that hold them, so they live in a store and are named by
    their position in it; [n_sub] lists the positions of the subchapters. *)
Record node : Type := MkNode {
  n_title : string;
  n_start : F64.t;
  n_end : F64.t;
  n_sub : list nat
}.

Record hstate : Type := HState {
  store : list node;
  hierarchy : list nat;   (* the top-level list *)
  stack : list nat        (* top first: the head is [stack[-1]] *)
}.

(** [stack[-1]['subchapters'].append(node)] on the node at position [p]. *)
Fixpoint append_sub (p : nat) (id : nat) (st : list node) : list node :=
  match st, p with
  | [], _ => []
  | n :: rest, O =>
      MkNode (n_title n) (n_start n) (n_end n) (n_sub n ++ [id]) :: rest
  | n :: rest, S p' => n :: append_sub p' id rest
  end.

(** [while stack and chapter_start >= stack[-1]['end_time']: stack.pop()] *)
Fixpoint pop_closed (st : list node) (chapter_start : F64.t) (stk : list nat)
    : list nat :=
  match stk with
  | [] => []
  | top :: below =>
      match nth_error st top with
      | Some n =>
          if F64.geb chapter_start (n_end n)
          then pop_closed st chapter_start below
          else stk
      | None => stk
      end
  end.

(** One turn of the loop of [build_chapter_hierarchy]. *)
Definition place (s : hstate) (c : chapter) : hstate :=
  let chapter_start := start_time c in
  let chapter_end := end_time c in
  let id := List.length (store s) in
  let nd := MkNode (title_of c) chapter_start chapter_end [] in
  let stk := pop_closed (store s) chapter_start (stack s) in
  match stk with
  | top :: _ =>
      HState (append_sub top id (store s) ++ [nd]) (hierarchy s) (id :: stk)
  | [] =>
      HState (store s ++ [nd]) (hierarchy s ++ [id]) (id :: stk)
  end.

Definition build_state (chapters : list chapter) : hstate :=
  fold_left place (sorted chapters) (HState [] [] []).

(** The nested value a reference stands for. *)
#[warnings="-register-all"]
Inductive ChapterNode : Type :=
| Node (title : string) (start_t end_t : F64.t) (subchapters : list ChapterNode).

Fixpoint all_some {A : Type} (l : list (option A)) : option (list A) :=
  match l with
  | [] => Some []
  | Some a :: l' => option_map (cons a) (all_some l')
  | None :: _ => None
  end.

(** Follow the references from position [id]; [fuel] bounds the depth. *)
Fixpoint tree_of (fuel : nat) (st : list node) (id : nat) : option ChapterNode :=
  match fuel with
  | O => None
  | S f =>
      match nth_error st id with
      | None => None
      | Some n =>
          option_map (Node (n_title n) (n_start n) (n_end n))
            (all_some (map (tree_of f st) (n_sub n)))
      end
  end.

(** [build_chapter_hierarchy(chapters)]: the returned list, read off the
    store. [None] would mean a dangling or cyclic reference. *)
Definition build_chapter_hierarchy (chapters : list chapter)
    : option (list ChapterNode) :=
  let s := build_state chapters in
  all_some (map (tree_of (List.length (store s)) (store s)) (hierarchy s)).

(** *** The listing *)

(** What [print] receives: the values each line is formatted from. *)
Inductive line : Type :=
| BookTitle (title : string)
| TotalChapters (n : nat)
| ChapterLine (level : nat) (title : string) (start dur : F64.t).

(** [display_chapter_hierarchy(hierarchy, level)] *)
Fixpoint display_node (level : nat) (n : ChapterNode) : list line :=
  match n with
  | Node title s e subs =>
      ChapterLine level title s (F64.sub e s)
        :: flat_map (display_node (S level)) subs
  end.

Definition display_chapter_hierarchy (h : list ChapterNode) (level : nat) : list line :=
  flat_map (display_node level) h.

(** How a call of [display_chapters] ends: it returns, having printed
    the lines, or it leaves through the AttributeError of [.get] on a
    string, before anything is printed. *)
Inductive shown : Type :=
| Printed (lines : list line)
| AttributeError.

(** [display_chapters(input_file)] on what the prober returned; [tags] are
    the tags of the file, a dictionary of strings. The heading is
    [tags.get('format', {}).get('tags', {}).get('title', 'Untitled')]:
    without a tag named [format] the first [get] gives the empty
    dictionary and the title is ['Untitled']; with one it gives a string,
    which has no [get]. *)
Definition display_chapters (tags : Combine.tags) (chapters : list chapter)
    : option shown :=
  match chapters with
  | [] => Some (Printed [])
  | _ =>
      let filtered := filtered_chapters chapters in
      match filtered with
      | [] => Some (Printed [])
      | _ =>
          match Combine.lookup "format" tags with
          | Some _ => Some AttributeError
          | None =>
              let book_title := "Untitled" in
              option_map
                (fun h => Printed (BookTitle book_title
                                     :: TotalChapters (List.length filtered)
                                     :: display_chapter_hierarchy h 0))
                (build_chapter_hierarchy filtered)
          end
      end
  end.

(** The [--display] branch of the script. *)
Definition main_display (tags : Combine.tags) (chapters : list chapter)
    : option shown :=
  if (1 <=? List.length (filtered_chapters chapters))%nat
  then display_chapters tags chapters
  else Some (Printed []).

(** *** The extractor *)

(** [sanitize_filename]: backslash, slash, star, question mark, colon,
    double quote, angle brackets and bar are removed. *)
Definition forbidden (c : ascii) : bool :=
  existsb (Ascii.eqb c)
    ["\"; "/"; "*"; "?"; ":"; ascii_of_nat 34; "<"; ">"; "|"]%char.

Fixpoint sanitize_filename (name : string) : string :=
  match name with
  | EmptyString => EmptyString
  | String c s => if forbidden c then sanitize_filename s
                  else String c (sanitize_filename s)
  end.

(** One run of the external cutter: [-ss], [-t], the title and the output
    file name. *)
Record command : Type := Command {
  cmd_ss : F64.t;
  cmd_t : F64.t;
  cmd_title : string;
  cmd_output : string
}.

Definition key : Type := (string * F64.t * F64.t)%type.

(** Equality of two keys as the set sees it: [==] on each component. *)
Definition key_eqb (k1 k2 : key) : bool :=
  let '(t1, s1, e1) := k1 in
  let '(t2, s2, e2) := k2 in
  String.eqb t1 t2 && F64.eqb s1 s2 && F64.eqb e1 e2.

(** The fields of a [ChapterExtractor] the loop touches, and the runs of
    the cutter so far, oldest first. *)
Record extractor : Type := Extractor {
  chapter_counter : Z;
  chapter_names : list string;
  processed_chapters : list key;
  runs : list command
}.

Section Extractor.

(** Whether a run of the cutter succeeds, given the runs before it. *)
Variable ffmpeg : list command -> command -> bool.
Variables book_title file_prefix : string.

(** One turn of the loop of [ChapterExtractor.extract_chapters]. *)
Definition extract_one (x : extractor) (c : chapter) : extractor :=
  let chapter_title := title_of c in
  let start := start_time c in
  let end_ := end_time c in
  let dur := F64.sub end_ start in
  if F64.ltb dur F64.one then x
  else
    let chapter_key := (chapter_title, start, end_) in
    if existsb (key_eqb chapter_key) (processed_chapters x) then x
    else
      let processed := (processed_chapters x ++ [chapter_key])%list in
      let output_filename :=
        book_title ++ "[" ++ file_prefix ++ "] (" ++
        PyStr.of_Z (chapter_counter x) ++ ").m4b" in
      let cmd := Command start dur chapter_title output_filename in
      if ffmpeg (runs x) cmd
      then Extractor (chapter_counter x + 1)
                     (chapter_names x ++ [output_filename])%list
                     processed (runs x ++ [cmd])%list
      else Extractor (chapter_counter x) (chapter_names x)
                     processed (runs x ++ [cmd])%list.

(** The method [ChapterExtractor.extract_chapters] on a fresh extractor:
    the final state; the method returns its [chapter_names]. *)
Definition run_extractor (chapters : list chapter) : extractor :=
  let fresh := Extractor 1 [] [] [] in
  match chapters with
  | [] => fresh
  | _ =>
      let filtered := filtered_chapters chapters in
      if (List.length filtered <=? 1)%nat then fresh
      else fold_left extract_one filtered fresh
  end.

End Extractor.

(** The function [extract_chapters(input_file, output_dir, file_prefix)]:
    the final extractor state when one is made, and the returned names.
    [input_exists] is the file test; [title_tag] the book title tag. *)
Definition extract_chapters (ffmpeg : list command -> command -> bool)
    (input_exists : bool) (title_tag : option string) (file_prefix : string)
    (chapters : list chapter) : extractor :=
  let fresh := Extractor 1 [] [] [] in
  if negb input_exists then fresh
  else
    let filtered := filtered_chapters chapters in
    if (List.length filtered <=? 1)%nat then fresh
    else
      let book_title := match title_tag with Some t => t | None => "Untitled" end in
      run_extractor ffmpeg (sanitize_filename book_title) file_prefix chapters.

(** [extract_all_chapters(input_file, output_dir)]: one pass with the
    prefix ["0"]; the names it gets back are printed. *)
Definition extract_all_chapters (ffmpeg : list command -> command -> bool)
    (input_exists : bool) (title_tag : option string)
    (chapters : list chapter) : extractor :=
  extract_chapters ffmpeg input_exists title_tag "0" chapters.

End Extract.

(* ===================================================================== *)
(** * Properties *)

(** ** Order on floats *)

Definition fle (a b : F64.t) : Prop := F64.leb a b = true.
Definition flt (a b : F64.t) : Prop := F64.ltb a b = true.

(** A position on the extended line for every float that is no NaN:
    the class (infinities outermost, zeros in the middle), then exponent
    and mantissa, mirrored for negative values. Both zeros share one. *)
Definition rank (x : F64.t) : Z * Z * Z :=
  match x with
  | S754_nan => (0, 0, 0)
  | S754_zero _ => (0, 0, 0)
  | S754_infinity true => (-2, 0, 0)
  | S754_infinity false => (2, 0, 0)
  | S754_finite true m e => (-1, - e, Zneg m)
  | S754_finite false m e => (1, e, Zpos m)
  end.

Definition lex_lt (a b : Z * Z * Z) : Prop :=
  let '(a1, a2, a3) := a in
  let '(b1, b2, b3) := b in
  a1 < b1 \/ (a1 = b1 /\ (a2 < b2 \/ (a2 = b2 /\ a3 < b3))).

(** ** Intervals and nesting *)

Module Nesting.
Import Extract.

Definition t_start (n : ChapterNode) : F64.t :=
  match n with Node _ s _ _ => s end.
Definition t_end (n : ChapterNode) : F64.t :=
  match n with Node _ _ e _ => e end.




(** Both times of the chapter are numbers. *)
Definition no_nan (c : chapter) : Prop :=
  F64.is_nan (start_time c) = false /\ F64.is_nan (end_time c) = false.


(** Of two siblings the earlier one ends before the later one starts,
    and starts no later. *)
Definition before (a b : ChapterNode) : Prop :=
  fle (t_end a) (t_start b) /\ fle (t_start a) (t_start b).


(** [P] holds of the title and times of every node of the tree. *)
Fixpoint tree_all (P : string -> F64.t -> F64.t -> Prop) (n : ChapterNode) : Prop :=
  match n with
  | Node t s e subs =>
      P t s e /\
      (fix all (l : list ChapterNode) : Prop :=
         match l with
         | [] => True
         | c :: l' => tree_all P c /\ all l'
         end) subs
  end.

(** Views of the store: the fields behind a reference. *)
Definition fstart (st : list node) (q : nat) : F64.t :=
  match nth_error st q with Some n => n_start n | None => F64.zero end.
Definition fend (st : list node) (q : nat) : F64.t :=
  match nth_error st q with Some n => n_end n | None => F64.zero end.
Definition ftitle (st : list node) (q : nat) : string :=
  match nth_error st q with Some n => n_title n | None => EmptyString end.
Definition subs (st : list node) (q : nat) : list nat :=
  match nth_error st q with Some n => n_sub n | None => [] end.



(** The references of the store are sound: the nodes carry the fields of
    the chapters placed so far, children are younger than their parent,
    and nothing dangles. *)
Record struct_inv (done : list chapter) (s : hstate) : Prop := {
  si_len : List.length (store s) = List.length done;
  si_fields : forall q c, nth_error done q = Some c ->
      ftitle (store s) q = title_of c /\
      fstart (store s) q = start_time c /\
      fend (store s) q = end_time c;
  si_sub : forall q, (q < List.length (store s))%nat ->
      Forall (fun c => (q < c < List.length (store s))%nat) (subs (store s) q);
  si_stack : Forall (fun q => (q < List.length (store s))%nat) (stack s);
  si_hier : Forall (fun q => (q < List.length (store s))%nat) (hierarchy s)
}.


(** What [place] leaves behind, seen through the views. *)
Definition grown (st st' : list node) (c : chapter) (parent : option nat) : Prop :=
  let len := List.length st in
  List.length st' = S len /\
  (forall q, (q < len)%nat ->
     ftitle st' q = ftitle st q /\ fstart st' q = fstart st q /\
     fend st' q = fend st q /\
     subs st' q = if match parent with
                     | Some p => Nat.eqb q p
                     | None => false
                     end
                  then (subs st q ++ [len])%list else subs st q) /\
  ftitle st' len = title_of c /\ fstart st' len = start_time c /\
  fend st' len = end_time c /\ subs st' len = [].

End Nesting.

(** ** Sample inputs *)

Module Samples.
Import Extract.

(** A chapter from [a] to [b] seconds with no title and no id. *)
Definition span (a b : Z) : chapter :=
  Chapter None None (Some (F64.of_Z a)) (Some (F64.of_Z b)).

(** The chapters (0,10), (1,4), (5,9), (10,20). *)
Definition nested_book : list chapter :=
  [span 0 10; span 1 4; span 5 9; span 10 20].

(** The chapters (5,9), (0,10), (0,5): two of them start together. *)
Definition tied_book : list chapter :=
  [span 5 9; span 0 10; span 0 5].

End Samples.

(** ** Exact values *)

(** The run returned a float whose exact value is the rational [q]. *)
Definition exact_seconds (r : result F64.t) (q : Q) : Prop :=
  exists f v, r = Ok f /\ F64.to_Q f = Some v /\ Qeq v q.

(** The double nearest to 17.9: 5038402083120742 / 2^48. *)
Definition seventeen_ninety : F64.t := S754_finite false 5038402083120742 (-48).

(** What the four replacements of [escape_title] make of one character. *)
Definition escape_char (c : ascii) : string :=
  if Ascii.eqb c "\" then "\\"
  else if Ascii.eqb c ";" then "\;"
  else if Ascii.eqb c LF then "\n"
  else if Ascii.eqb c CR then "\r"
  else String c EmptyString.

(** The title escaped character by character. *)
Fixpoint escape_each (title : string) : string :=
  match title with
  | EmptyString => EmptyString
  | String c rest => escape_char c ++ escape_each rest
  end.

(** ** Timelines *)

(** A timeline of (start, end) pairs is contiguous from [origin]: the
    first start is [origin] and every end is the next start. *)
Definition contiguous {A : Type} (origin : A) (l : list (A * A)) : Prop :=
  (forall p, nth_error l 0 = Some p -> fst p = origin) /\
  (forall i a b, nth_error l i = Some a -> nth_error l (S i) = Some b ->
                 snd a = fst b).

(** The same, following the cursor. *)
Fixpoint chained {A : Type} (cur : A) (l : list (A * A)) : Prop :=
  match l with
  | [] => True
  | (s, e) :: rest => s = cur /\ chained e rest
  end.

Definition block_span (b : Overwrite.block) : Z * Z :=
  (Overwrite.b_start b, Overwrite.b_end b).

(** [int(Decimal(x * 1000).quantize(Decimal('1')))] in one step. *)
Definition ms_of (x : F64.t) : result Z :=
  q <- Overwrite.to_ms x ;; Dec.to_int q.

Definition two_chapters : list (string * F64.t) :=
  [("Opening Credits", seventeen_ninety); ("Part One", F64.of_ratio false 520350 100)].

(** ** Keys, runs and lines *)

Module Keys.
Import Extract.

(** The key the extractor files a chapter under. *)
Definition key_of (c : chapter) : key := (title_of c, start_time c, end_time c).

(** No key of the list equals, under [==], one that came before it. *)
Definition distinct_keys (l : list key) : Prop :=
  ForallOrdPairs (fun older newer => key_eqb newer older = false) l.

(** The run was made for the chapter filed under the key. *)
Definition run_of_key (cmd : command) (k : key) : Prop :=
  let '(t, s, e) := k in
  cmd_title cmd = t /\ cmd_ss cmd = s /\ cmd_t cmd = F64.sub e s.

(** The run cuts the chapter [c]. *)
Definition run_of (cmd : command) (c : chapter) : Prop :=
  cmd_title cmd = title_of c /\ cmd_ss cmd = start_time c /\
  cmd_t cmd = duration c.

(** A line of the listing that shows a chapter shows the chapter [c]. *)
Definition line_of (l : line) (c : chapter) : Prop :=
  match l with
  | ChapterLine _ t s d =>
      t = title_of c /\ s = start_time c /\ d = duration c
  | _ => False
  end.

(** A marker from 2.0 to 2.5 seconds. *)
Definition short_marker : chapter :=
  Chapter None None (Some (F64.of_Z 2)) (Some (F64.of_ratio false 25 10)).

(** What every state the loop reaches satisfies. *)
Record ext_inv (x : extractor) : Prop := {
  ei_distinct : distinct_keys (processed_chapters x);
  ei_runs : Forall2 run_of_key (runs x) (processed_chapters x);
  ei_names : (List.length (chapter_names x) <= List.length (runs x))%nat;
  ei_counter : chapter_counter x = 1 + Z.of_nat (List.length (chapter_names x))
}.

End Keys.

(** ** Duration tokens and spec lines *)

Module Tokens.

(** The optional fraction of a duration token: nothing, or a point and
    at least one digit. *)
Inductive fraction : string -> Prop :=
| fraction_none : fraction EmptyString
| fraction_some (ds : string) :
    ds <> EmptyString -> PyStr.all_digits ds = true ->
    fraction (String "." ds).

(** Two digits. *)
Definition two_digits (s : string) : Prop :=
  exists a b, s = String a (String b EmptyString) /\
              PyStr.is_digit a = true /\ PyStr.is_digit b = true.

(** One or two digits. *)
Definition lead_digits (s : string) : Prop :=
  (exists a, s = String a EmptyString /\ PyStr.is_digit a = true) \/ two_digits s.

(** The token the line pattern accepts: [M:SS], [MM:SS], [H:MM:SS] or
    [HH:MM:SS], each with an optional fraction; no sign. *)
Inductive duration_token : string -> Prop :=
| token_ms (m s f : string) :
    lead_digits m -> two_digits s -> fraction f ->
    duration_token (m ++ ":" ++ s ++ f)
| token_hms (h m s f : string) :
    lead_digits h -> two_digits m -> two_digits s -> fraction f ->
    duration_token (h ++ ":" ++ m ++ ":" ++ s ++ f).

(** A line [read_chapters] passes over: blank, or a comment. *)
Definition skipped (raw : string) : bool :=
  let line := PyStr.strip raw in
  String.eqb line EmptyString || PyStr.startswith "#" line.

(** A line that is read and does not match the pattern. *)
Definition malformed (raw : string) : bool :=
  negb (skipped raw) &&
  match Overwrite.line_match (PyStr.strip raw) with
  | Some _ => false
  | None => true
  end.

(** Characters of a string all satisfy [p]. *)
Fixpoint str_all_prop (p : ascii -> bool) (s : string) : Prop :=
  match s with
  | EmptyString => True
  | String c s' => p c = true /\ str_all_prop p s'
  end.

Definition not_space (c : ascii) : bool := negb (PyStr.is_space c).
Definition not_colon (c : ascii) : bool := negb (Ascii.eqb c ":").
Definition not_underscore (c : ascii) : bool := negb (Ascii.eqb c "_").

End Tokens.

(** ** Sample spec file *)

Definition is_space_char (c : ascii) : bool := PyStr.is_space c.


(** ** Millisecond values *)

(** The integer nearest to a rational, ties to even. *)
Definition round_Q (q : Q) : Z := round_half_even (Qnum q) (Zpos (Qden q)).

(** [z] is an integer nearest to [q]. *)
Definition nearest_int (q : Q) (z : Z) : Prop :=
  (Qabs (inject_Z z - q) <= 1 # 2)%Q.

(** The cursor of [create_metadata_file] when it reaches chapter [i]: the
    durations before it added up from 0.0, left to right, in binary64. *)
Definition cursor_at (chapters : list (string * F64.t)) (i : nat) : F64.t :=
  fold_left F64.add (map snd (firstn i chapters)) F64.zero.

(** A chapter a little over half a millisecond past half a second. *)
Definition fine_line : string := "x 00:00.50050000000000000001".
Definition fine_seconds : Q := (50050000000000000001 # 100000000000000000000)%Q.

(** ** Characters *)

(** The characters of a string. *)
Definition chars (s : string) : list ascii := list_ascii_of_string s.

(** ** Forests in the store *)

Module Forest.
Import Extract Nesting.

(** The chapters of a tree, parents before their subchapters. *)
Fixpoint preorder (n : ChapterNode) : list key :=
  match n with
  | Node t s e subchapters => (t, s, e) :: flat_map preorder subchapters
  end.

(** The title and times behind a reference. *)
Definition fields (st : list node) (q : nat) : key :=
  (ftitle st q, fstart st q, fend st q).

(** [pre_forest st roots ids]: walking the trees under [roots], parents
    first and siblings from left to right, visits the positions [ids]. *)
Inductive pre_forest (st : list node) : list nat -> list nat -> Prop :=
| pf_nil : pre_forest st [] []
| pf_cons (q : nat) (qs l1 l2 : list nat) :
    (q < List.length st)%nat ->
    pre_forest st (subs st q) l1 -> pre_forest st qs l2 ->
    pre_forest st (q :: qs) (q :: l1 ++ l2)%list.

(** [rpath st roots p]: [p] goes from the last root down through last
    subchapters to a node that has none. *)
Inductive rpath (st : list node) : list nat -> list nat -> Prop :=
| rp_nil : rpath st [] []
| rp_cons (l : list nat) (v : nat) (p : list nat) :
    rpath st (subs st v) p -> rpath st (l ++ [v])%list (v :: p).

(** The same, stopping anywhere on the way. *)
Inductive rprefix (st : list node) : list nat -> list nat -> Prop :=
| rpp_nil (l : list nat) : rprefix st l []
| rpp_cons (l : list nat) (v : nat) (p : list nat) :
    rprefix st (subs st v) p -> rprefix st (l ++ [v])%list (v :: p).

(** What the loop of [build_chapter_hierarchy] keeps: the nodes were
    made in the order the walk visits them, and the stack is the way down
    from the last top-level node. *)
Record pre_inv (s : hstate) : Prop := {
  pi_pre : pre_forest (store s) (hierarchy s) (seq 0 (List.length (store s)));
  pi_path : rpath (store s) (hierarchy s) (rev (stack s))
}.

(** The name of the [n]-th file cut from a book. *)
Definition output_name (book_title file_prefix : string) (n : nat) : string :=
  book_title ++ "[" ++ file_prefix ++ "] (" ++ PyStr.of_Z (Z.of_nat n) ++ ").m4b".

(** The output names of the runs that succeeded, each run judged with
    the runs [before] it. *)
Fixpoint kept (ffmpeg : list command -> command -> bool)
    (before rest : list command) : list string :=
  match rest with
  | [] => []
  | cmd :: rest' =>
      (if ffmpeg before cmd then [cmd_output cmd] else [])
        ++ kept ffmpeg (before ++ [cmd]) rest'
  end%list.

(** The title shown for a book. *)
Definition shown_title (title_tag : option string) : string :=
  match title_tag with
  | Some t => t
  | None => "Untitled"
  end.

End Forest.

(** What the loop of the extractor keeps about the names: they are
    numbered from one without a gap, the counter is the next number, and
    the names are those of the runs that succeeded. *)
Record names_inv (ffmpeg : list Extract.command -> Extract.command -> bool)
    (book_title file_prefix : string) (x : Extract.extractor) : Prop := {
  ni_names : Extract.chapter_names x
             = map (Forest.output_name book_title file_prefix)
                   (seq 1 (List.length (Extract.chapter_names x)));
  ni_counter : Extract.chapter_counter x
               = Z.of_nat (S (List.length (Extract.chapter_names x)));
  ni_kept : Extract.chapter_names x = Forest.kept ffmpeg [] (Extract.runs x)
}.

(** ** Titles and values of the chapter-spec file *)

(** A title as [read_chapters] returns it: it begins with a character
    that is no whitespace and no [#], ends with one that is no
    whitespace, and has no newline inside. *)
Definition plain_title (title : string) : Prop :=
  (exists c r, title = String c r /\ PyStr.is_space c = false /\ c <> "#"%char) /\
  (exists a x, title = a ++ String x EmptyString /\ PyStr.is_space x = false) /\
  Forall (fun c => c <> LF) (chars title).

(** The digits of a fraction. *)
Definition fraction_digits (f : string) : string :=
  match f with
  | String _ ds => ds
  | EmptyString => EmptyString
  end.

(** The decimal [hours * 3600 + minutes * 60 + s.f], exactly: the seconds
    [s] with the fraction [f], as many places as the fraction has. *)
Definition token_decimal (hours minutes : Z) (s f : string) : Dec.t :=
  let ds := fraction_digits f in
  let k := Z.of_nat (String.length ds) in
  Dec.Fin false
    (PyStr.digits_val 0 (s ++ ds) + (hours * 3600 + minutes * 60) * 10 ^ k)
    (- k).

(** The line of a chapter-spec file for a title and a duration. *)
Definition spec_line (td : string * string) : string :=
  fst td ++ " " ++ snd td.

(** A title that one line of an ASCII text file can hold and give back:
    a plain title of ASCII characters without a carriage return, which
    the reader of the file would take for the end of the line. *)
Definition file_title (title : string) : Prop :=
  plain_title title /\ PyStr.isascii title = true /\
  Forall (fun c => c <> CR) (chars title).

(** ** Parts and their numbers *)

Module Parts.
Import Combine.

(** The files, one by one, have the part numbers [numbers]. *)
Definition numbered (files : list string) (numbers : list Z) : Prop :=
  Forall2 (fun f n => part_number f = Ok n) files numbers.



(** The tags of the probes that could be decoded. *)
Definition decoded (probes : list (option tags)) : list tags :=
  flat_map (fun p => match p with Some t => [t] | None => [] end) probes.

(** The last character of the text is there and is no whitespace. *)
Fixpoint last_nonspace (s : string) : bool :=
  match s with
  | EmptyString => false
  | String c EmptyString => negb (PyStr.is_space c)
  | String _ r => last_nonspace r
  end.

(** The text begins with a character that is no whitespace. *)
Definition starts_nonspace (t : string) : Prop :=
  exists c r, t = String c r /\ PyStr.is_space c = false.

(** A line of the titles file that is not blank. *)
Definition not_blank (raw : string) : bool :=
  negb (String.eqb (PyStr.strip raw) EmptyString).

End Parts.

(** ** Durations in nanoseconds *)

Module Probe.

(** What the duration probe prints for a file: digits, a point and
    digits, at most nine of each, with whitespace around; [nanos] is the
    duration in units of a billionth of a second. *)
Definition duration_text (out : string) (nanos : Z) : Prop :=
  exists ip fp,
    PyStr.strip out = ip ++ "." ++ fp /\
    PyStr.all_digits ip = true /\ ip <> EmptyString /\
    PyStr.all_digits fp = true /\ fp <> EmptyString /\
    (String.length ip <= 9)%nat /\ (String.length fp <= 9)%nat /\
    nanos = PyStr.digits_val 0 (ip ++ fp) * 10 ^ (9 - Z.of_nat (String.length fp)).

Definition total (l : list Z) : Z := fold_right Z.add 0 l.

(** The decimal is exactly [n] billionths, with at most nine places. *)
Definition is_nanos (t : Dec.t) (n : Z) : Prop :=
  exists c e, t = Dec.Fin false c e /\ -9 <= e <= 0 /\ 0 <= c /\
              c * 10 ^ (9 + e) = n.

End Probe.

(** The event is a command that was run. *)
Definition is_command (e : event) : bool :=
  match e with
  | Ran _ => true
  | _ => false
  end.

(** ** What a run of the combining tool touches *)

Module Runs.
Import Combine.

(** A part as the three patterns of the tool find it: an entry that does
    not begin with a dot and ends in a closing parenthesis and one of the
    extensions, with an opening parenthesis somewhere before. *)
Definition part_file (name : string) : Prop :=
  PyStr.startswith "." name = false /\
  exists a b ext,
    name = a ++ "(" ++ b ++ ")" ++ ext /\
    (ext = ".mp3" \/ ext = ".m4a" \/ ext = ".aax").

Definition no_open_paren (s : string) : Prop :=
  Tokens.str_all_prop (fun c => negb (Ascii.eqb c "(")) s.

(** The event writes, removes or moves the path. A command changes a path
    when it is an [ffmpeg] command and the path is its output file, the
    last argument; [ffprobe] only reads. *)
Definition changes (e : event) (p : string) : Prop :=
  match e with
  | Ran argv => hd_error argv = Some "ffmpeg" /\ last argv EmptyString = p
  | Wrote q _ | Cut q | Removed q => q = p
  | Replaced src dst => src = p \/ dst = p
  end.

(** The event changes no part. *)
Definition keeps_parts (e : event) : Prop :=
  forall p, part_file p -> ~ changes e p.

(** The event changes no path with an opening parenthesis in its name. *)
Definition plain_paths (e : event) : Prop :=
  forall p, changes e p -> no_open_paren p.

(** Every run of the action only adds events, and all of them satisfy
    [P]. *)
Definition emits {A : Type} (P : event -> Prop) (m : act A) : Prop :=
  forall tr0 tr out, m tr0 = (tr, out) ->
    exists evs, tr = (tr0 ++ evs)%list /\ Forall P evs.

(** Every run of the action that returns a value with [Q] has added the
    event [e]. *)
Definition marks {A : Type} (Q : A -> Prop) (e : event) (m : act A) : Prop :=
  forall tr0 tr a, m tr0 = (tr, Returned a) -> Q a ->
    exists evs, tr = (tr0 ++ evs)%list /\ In e evs.

(** The name the finished book has before it is moved into place. *)
Definition temp_output (book_name : string) : string :=
  PyStr.replace_str ".m4b" ".tmp.m4b" (book_name ++ ".m4b").

(** The two commands [combine_files] runs on the first part before it
    settles the encoding. *)
Definition cover_command (file_path : string) : list string :=
  ["ffmpeg"; "-y"; "-i"; file_path; "-an"; "-vcodec"; "copy"; "_temp_cover.jpg"].

Definition bitrate_command (file_path : string) : list string :=
  ["ffprobe"; "-v"; "quiet"; "-show_entries"; "format=bit_rate";
   "-of"; "default=noprint_wrappers=1:nokey=1"; file_path].

(** [chapter_titles and len(chapter_titles) != len(part_files)] *)
Definition titles_mismatch (chapter_titles : option (list string))
    (part_files : list string) : bool :=
  match chapter_titles with
  | Some ((_ :: _) as titles) =>
      negb (List.length titles =? List.length part_files)%nat
  | _ => false
  end.

End Runs.

(* ===================================================================== *)
(** * Proofs *)

(** ** Floats are ordered by rank *)

Lemma compare_cont_Eq (m1 m2 : positive) :
  Pos.compare_cont Eq m1 m2 = (m1 ?= m2)%positive.
Proof. reflexivity. Qed.

Lemma SFcompare_rank (x y : F64.t) :
  F64.is_nan x = false -> F64.is_nan y = false ->
  exists c, SFcompare x y = Some c /\
    match c with
    | Lt => lex_lt (rank x) (rank y)
    | Eq => rank x = rank y
    | Gt => lex_lt (rank y) (rank x)
    end.
Proof.
  intros Hx Hy.
  destruct x as [sx|sx| |sx mx ex], y as [sy|sy| |sy my ey];
    try discriminate; simpl;
    try (destruct sx); try (destruct sy); simpl;
    try (eexists; split; [reflexivity|]; simpl; auto; lia).
  - destruct (Z.compare_spec ex ey) as [E|E|E].
    + subst. rewrite compare_cont_Eq.
      destruct (Pos.compare_spec mx my) as [M|M|M]; simpl;
        eexists; (split; [reflexivity|]); simpl.
      * subst; reflexivity.
      * right. split; [reflexivity|]. right. split; [reflexivity|]. lia.
      * right. split; [reflexivity|]. right. split; [reflexivity|]. lia.
    + eexists; split; [reflexivity|]. simpl. lia.
    + eexists; split; [reflexivity|]. simpl. lia.
  - destruct (Z.compare_spec ex ey) as [E|E|E].
    + subst. rewrite compare_cont_Eq.
      destruct (Pos.compare_spec mx my) as [M|M|M]; simpl;
        eexists; (split; [reflexivity|]); simpl.
      * subst; reflexivity.
      * right. split; [reflexivity|]. right. split; [reflexivity|]. lia.
      * right. split; [reflexivity|]. right. split; [reflexivity|]. lia.
    + eexists; split; [reflexivity|]. simpl. lia.
    + eexists; split; [reflexivity|]. simpl. lia.
Qed.

Ltac lex_solve :=
  repeat match goal with
         | H : context [rank ?x] |- _ =>
             let a := fresh "a" in let b := fresh "b" in let c := fresh "c" in
             destruct (rank x) as [[a b] c]
         | |- context [rank ?x] =>
             let a := fresh "a" in let b := fresh "b" in let c := fresh "c" in
             destruct (rank x) as [[a b] c]
         end;
  unfold lex_lt in *;
  repeat match goal with
         | H : (_, _) = (_, _) |- _ => inversion H; clear H; subst
         end;
  try lia.

Lemma leb_not_nan (x y : F64.t) :
  fle x y -> F64.is_nan x = false /\ F64.is_nan y = false.
Proof.
  unfold fle, F64.leb, SFleb.
  destruct x, y; simpl; try discriminate; auto.
Qed.

Lemma ltb_not_nan (x y : F64.t) :
  flt x y -> F64.is_nan x = false /\ F64.is_nan y = false.
Proof.
  unfold flt, F64.ltb, SFltb.
  destruct x, y; simpl; try discriminate; auto.
Qed.

Lemma leb_rank (x y : F64.t) :
  F64.is_nan x = false -> F64.is_nan y = false ->
  (fle x y <-> lex_lt (rank x) (rank y) \/ rank x = rank y).
Proof.
  intros Hx Hy. unfold fle, F64.leb, SFleb.
  destruct (SFcompare_rank x y Hx Hy) as [c [-> Hc]].
  destruct c; split; intro H; auto; try discriminate; exfalso.
  - destruct H as [H|H]; [revert H Hc | rewrite H in Hc; revert Hc]; lex_solve.
Qed.

Lemma ltb_rank (x y : F64.t) :
  F64.is_nan x = false -> F64.is_nan y = false ->
  (flt x y <-> lex_lt (rank x) (rank y)).
Proof.
  intros Hx Hy. unfold flt, F64.ltb, SFltb.
  destruct (SFcompare_rank x y Hx Hy) as [c [-> Hc]].
  destruct c; split; intro H; auto; try discriminate; exfalso.
  - rewrite Hc in H. revert H. lex_solve.
  - revert H Hc. lex_solve.
Qed.

Lemma fle_refl (x : F64.t) : F64.is_nan x = false -> fle x x.
Proof. intro H. apply leb_rank; auto. Qed.

Lemma fle_trans (x y z : F64.t) : fle x y -> fle y z -> fle x z.
Proof.
  intros H1 H2.
  destruct (leb_not_nan H1) as [Hx Hy], (leb_not_nan H2) as [_ Hz].
  apply leb_rank in H1; auto. apply leb_rank in H2; auto. apply leb_rank; auto.
  destruct H1 as [H1|H1], H2 as [H2|H2];
    try (rewrite <- H2; auto; fail); try (rewrite H1; auto; fail).
  left. revert H1 H2. lex_solve.
Qed.

Lemma flt_fle (x y : F64.t) : flt x y -> fle x y.
Proof.
  intro H. destruct (ltb_not_nan H) as [Hx Hy].
  apply ltb_rank in H; auto. apply leb_rank; auto.
Qed.


Lemma not_ltb_fle (x y : F64.t) :
  F64.is_nan x = false -> F64.is_nan y = false ->
  F64.ltb x y = false -> fle y x.
Proof.
  intros Hx Hy H. apply leb_rank; auto.
  destruct (SFcompare_rank x y Hx Hy) as [c [Hc Hr]].
  unfold F64.ltb, SFltb in H. rewrite Hc in H.
  destruct c; try discriminate; auto.
Qed.

Lemma flt_not_fle (x y : F64.t) : flt x y -> fle y x -> False.
Proof.
  intros H1 H2. destruct (ltb_not_nan H1) as [Hx Hy].
  apply ltb_rank in H1; auto. apply leb_rank in H2; auto.
  destruct H2 as [H2|H2]; [|rewrite H2 in H1]; revert H1; try revert H2; lex_solve.
Qed.

(** [a >= b] is [b <= a]. *)
Lemma geb_fle (a b : F64.t) : F64.geb a b = true <-> fle b a.
Proof. reflexivity. Qed.

(** [x < 1.0] and [x >= 1.0] exclude each other. *)
Lemma ltb_geb_false (x y : F64.t) : F64.geb x y = true -> F64.ltb x y = false.
Proof.
  intro H. destruct (F64.ltb x y) eqn:E; auto.
  exfalso. exact (flt_not_fle E H).
Qed.

(** ** The store of the hierarchy builder *)

Section Store.
Import Extract Nesting.
Local Open Scope nat_scope.
Local Open Scope list_scope.

Lemma length_append_sub (p id : nat) (st : list node) :
  List.length (append_sub p id st) = List.length st.
Proof.
  revert p; induction st as [|n st IH]; intros [|p]; simpl; auto.
Qed.

Lemma nth_append_sub_eq (p id : nat) (st : list node) (n : node) :
  nth_error st p = Some n ->
  nth_error (append_sub p id st) p =
    Some (MkNode (n_title n) (n_start n) (n_end n) (n_sub n ++ [id])).
Proof.
  revert p; induction st as [|m st IH]; intros [|p] H; simpl in *;
    try discriminate.
  - inversion H; subst; reflexivity.
  - apply IH; assumption.
Qed.

Lemma nth_append_sub_ne (p q id : nat) (st : list node) :
  q <> p -> nth_error (append_sub p id st) q = nth_error st q.
Proof.
  revert p q; induction st as [|m st IH]; intros [|p] [|q] H; simpl; auto;
    try contradiction; try (apply IH; lia).
Qed.

Lemma nth_error_snoc_old {A} (l : list A) (x : A) (q : nat) :
  q < List.length l -> nth_error (l ++ [x]) q = nth_error l q.
Proof. intro H. apply nth_error_app1; assumption. Qed.

Lemma nth_error_snoc_new {A} (l : list A) (x : A) :
  nth_error (l ++ [x]) (List.length l) = Some x.
Proof. rewrite nth_error_app2, Nat.sub_diag; auto. Qed.

Lemma grown_top (st : list node) (c : chapter) :
  grown st (st ++ [MkNode (title_of c) (start_time c) (end_time c) []]) c None.
Proof.
  unfold grown, ftitle, fstart, fend, subs. repeat split.
  - rewrite length_app; simpl; lia.
  - rewrite nth_error_snoc_old; auto.
  - rewrite nth_error_snoc_old; auto.
  - rewrite nth_error_snoc_old; auto.
  - rewrite nth_error_snoc_old; auto.
  - rewrite nth_error_snoc_new; auto.
  - rewrite nth_error_snoc_new; auto.
  - rewrite nth_error_snoc_new; auto.
  - rewrite nth_error_snoc_new; auto.
Qed.

Lemma grown_child (st : list node) (c : chapter) (p : nat) :
  p < List.length st ->
  grown st (append_sub p (List.length st) st
              ++ [MkNode (title_of c) (start_time c) (end_time c) []]) c (Some p).
Proof.
  intro Hp.
  assert (L := length_append_sub p (List.length st) st).
  unfold grown, ftitle, fstart, fend, subs. split; [|split].
  - rewrite length_app, L; simpl; lia.
  - intros q Hq. rewrite nth_error_snoc_old by lia.
    destruct (Nat.eqb_spec q p) as [->|Hne].
    + destruct (nth_error st p) as [n|] eqn:E.
      * rewrite (@nth_append_sub_eq p _ st n E). simpl. auto.
      * apply nth_error_None in E. lia.
    + rewrite nth_append_sub_ne by assumption. auto.
  - rewrite nth_error_app2 by lia. rewrite L, Nat.sub_diag. simpl. auto.
Qed.

Lemma pop_closed_spec (st : list node) (x : F64.t) (stk : list nat) :
  Forall (fun q => q < List.length st) stk ->
  exists popped, stk = popped ++ pop_closed st x stk /\
    Forall (fun q => fle (fend st q) x) popped /\
    match pop_closed st x stk with
    | [] => True
    | top :: _ => F64.geb x (fend st top) = false
    end.
Proof.
  induction stk as [|top below IH]; intro H.
  - exists []; simpl; auto.
  - inversion H as [|? ? Htop Hbelow]; subst. simpl.
    destruct (nth_error st top) as [n|] eqn:E.
    + destruct (F64.geb x (n_end n)) eqn:G.
      * destruct (IH Hbelow) as [popped [E1 [E2 E3]]].
        exists (top :: popped). split; [simpl; congruence|]. split; auto.
        constructor; auto. unfold fend; rewrite E. exact G.
      * exists []. simpl. split; auto. split; auto.
        unfold fend; rewrite E. exact G.
    + apply nth_error_None in E. lia.
Qed.

Lemma place_spec (s : hstate) (c : chapter) :
  Forall (fun q => q < List.length (store s)) (stack s) ->
  let len := List.length (store s) in
  let stk := pop_closed (store s) (start_time c) (stack s) in
  stack (place s c) = len :: stk /\
  grown (store s) (store (place s c)) c (hd_error stk) /\
  hierarchy (place s c) =
    match stk with [] => hierarchy s ++ [len] | _ :: _ => hierarchy s end.
Proof.
  intros H. cbv zeta.
  destruct (pop_closed_spec (store s) (start_time c) H) as [popped [E _]].
  unfold place.
  destruct (pop_closed (store s) (start_time c) (stack s)) as [|top rest];
    simpl.
  - split; auto. split; auto. apply grown_top.
  - split; auto. split; auto. apply grown_child.
    rewrite E in H. apply Forall_app in H. destruct H as [_ H].
    inversion H; assumption.
Qed.

Lemma struct_inv_init : struct_inv [] (HState [] [] []).
Proof.
  constructor; simpl; auto.
  - intros [|q] c H; discriminate.
  - intros q H; lia.
Qed.

Lemma struct_inv_place (done : list chapter) (s : hstate) (c : chapter) :
  struct_inv done s -> struct_inv (done ++ [c]) (place s c).
Proof.
  intros [Hlen Hf Hsub Hstk Hh].
  destruct (@place_spec s c Hstk) as [Estk [G Eh]].
  destruct (pop_closed_spec (store s) (start_time c) Hstk) as [popped [Ep _]].
  set (stk := pop_closed (store s) (start_time c) (stack s)) in *.
  destruct G as [Glen [Gold [Gt [Gs [Ge Gsub]]]]].
  assert (Hstk' : Forall (fun q => q < List.length (store s)) stk).
  { rewrite Ep in Hstk. apply Forall_app in Hstk. tauto. }
  constructor.
  - rewrite Glen, length_app, Hlen. simpl. lia.
  - intros q d Hq.
    destruct (Nat.lt_ge_cases q (List.length done)) as [Hlt|Hge].
    + rewrite nth_error_app1 in Hq by assumption.
      destruct (Gold q) as [E1 [E2 [E3 _]]]; [lia|].
      rewrite E1, E2, E3. apply Hf; assumption.
    + rewrite nth_error_app2 in Hq by assumption.
      destruct (q - List.length done) as [|k] eqn:Ek; simpl in Hq.
      * inversion Hq; subst d. assert (q = List.length (store s)) by lia.
        subst q. auto.
      * destruct k; discriminate.
  - intros q Hq. rewrite Glen in *.
    destruct (Nat.eq_dec q (List.length (store s))) as [->|Hne].
    + rewrite Gsub. constructor.
    + assert (Hq' : q < List.length (store s)) by lia.
      destruct (Gold q Hq') as [_ [_ [_ E]]]. rewrite E.
      assert (Hold : Forall (fun c0 => q < c0 < S (List.length (store s)))
                       (subs (store s) q)).
      { eapply Forall_impl; [|apply Hsub; assumption]. simpl. intros; lia. }
      destruct (match hd_error stk with Some p => q =? p | None => false end);
        auto.
      apply Forall_app. split; auto.
  - rewrite Estk, Glen. constructor; [lia|].
    eapply Forall_impl; [|exact Hstk']. simpl; intros; lia.
  - rewrite Eh, Glen.
    assert (Hold : Forall (fun q => q < S (List.length (store s))) (hierarchy s)).
    { eapply Forall_impl; [|exact Hh]. simpl; intros; lia. }
    destruct stk; auto. apply Forall_app; split; auto.
Qed.

Lemma ForallOrdPairs_snoc {A} (R : A -> A -> Prop) (l : list A) (x : A) :
  ForallOrdPairs R l -> Forall (fun a => R a x) l ->
  ForallOrdPairs R (l ++ [x]).
Proof.
  induction 1 as [|a l Ha Hl IH]; intro H; simpl.
  - constructor; constructor.
  - inversion H; subst. constructor; auto.
    apply Forall_app; split; auto.
Qed.






Lemma struct_inv_fold (l done : list chapter) (s : hstate) :
  struct_inv done s -> struct_inv (done ++ l) (fold_left place l s).
Proof.
  revert done s; induction l as [|c l IH]; intros done s H; simpl.
  - rewrite app_nil_r; assumption.
  - replace (done ++ c :: l) with ((done ++ [c]) ++ l)
      by (rewrite <- app_assoc; reflexivity).
    apply IH. apply struct_inv_place; assumption.
Qed.


(** *** Sorting *)

Lemma insert_by_start_perm (c : chapter) (l : list chapter) :
  Permutation (c :: l) (insert_by_start c l).
Proof.
  induction l as [|d l IH]; simpl; auto.
  destruct (F64.ltb (start_time d) (start_time c)); auto.
  eapply perm_trans; [apply perm_swap|]. apply perm_skip; assumption.
Qed.

Lemma sorted_perm (l : list chapter) : Permutation l (sorted l).
Proof.
  induction l as [|c l IH]; simpl; auto.
  eapply perm_trans; [|apply insert_by_start_perm].
  apply perm_skip; assumption.
Qed.

Lemma insert_by_start_sorted (c : chapter) (l : list chapter) :
  no_nan c -> Forall no_nan l ->
  ForallOrdPairs (fun a b => fle (start_time a) (start_time b)) l ->
  ForallOrdPairs (fun a b => fle (start_time a) (start_time b))
    (insert_by_start c l).
Proof.
  intros Hc Hl Hs. induction Hs as [|d l Hd Hs IH]; simpl.
  - constructor; constructor.
  - inversion Hl as [|? ? Nd Nl]; subst.
    destruct (F64.ltb (start_time d) (start_time c)) eqn:E.
    + constructor; auto.
      eapply Permutation_Forall; [apply insert_by_start_perm|].
      constructor; auto. apply flt_fle; exact E.
    + assert (Le : fle (start_time c) (start_time d)).
      { apply not_ltb_fle; auto; [apply Nd|apply Hc]. }
      constructor; [|constructor; auto].
      constructor; auto.
      eapply Forall_impl; [|exact Hd]. simpl. intros a Ha.
      eapply fle_trans; eassumption.
Qed.

Lemma sorted_sorted (l : list chapter) :
  Forall no_nan l ->
  ForallOrdPairs (fun a b => fle (start_time a) (start_time b)) (sorted l).
Proof.
  induction 1 as [|c l Hc Hl IH]; simpl; [constructor|].
  apply insert_by_start_sorted; auto.
  eapply Permutation_Forall; [apply sorted_perm|]. assumption.
Qed.




(** The state after the loop satisfies both invariants. *)
Lemma build_state_struct (chapters : list chapter) :
  struct_inv (sorted chapters) (build_state chapters).
Proof. apply (@struct_inv_fold (sorted chapters) []), struct_inv_init. Qed.


(** *** Reading the trees off the store *)

Lemma all_some_Forall2 {A B} (f : A -> option B) (l : list A) (ts : list B) :
  all_some (map f l) = Some ts <-> Forall2 (fun x t => f x = Some t) l ts.
Proof.
  revert ts; induction l as [|x l IH]; intros ts; simpl.
  - split; intro H.
    + inversion H; constructor.
    + inversion H; reflexivity.
  - destruct (f x) as [t|] eqn:E.
    + destruct (all_some (map f l)) as [ts'|] eqn:E'; simpl.
      * split; intro H.
        -- inversion H; subst. constructor; auto. apply IH; reflexivity.
        -- inversion H as [|? t0 ? ts0 H1 H2]; subst.
           apply IH in H2. rewrite E in H1. congruence.
      * split; intro H; [discriminate|].
        inversion H as [|? t0 ? ts0 H1 H2]; subst.
        apply IH in H2. discriminate.
    + split; intro H; [discriminate|].
      inversion H as [|? t0 ? ts0 H1 H2]; subst. congruence.
Qed.

Lemma all_some_total {A B} (f : A -> option B) (l : list A) :
  Forall (fun x => exists t, f x = Some t) l ->
  exists ts, all_some (map f l) = Some ts.
Proof.
  induction 1 as [|x l [t Ht] Hl [ts IH]]; simpl.
  - eexists; reflexivity.
  - rewrite Ht, IH. simpl. eexists; reflexivity.
Qed.


Lemma tree_all_unfold (P : string -> F64.t -> F64.t -> Prop)
    (t : string) (s e : F64.t) (subs0 : list ChapterNode) :
  tree_all P (Node t s e subs0) <-> P t s e /\ Forall (tree_all P) subs0.
Proof.
  simpl. enough (E : forall l,
    (fix all (l : list ChapterNode) : Prop :=
       match l with [] => True | c :: l' => tree_all P c /\ all l' end) l
    <-> Forall (tree_all P) l) by (rewrite E; tauto).
  induction l as [|c l IH]; simpl.
  - split; auto.
  - rewrite IH. split.
    + intros [H1 H2]; constructor; auto.
    + intro H; inversion H; auto.
Qed.


(** Enough fuel reads every node, and every node read carries the fields
    of some position of the store. *)
Lemma tree_of_total (st : list node) (P : string -> F64.t -> F64.t -> Prop) :
  (forall q, q < List.length st ->
     Forall (fun c => q < c < List.length st) (subs st q)) ->
  (forall q, q < List.length st -> P (ftitle st q) (fstart st q) (fend st q)) ->
  forall fuel q, q < List.length st -> List.length st - q <= fuel ->
  exists t, tree_of fuel st q = Some t /\ tree_all P t.
Proof.
  intros Hsub HP. induction fuel as [|f IH]; intros q Hq Hf; [lia|].
  simpl. specialize (Hsub q Hq). specialize (HP q Hq).
  unfold subs, ftitle, fstart, fend in *.
  destruct (nth_error st q) as [n|] eqn:E;
    [|apply nth_error_None in E; lia].
  assert (K : Forall (fun c => exists t, tree_of f st c = Some t /\ tree_all P t)
                (n_sub n)).
  { eapply Forall_impl; [|exact Hsub]. simpl. intros c Hc. apply IH; lia. }
  clear Hsub. induction K as [|c l [t [Ht Pt]] Hl IHl]; simpl.
  - eexists; split; [reflexivity|]. apply tree_all_unfold; auto.
  - destruct IHl as [t' [Et' Pt']].
    destruct (all_some (map (tree_of f st) l)) as [ts|]; [|discriminate].
    simpl in Et'. inversion Et'; subst t'.
    rewrite Ht. simpl. eexists; split; [reflexivity|].
    apply tree_all_unfold in Pt'. apply tree_all_unfold.
    destruct Pt'; split; auto.
Qed.

Lemma Forall2_Forall {A B} (R : A -> B -> Prop) (P : A -> Prop) (Q : B -> Prop)
    (l : list A) (l' : list B) :
  (forall a b, R a b -> P a -> Q b) ->
  Forall2 R l l' -> Forall P l -> Forall Q l'.
Proof.
  intros H F. induction F; intro K; inversion K; subst; constructor; eauto.
Qed.



Lemma build_total (chapters : list chapter)
    (P : string -> F64.t -> F64.t -> Prop) :
  (forall c, In c chapters -> P (title_of c) (start_time c) (end_time c)) ->
  exists trees, build_chapter_hierarchy chapters = Some trees /\
                Forall (tree_all P) trees.
Proof.
  intro HP. unfold build_chapter_hierarchy.
  assert (S := build_state_struct chapters).
  set (s := build_state chapters) in *. set (st := store s).
  assert (K : Forall (fun q => exists t,
                 tree_of (List.length st) st q = Some t /\ tree_all P t)
                (hierarchy s)).
  { eapply Forall_impl; [|exact (si_hier S)]. simpl. intros q Hq.
    apply tree_of_total; try lia; auto.
    - exact (si_sub S).
    - intros r Hr. unfold st in *.
      rewrite (si_len S) in Hr.
      destruct (nth_error (sorted chapters) r) as [c|] eqn:E;
        [|apply nth_error_None in E; lia].
      destruct (si_fields S r E) as [-> [-> ->]].
      apply HP. eapply Permutation_in;
        [apply Permutation_sym, sorted_perm|]. eapply nth_error_In; exact E. }
  destruct (@all_some_total _ _ (tree_of (List.length st) st) (hierarchy s))
    as [ts Ets].
  { eapply Forall_impl; [|exact K]. simpl. intros q [t [Ht _]]. eauto. }
  exists ts. split; auto.
  apply all_some_Forall2 in Ets.
  eapply Forall2_Forall; [|exact Ets|exact K].
  simpl. intros q t Ht [t' [Ht' Pt']]. congruence.
Qed.


End Store.


(** ** Single-chapter books *)

Section SingleChapter.
Import Extract.

(** With at most one chapter left after the filter, nothing is cut. *)
Lemma extract_nothing_below_two (ffmpeg : list command -> command -> bool)
    (input_exists : bool) (title_tag : option string) (file_prefix : string)
    (chapters : list chapter) :
  (List.length (filtered_chapters chapters) <= 1)%nat ->
  extract_chapters ffmpeg input_exists title_tag file_prefix chapters
    = Extractor 1 [] [] [].
Proof.
  intro H. unfold extract_chapters.
  destruct input_exists; simpl; auto.
  apply Nat.leb_le in H. rewrite H. reflexivity.
Qed.

(** With no chapter left after the filter, nothing is listed. *)
Lemma display_nothing_for_none (tags : Combine.tags)
    (chapters : list chapter) :
  filtered_chapters chapters = [] ->
  display_chapters tags chapters = Some (Printed []) /\
  main_display tags chapters = Some (Printed []).
Proof.
  intro H. unfold main_display, display_chapters. rewrite H.
  destruct chapters; auto.
Qed.

(** C3. A book whose only chapter lasts ten seconds keeps that chapter
    through the filter; nothing is cut from it, yet the listing shows the
    heading, the count and the chapter. *)
Theorem display_single_chapter :
  filtered_chapters [Samples.span 0 10] = [Samples.span 0 10] /\
  (forall ffmpeg, extract_chapters ffmpeg true None "0" [Samples.span 0 10]
                  = Extractor 1 [] [] []) /\
  main_display [] [Samples.span 0 10]
    = Some (Printed [BookTitle "Untitled"; TotalChapters 1;
                     ChapterLine 0 "Chapter Unknown" F64.zero (F64.of_Z 10)]).
Proof.
  split; [reflexivity|]. split; [|reflexivity].
  intro ffmpeg. apply extract_nothing_below_two. simpl. lia.
Qed.

End SingleChapter.

(** ** Parsed durations *)

(** C5, as stated, fails: the second value is not 17.90. *)
Lemma parse_duration_17_90_inexact :
  ~ (exact_seconds (Overwrite.parse_duration "01:26:43.50") (520350 # 100) /\
     exact_seconds (Overwrite.parse_duration "00:17.90") (1790 # 100)).
Proof.
  intros [_ [f [v [E [V Q]]]]].
  vm_compute in E. inversion E; subst f. clear E.
  vm_compute in V. inversion V; subst v. clear V.
  vm_compute in Q. discriminate.
Qed.

(** C5, amended. ["01:26:43.50"] parses to 5203.50 exactly; ["00:17.90"]
    parses to the double nearest to 17.90, which differs from 17.90 by
    less than 2^-49. *)
Theorem parse_duration_examples :
  exact_seconds (Overwrite.parse_duration "01:26:43.50") (520350 # 100) /\
  Overwrite.parse_duration "00:17.90" = Ok seventeen_ninety /\
  seventeen_ninety = F64.of_ratio false 1790 100 /\
  exists v, F64.to_Q seventeen_ninety = Some v /\
            (v < 1790 # 100)%Q /\
            ((1790 # 100) - v < 1 # 2 ^ 49)%Q.
Proof.
  split; [|split; [|split]].
  - eexists; eexists. split; [vm_compute; reflexivity|].
    split; [vm_compute; reflexivity|]. vm_compute. reflexivity.
  - vm_compute. reflexivity.
  - vm_compute. reflexivity.
  - eexists. split; [vm_compute; reflexivity|]. split; vm_compute; reflexivity.
Qed.

(** ** Escaped titles *)

Section Escaping.
Import Overwrite.

Lemma append_assoc (a b c : string) : (a ++ b) ++ c = a ++ (b ++ c).
Proof. induction a as [|x a IH]; simpl; congruence. Qed.

Lemma append_nil_r (a : string) : a ++ "" = a.
Proof. induction a as [|x a IH]; simpl; congruence. Qed.

(** The four replacements, one after the other, act on each character of
    the title by itself: what an earlier replacement wrote is not touched
    by a later one. *)
Lemma escape_title_chars (c : ascii) (t : string) :
  escape_title (String c t) = escape_char c ++ escape_title t.
Proof.
  unfold escape_title, escape_char. simpl.
  destruct (Ascii.eqb_spec c "\"%char) as [->|N1]; [reflexivity|]. simpl.
  destruct (Ascii.eqb_spec c ";"%char) as [->|N2]; [reflexivity|]. simpl.
  destruct (Ascii.eqb_spec c LF) as [->|N3]; [reflexivity|]. simpl.
  destruct (Ascii.eqb_spec c CR) as [->|N4]; reflexivity.
Qed.

Lemma chapter_blocks_titles (chapters : list (string * F64.t)) :
  forall cur blocks, chapter_blocks cur chapters = Ok blocks ->
  map b_title blocks = map fst chapters.
Proof.
  induction chapters as [|[title d] rest IH]; intros cur blocks H; simpl in H.
  - inversion H; reflexivity.
  - destruct (to_ms cur) as [s|]; simpl in H; [|discriminate].
    destruct (to_ms (F64.add cur d)) as [e|]; simpl in H; [|discriminate].
    destruct (Dec.to_int s) as [si|]; simpl in H; [|discriminate].
    destruct (Dec.to_int e) as [ei|]; simpl in H; [|discriminate].
    destruct (chapter_blocks (F64.add cur d) rest) as [bs|] eqn:E;
      simpl in H; [|discriminate].
    inversion H; subst. simpl. f_equal. eapply IH; exact E.
Qed.

(** Backslash first: the title as written is the title with each of
    its characters escaped by itself, nothing is escaped twice. *)
Lemma escape_title_each (t : string) : escape_title t = escape_each t.
Proof.
  induction t as [|c t IH]; [reflexivity|].
  rewrite escape_title_chars, IH. reflexivity.
Qed.

(** The file written for a list of chapters has one block for each, in
    order, with the chapter's title escaped. *)
Lemma create_metadata_file_blocks (chapters : list (string * F64.t)) (text : string) :
  create_metadata_file chapters = Ok text ->
  exists blocks,
    text = ";FFMETADATA1" ++ nl ++ String.concat "" (map render_block blocks) /\
    map b_title blocks = map fst chapters.
Proof.
  unfold create_metadata_file. intro H.
  destruct (chapter_blocks F64.zero chapters) as [blocks|] eqn:E;
    cbn [bind] in H; [|discriminate].
  injection H as <-. exists blocks. split; [reflexivity|].
  eapply chapter_blocks_titles; exact E.
Qed.


End Escaping.

(** C6. The writer of the combining tool puts a title with a semicolon
    into the file as it is, where the writer of the overwriting tool
    escapes it. *)
Theorem combine_title_unescaped :
  Combine.generate_chapter_metadata
    [(Dec.of_Z 0, Some (Dec.Fin false 15 (-1)))] 6 [] (Some ["a;b"])
  = Ok (";FFMETADATA1" ++ nl ++ nl ++ "[CHAPTER]" ++ nl ++
        "TIMEBASE=1/1000" ++ nl ++ "START=0" ++ nl ++ "END=1500" ++ nl ++
        "TITLE=a;b" ++ nl)
  /\ Overwrite.create_metadata_file [("a;b", F64.of_ratio false 15 10)]
  = Ok (";FFMETADATA1" ++ nl ++ "[CHAPTER]" ++ nl ++
        "TIMEBASE=1/1000" ++ nl ++ "START=0" ++ nl ++ "END=1500" ++ nl ++
        "title=a\;b" ++ nl ++ nl).
Proof. split; vm_compute; reflexivity. Qed.

(** ** Contiguity of the timeline *)

Lemma chained_contiguous {A : Type} (origin : A) (l : list (A * A)) :
  chained origin l -> contiguous origin l.
Proof.
  revert origin; induction l as [|[s e] rest IH]; intros origin H.
  - split; intros; [discriminate|]. destruct i; discriminate.
  - destruct H as [-> H]. specialize (IH e H). destruct IH as [I0 I1]. split.
    + intros p Hp. inversion Hp; reflexivity.
    + intros [|i] a b Ha Hb; simpl in *.
      * inversion Ha; subst a. simpl. symmetry. apply I0. exact Hb.
      * eapply I1; eassumption.
Qed.

Lemma last_cons_default {A : Type} (x d : A) (l : list A) :
  last (x :: l) d = last l x.
Proof.
  revert x d; induction l as [|y l IH]; intros x d; auto.
  change (last (x :: y :: l) d) with (last (y :: l) d).
  rewrite IH. symmetry. apply IH.
Qed.

Lemma chained_app {A : Type} (cur : A) (l : list (A * A)) (e : A) :
  chained cur l -> chained cur (l ++ [(last (map snd l) cur, e)]).
Proof.
  revert cur; induction l as [|[s0 e0] rest IH]; intros cur H; simpl map.
  - simpl. auto.
  - destruct H as [-> H]. rewrite last_cons_default. simpl. split; auto.
Qed.

Section Cursor.
Import Overwrite.

(** A block starts at the cursor it was written from, rounded to
    milliseconds, and the blocks after it chain on from its end. *)
Lemma chapter_blocks_chained (chapters : list (string * F64.t)) :
  forall cur blocks start,
    chapter_blocks cur chapters = Ok blocks ->
    (chapters = [] \/ ms_of cur = Ok start) ->
    chained start (map block_span blocks).
Proof.
  induction chapters as [|[title d] rest IH]; intros cur blocks start H Hs;
    simpl in H.
  - inversion H; subst; simpl; auto.
  - destruct Hs as [Hs|Hs]; [discriminate|]. unfold ms_of in Hs.
    destruct (to_ms cur) as [s|]; simpl in *; [|discriminate].
    destruct (to_ms (F64.add cur d)) as [e|] eqn:Ee; simpl in H; [|discriminate].
    destruct (Dec.to_int s) as [si|]; simpl in H; [|discriminate].
    destruct (Dec.to_int e) as [ei|] eqn:Eei; simpl in H; [|discriminate].
    destruct (chapter_blocks (F64.add cur d) rest) as [bs|] eqn:E;
      simpl in H; [|discriminate].
    inversion H; subst blocks. inversion Hs; subst si. simpl.
    split; auto. eapply IH; [exact E|].
    right. unfold ms_of. rewrite Ee. simpl. exact Eei.
Qed.

Lemma ms_of_zero : ms_of F64.zero = Ok 0.
Proof. vm_compute. reflexivity. Qed.

End Cursor.

Section Offsets.
Import Combine.

Lemma offsets_loop_chained (outputs : list string) :
  forall previous_time acc origin offsets,
    offsets_loop previous_time outputs acc = Ok offsets ->
    chained origin acc ->
    previous_time = last (map snd acc) origin ->
    chained origin offsets.
Proof.
  induction outputs as [|out rest IH];
    intros previous_time acc origin offsets H Hc Hl; simpl in H.
  - inversion H; subst; assumption.
  - destruct (String.eqb (PyStr.strip out) ""); [eapply IH; eassumption|].
    destruct (Dec.of_string (PyStr.strip out)) as [duration|]; simpl in H;
      [|discriminate].
    destruct (Dec.add previous_time duration) as [next|]; simpl in H;
      [|discriminate].
    eapply IH; [exact H| |].
    + rewrite Hl. apply chained_app; assumption.
    + rewrite map_app. simpl. rewrite last_last. reflexivity.
Qed.

End Offsets.

(** C1. The timeline is contiguous. In the overwriting tool the blocks
    written start at 0 and each END is the next START; in the combining
    tool the offsets start at 0 and each end time is the next start time.
    This holds for every list of chapters on which the tool returns. *)
Theorem timeline_contiguous :
  (forall chapters blocks,
     Overwrite.chapter_blocks F64.zero chapters = Ok blocks ->
     contiguous 0 (map block_span blocks)) /\
  (forall outputs offsets,
     Combine.combine_offsets outputs = Ok offsets ->
     contiguous (Dec.of_Z 0) offsets).
Proof.
  split.
  - intros chapters blocks H. apply chained_contiguous.
    eapply chapter_blocks_chained; [exact H|]. right. apply ms_of_zero.
  - intros outputs offsets H. apply chained_contiguous.
    unfold Combine.combine_offsets in H.
    eapply offsets_loop_chained; [exact H| |]; simpl; auto.
Qed.

Lemma timeline_contiguous_witness :
  contiguous 0 [(0, 17900); (17900, 5221400)] /\
  contiguous (Dec.of_Z 0)
    [(Dec.of_Z 0, Dec.Fin false 1500000 (-6));
     (Dec.Fin false 1500000 (-6), Dec.Fin false 3750000 (-6))].
Proof.
  split.
  - apply (proj1 timeline_contiguous two_chapters
             [Overwrite.Block 0 17900 "Opening Credits";
              Overwrite.Block 17900 5221400 "Part One"]).
    vm_compute. reflexivity.
  - apply (proj2 timeline_contiguous ["1.500000"; ""; "2.25"]).
    vm_compute. reflexivity.
Defined.

(** ** The duration filter *)

Section Filter.
Import Extract Keys Nesting.

Lemma filtered_long (chapters : list chapter) (c : chapter) :
  In c (filtered_chapters chapters) <-> In c chapters /\ long_enough c = true.
Proof. apply filter_In. Qed.

Lemma long_not_short (c : chapter) :
  long_enough c = true -> F64.ltb (duration c) F64.one = false.
Proof. apply ltb_geb_false. Qed.

Lemma sub_not_nan (e s : F64.t) :
  F64.is_nan (F64.sub e s) = false ->
  F64.is_nan e = false /\ F64.is_nan s = false.
Proof. destruct e, s; simpl; auto; discriminate. Qed.

Lemma long_no_nan (c : chapter) : long_enough c = true -> no_nan c.
Proof.
  intro H. apply geb_fle in H. apply leb_not_nan in H.
  destruct H as [_ H]. apply sub_not_nan in H. unfold no_nan. tauto.
Qed.

End Filter.

(** ** The extractor *)

Section Processed.
Import Extract Keys Nesting.
Local Open Scope list_scope.
Variable ffmpeg : list command -> command -> bool.
Variables book_title file_prefix : string.

Local Abbreviation step := (extract_one ffmpeg book_title file_prefix).

Lemma eqb_refl_float (x : F64.t) : F64.is_nan x = false -> F64.eqb x x = true.
Proof.
  intro H. unfold F64.eqb, SFeqb.
  destruct (SFcompare_rank x x H H) as [c [-> Hc]].
  destruct c; auto; exfalso; revert Hc; lex_solve.
Qed.

Lemma eqb_rank (x y : F64.t) :
  F64.eqb x y = true ->
  F64.is_nan x = false /\ F64.is_nan y = false /\ rank x = rank y.
Proof.
  unfold F64.eqb, SFeqb. intro H.
  assert (Hx : F64.is_nan x = false) by (destruct x, y; auto; discriminate).
  assert (Hy : F64.is_nan y = false) by (destruct x, y; auto; discriminate).
  destruct (SFcompare_rank x y Hx Hy) as [c [E Hc]].
  rewrite E in H. destruct c; try discriminate. auto.
Qed.

Lemma rank_eqb (x y : F64.t) :
  F64.is_nan x = false -> F64.is_nan y = false -> rank x = rank y ->
  F64.eqb x y = true.
Proof.
  intros Hx Hy R. unfold F64.eqb, SFeqb.
  destruct (SFcompare_rank x y Hx Hy) as [c [-> Hc]].
  destruct c; auto; exfalso; rewrite R in Hc; revert Hc; lex_solve.
Qed.

Lemma eqb_trans_float (x y z : F64.t) :
  F64.eqb x y = true -> F64.eqb y z = true -> F64.eqb x z = true.
Proof.
  intros H1 H2. apply eqb_rank in H1, H2.
  destruct H1 as [Hx [_ R1]], H2 as [_ [Hz R2]].
  apply rank_eqb; auto. congruence.
Qed.

Lemma key_eqb_refl (c : chapter) :
  no_nan c -> key_eqb (key_of c) (key_of c) = true.
Proof.
  intros [Hs He]. unfold key_eqb, key_of.
  rewrite String.eqb_refl, !eqb_refl_float; auto.
Qed.

Lemma key_eqb_trans (k1 k2 k3 : key) :
  key_eqb k1 k2 = true -> key_eqb k2 k3 = true -> key_eqb k1 k3 = true.
Proof.
  destruct k1 as [[t1 s1] e1], k2 as [[t2 s2] e2], k3 as [[t3 s3] e3].
  unfold key_eqb. rewrite !andb_true_iff.
  intros [[T1 S1] E1] [[T2 S2] E2].
  apply String.eqb_eq in T1, T2. subst.
  rewrite String.eqb_refl. repeat split.
  - eapply eqb_trans_float; eassumption.
  - eapply eqb_trans_float; eassumption.
Qed.

(** The two ways a turn of the loop can go: the chapter is passed over
    and nothing changes, or it is filed and the cutter runs once. *)
Lemma step_cases (x : extractor) (c : chapter) :
  step x c = x \/
  (F64.ltb (duration c) F64.one = false /\
   existsb (key_eqb (key_of c)) (processed_chapters x) = false /\
   exists names counter cmd,
     step x c = Extractor counter names
                  (processed_chapters x ++ [key_of c]) (runs x ++ [cmd]) /\
     run_of cmd c /\
     ((names = chapter_names x /\ counter = chapter_counter x) \/
      (exists name, names = chapter_names x ++ [name] /\
                    counter = chapter_counter x + 1))).
Proof.
  unfold extract_one. fold (key_of c).
  change (F64.sub (end_time c) (start_time c)) with (duration c).
  destruct (F64.ltb (duration c) F64.one) eqn:L; auto.
  destruct (existsb (key_eqb (key_of c)) (processed_chapters x)) eqn:E; auto.
  right. split; auto. split; auto.
  destruct (ffmpeg _ _); do 3 eexists; (split; [reflexivity|]);
    (split; [unfold run_of; simpl; auto|]).
  - right. eexists; split; reflexivity.
  - left. split; reflexivity.
Qed.

(** A chapter whose key is already filed changes nothing: no run, no
    name, no step of the counter. *)
Lemma filed_skipped (x : extractor) (c : chapter) :
  existsb (key_eqb (key_of c)) (processed_chapters x) = true ->
  step x c = x.
Proof.
  intro H. destruct (step_cases x c) as [E|[_ [E _]]]; auto. congruence.
Qed.

Lemma step_keeps (x : extractor) (c : chapter) (k : key) :
  existsb (key_eqb k) (processed_chapters x) = true ->
  existsb (key_eqb k) (processed_chapters (step x c)) = true.
Proof.
  intro H.
  destruct (step_cases x c) as [E|[_ [_ [names [counter [cmd [E _]]]]]]];
    rewrite E; auto.
  simpl. rewrite existsb_app, H. reflexivity.
Qed.

Lemma fold_keeps (l : list chapter) (x : extractor) (k : key) :
  existsb (key_eqb k) (processed_chapters x) = true ->
  existsb (key_eqb k) (processed_chapters (fold_left step l x)) = true.
Proof.
  revert x; induction l as [|c l IH]; intros x H; simpl; auto.
  apply IH. apply step_keeps. assumption.
Qed.

(** A chapter of at least one second is filed once the loop has passed it. *)
Lemma step_files (x : extractor) (c : chapter) :
  long_enough c = true ->
  existsb (key_eqb (key_of c)) (processed_chapters (step x c)) = true.
Proof.
  intro L.
  destruct (existsb (key_eqb (key_of c)) (processed_chapters x)) eqn:F.
  - apply step_keeps; assumption.
  - unfold extract_one. fold (key_of c).
    change (F64.sub (end_time c) (start_time c)) with (duration c).
    rewrite (long_not_short _ L), F.
    destruct (ffmpeg _ _); cbn [processed_chapters];
      rewrite existsb_app; cbn [existsb];
      rewrite (key_eqb_refl (long_no_nan _ L)); rewrite orb_true_r; reflexivity.
Qed.

Lemma fold_files (l : list chapter) (x : extractor) (c : chapter) :
  In c l -> long_enough c = true ->
  existsb (key_eqb (key_of c)) (processed_chapters (fold_left step l x)) = true.
Proof.
  revert x; induction l as [|d l IH]; intros x I L; simpl; [contradiction|].
  destruct I as [->|I]; auto.
  apply fold_keeps. apply step_files. assumption.
Qed.

Lemma ext_inv_fresh : ext_inv (Extractor 1 [] [] []).
Proof. constructor; simpl; auto; constructor. Qed.

Lemma Forall2_snoc {A B} (R : A -> B -> Prop) (l : list A) (l' : list B) a b :
  Forall2 R l l' -> R a b -> Forall2 R (l ++ [a]) (l' ++ [b]).
Proof. intros H1 H2. apply Forall2_app; auto. Qed.

Lemma ext_inv_step (x : extractor) (c : chapter) :
  ext_inv x -> ext_inv (step x c).
Proof.
  intros [D R N C].
  destruct (step_cases x c)
    as [E|[_ [F [names [counter [cmd [E [Rc Hn]]]]]]]]; rewrite E;
    [constructor; auto|].
  assert (D' : distinct_keys (processed_chapters x ++ [key_of c])).
  { apply ForallOrdPairs_snoc; auto.
    apply Forall_forall. intros k Hk.
    destruct (key_eqb (key_of c) k) eqn:K; auto.
    assert (existsb (key_eqb (key_of c)) (processed_chapters x) = true)
      by (apply existsb_exists; eauto).
    congruence. }
  assert (R' : Forall2 run_of_key (runs x ++ [cmd]) (processed_chapters x ++ [key_of c])).
  { apply Forall2_snoc; auto. }
  constructor; cbn [chapter_counter chapter_names processed_chapters runs]; auto.
  - destruct Hn as [[-> _]|[name [-> _]]]; rewrite ?length_app; simpl; lia.
  - destruct Hn as [[-> ->]|[name [-> ->]]]; rewrite ?length_app;
      cbn [List.length]; lia.
Qed.

Lemma ext_inv_fold (l : list chapter) (x : extractor) :
  ext_inv x -> ext_inv (fold_left step l x).
Proof.
  revert x; induction l as [|c l IH]; intros x H; simpl; auto.
  apply IH, ext_inv_step, H.
Qed.

(** Every run cuts a chapter of the list that lasts a second or more. *)
Lemma step_runs (chapters : list chapter) (x : extractor) (c : chapter) :
  In c chapters ->
  Forall (fun cmd => exists d, In d chapters /\ run_of cmd d /\
                               F64.ltb (duration d) F64.one = false) (runs x) ->
  Forall (fun cmd => exists d, In d chapters /\ run_of cmd d /\
                               F64.ltb (duration d) F64.one = false)
         (runs (step x c)).
Proof.
  intros I H.
  destruct (step_cases x c)
    as [E|[L [_ [names [counter [cmd [E [Rc _]]]]]]]]; rewrite E; auto.
  simpl. apply Forall_app; split; auto.
  constructor; auto. exists c. auto.
Qed.

Lemma fold_runs (chapters l : list chapter) (x : extractor) :
  (forall c, In c l -> In c chapters) ->
  Forall (fun cmd => exists d, In d chapters /\ run_of cmd d /\
                               F64.ltb (duration d) F64.one = false) (runs x) ->
  Forall (fun cmd => exists d, In d chapters /\ run_of cmd d /\
                               F64.ltb (duration d) F64.one = false)
         (runs (fold_left step l x)).
Proof.
  revert x; induction l as [|c l IH]; intros x Sub H; simpl; auto.
  apply IH; [intros; apply Sub; simpl; auto|].
  apply step_runs; auto. apply Sub; simpl; auto.
Qed.

End Processed.

Section OnePerKey.
Import Extract Keys Nesting.
Local Open Scope list_scope.

(** C10. Whatever the cutter answers, the keys filed by the extractor are
    pairwise different under [==], every run of the cutter belongs to one
    filed key, no more names are returned than runs were made, and the
    counter is one more than the number of names. A chapter that equals an
    earlier one of the filtered list in title, start and end leaves the
    extractor as it was: no run, no name, the counter unchanged. *)
Theorem one_output_per_key (ffmpeg : list command -> command -> bool)
    (book_title file_prefix : string) (chapters : list chapter) :
  let step := extract_one ffmpeg book_title file_prefix in
  let x := run_extractor ffmpeg book_title file_prefix chapters in
  distinct_keys (processed_chapters x) /\
  Forall2 run_of_key (runs x) (processed_chapters x) /\
  (List.length (chapter_names x) <= List.length (runs x))%nat /\
  chapter_counter x = 1 + Z.of_nat (List.length (chapter_names x)) /\
  (forall pre c post,
     filtered_chapters chapters = pre ++ c :: post ->
     (exists c', In c' pre /\ key_eqb (key_of c) (key_of c') = true) ->
     fold_left step (pre ++ [c]) (Extractor 1 [] [] [])
     = fold_left step pre (Extractor 1 [] [] [])).
Proof.
  intros step x.
  assert (I : ext_inv x).
  { unfold x, run_extractor. destruct chapters as [|c0 l]; [apply ext_inv_fresh|].
    destruct (_ <=? 1)%nat; [apply ext_inv_fresh|].
    apply ext_inv_fold, ext_inv_fresh. }
  destruct I as [D R N C]. repeat (split; auto).
  intros pre c post E [c' [I K]].
  rewrite fold_left_app. simpl. apply filed_skipped.
  assert (L : long_enough c' = true).
  { apply (filtered_long chapters). rewrite E. apply in_or_app; auto. }
  assert (F := @fold_files ffmpeg book_title file_prefix pre
                 (Extractor 1 [] [] []) c' I L).
  apply existsb_exists in F. destruct F as [k [Hk Ek]].
  apply existsb_exists. exists k. split; auto.
  eapply key_eqb_trans; eassumption.
Qed.

Lemma one_output_per_key_witness :
  let step := extract_one (fun _ _ => true) "Book" "0" in
  fold_left step ([Samples.span 0 10; Samples.span 1 4] ++ [Samples.span 1 4])
    (Extractor 1 [] [] [])
  = fold_left step [Samples.span 0 10; Samples.span 1 4] (Extractor 1 [] [] []).
Proof.
  apply (one_output_per_key (fun _ _ => true) "Book" "0"
           [Samples.span 0 10; Samples.span 1 4; Samples.span 1 4; Samples.span 5 9])
    with (post := [Samples.span 5 9]).
  - vm_compute. reflexivity.
  - exists (Samples.span 1 4). split; [simpl; auto|vm_compute; reflexivity].
Defined.

End OnePerKey.

(** ** What the filter keeps out *)

Section Absent.
Import Extract Keys Nesting.
Local Open Scope list_scope.

Lemma ChapterNode_rect_list (Q : ChapterNode -> Prop) :
  (forall t s e subs0, Forall Q subs0 -> Q (Node t s e subs0)) ->
  forall n, Q n.
Proof.
  intro H. fix IH 1. intros [t s e subs0]. apply H.
  induction subs0 as [|c l IHl]; constructor; auto.
Qed.

(** Every chapter line of the listing shows a node of the trees. *)
Lemma display_node_all (P : string -> F64.t -> F64.t -> Prop) (n : ChapterNode) :
  forall level, tree_all P n ->
  Forall (fun l => match l with
                   | ChapterLine _ t s d => exists e, P t s e /\ d = F64.sub e s
                   | _ => True
                   end) (display_node level n).
Proof.
  induction n as [t s e subs0 IH] using ChapterNode_rect_list.
  intros level H. apply tree_all_unfold in H. destruct H as [H0 Hs].
  simpl. constructor; [eauto|].
  revert Hs. induction IH as [|c l Hc Hl IHl]; intro Hs; simpl; auto.
  inversion Hs; subst. apply Forall_app. split; auto.
Qed.

Lemma runs_from_filter (ffmpeg : list command -> command -> bool)
    (input_exists : bool) (title_tag : option string) (file_prefix : string)
    (chapters : list chapter) :
  Forall (fun cmd => exists d, In d (filtered_chapters chapters) /\ run_of cmd d /\
                               F64.ltb (duration d) F64.one = false)
    (runs (extract_chapters ffmpeg input_exists title_tag file_prefix chapters)).
Proof.
  unfold extract_chapters.
  destruct input_exists; simpl; auto.
  destruct (_ <=? 1)%nat; simpl; auto.
  unfold run_extractor. destruct chapters as [|c l]; simpl; auto.
  destruct (_ <=? 1)%nat; simpl; auto.
  apply fold_runs; auto.
Qed.

Lemma lines_from_filter (tags : Combine.tags) (chapters : list chapter) :
  (Combine.lookup "format" tags = None ->
   exists lines, display_chapters tags chapters = Some (Printed lines)) /\
  (forall lines,
     display_chapters tags chapters = Some (Printed lines) ->
     Forall (fun l => match l with
                      | ChapterLine _ t s d =>
                          exists c, In c (filtered_chapters chapters) /\
                                    line_of l c
                      | _ => True
                      end) lines).
Proof.
  unfold display_chapters.
  destruct chapters as [|c0 l0].
  { split; [eauto|]. intros lines H. inversion H. constructor. }
  set (chapters := c0 :: l0). clearbody chapters.
  destruct (filtered_chapters chapters) as [|f fs] eqn:E.
  { split; [eauto|]. intros lines H. inversion H. constructor. }
  rewrite <- E.
  destruct (@build_total (filtered_chapters chapters)
              (fun t s e => exists c, In c (filtered_chapters chapters) /\
                 t = title_of c /\ s = start_time c /\ e = end_time c))
    as [trees [Et Pt]].
  { intros c Hc. exists c. auto. }
  rewrite Et. cbn [option_map].
  destruct (Combine.lookup "format" tags) as [v|].
  { split; [discriminate|]. intros lines H. discriminate. }
  split; [eauto|]. intros lines H. inversion H; subst. clear H.
  constructor; [exact I|]. constructor; [exact I|].
  unfold display_chapter_hierarchy. clear Et.
  induction Pt as [|n ns Hn Hns IH]; simpl; [constructor|].
  apply Forall_app; split; [|exact IH].
  eapply Forall_impl; [|apply (@display_node_all _ n 0%nat Hn)].
  intros [| |level t s d]; auto.
  intros [e [[c [Hc [-> [-> ->]]]] ->]]. exists c. split; [exact Hc|].
  unfold line_of, duration. auto.
Qed.

(** C9. A chapter shorter than one second is not in the filtered list, no
    run of the cutter is made for it, and the listing, which is produced
    for every file without a tag named [format], has no line for it. *)
Theorem short_chapters_absent (chapters : list chapter) (c : chapter) :
  F64.ltb (duration c) F64.one = true ->
  ~ In c (filtered_chapters chapters) /\
  (forall ffmpeg input_exists title_tag file_prefix cmd,
     In cmd (runs (extract_chapters ffmpeg input_exists title_tag file_prefix
                     chapters)) ->
     ~ run_of cmd c) /\
  (forall tags,
     (Combine.lookup "format" tags = None ->
      exists lines, display_chapters tags chapters = Some (Printed lines)) /\
     (forall lines,
        display_chapters tags chapters = Some (Printed lines) ->
        forall l, In l lines -> ~ line_of l c)).
Proof.
  intro Short. split; [|split].
  - intro I. apply filtered_long in I. destruct I as [_ L].
    apply long_not_short in L. congruence.
  - intros ffmpeg input_exists title_tag file_prefix cmd I [_ [_ T]].
    assert (F := runs_from_filter ffmpeg input_exists title_tag file_prefix chapters).
    rewrite Forall_forall in F. destruct (F cmd I) as [d [_ [[_ [_ T']] L]]].
    congruence.
  - intro tags.
    destruct (lines_from_filter tags chapters) as [T F0].
    split; [exact T|]. intros lines E l I Hl.
    assert (F := F0 lines E).
    rewrite Forall_forall in F. specialize (F l I).
    destruct l as [| |level t s d]; simpl in Hl; auto.
    destruct F as [d' [I' [_ [_ D']]]]. destruct Hl as [_ [_ D]].
    apply filtered_long in I'. destruct I' as [_ L].
    apply long_not_short in L. congruence.
Qed.

Lemma short_chapters_absent_witness :
  ~ In short_marker
      (filtered_chapters [Samples.span 0 10; short_marker; Samples.span 10 20]).
Proof.
  apply (short_chapters_absent
           [Samples.span 0 10; short_marker; Samples.span 10 20] short_marker).
  vm_compute. reflexivity.
Defined.

(** The marker from 2.0 to 2.5 is dropped by the filter. *)
Lemma short_marker_dropped :
  filtered_chapters [Samples.span 0 10; short_marker; Samples.span 10 20]
  = [Samples.span 0 10; Samples.span 10 20].
Proof. vm_compute. reflexivity. Qed.

End Absent.

(** ** The line pattern *)

Section Pattern.
Import Overwrite Tokens.

Lemma digits_dollar_digits (s d : string) :
  digits_dollar s = Some d -> d <> EmptyString /\ PyStr.all_digits d = true.
Proof.
  revert d; induction s as [|c r IH]; intros d H; simpl in H; [discriminate|].
  destruct (PyStr.is_digit c) eqn:Dc; [|discriminate].
  destruct (digits_dollar r) as [d'|].
  - inversion H; subst. destruct (IH d' eq_refl) as [_ A].
    split; [discriminate|]. simpl. rewrite Dc, A. reflexivity.
  - destruct (at_dollar r); inversion H; subst.
    split; [discriminate|]. simpl. rewrite Dc. reflexivity.
Qed.

Lemma frac_dollar_fraction (s f : string) :
  frac_dollar s = Some f -> fraction f.
Proof.
  unfold frac_dollar. intro H.
  assert (K : forall m, match s with
                        | String "." r => option_map (String ".") (digits_dollar r)
                        | _ => None
                        end = Some m -> fraction m).
  { intros m Hm. destruct s as [|c r]; [discriminate|].
    destruct (Ascii.eqb_spec c ".") as [->|N].
    - destruct (digits_dollar r) as [d|] eqn:E; [|discriminate].
      inversion Hm; subst. apply digits_dollar_digits in E.
      constructor; tauto.
    - exfalso. revert Hm.
      destruct c as [[] [] [] [] [] [] [] []]; try discriminate.
      contradiction N; reflexivity. }
  destruct (match s with
            | String "." r => option_map (String ".") (digits_dollar r)
            | _ => None
            end) as [m|].
  - inversion H; subst. apply K. reflexivity.
  - destruct (at_dollar s); inversion H. constructor.
Qed.

(** What [colon_two] takes: a colon, two digits and what [k] takes. *)
Lemma colon_two_inv (k : string -> option string) (s m : string) :
  colon_two k s = Some m ->
  exists a b r m', s = String ":" (String a (String b r)) /\
    PyStr.is_digit a = true /\ PyStr.is_digit b = true /\
    k r = Some m' /\ m = String ":" (String a (String b m')).
Proof.
  unfold colon_two. intro H.
  destruct s as [|c [|a [|b r]]]; try discriminate;
    try (destruct c as [[] [] [] [] [] [] [] []]; discriminate).
  destruct (Ascii.eqb_spec c ":") as [->|N].
  - destruct (PyStr.is_digit a) eqn:Da; [|discriminate].
    destruct (PyStr.is_digit b) eqn:Db; [|discriminate].
    simpl in H. destruct (k r) as [m'|] eqn:E; [|discriminate].
    inversion H; subst. exists a, b, r, m'. auto.
  - exfalso. revert H.
    destruct c as [[] [] [] [] [] [] [] []]; try discriminate.
    contradiction N; reflexivity.
Qed.

(** After the leading digits and the colon: two digits and a fraction,
    with or without two more digits between them. *)
Lemma sec_tail (s m : string) :
  colon_two sec_dollar s = Some m ->
  exists mm rest, m = String ":" mm ++ rest /\ two_digits mm /\
    (fraction rest \/
     exists ss f, rest = String ":" ss ++ f /\ two_digits ss /\ fraction f).
Proof.
  intro H. apply colon_two_inv in H.
  destruct H as [a [b [r [m' [-> [Da [Db [K ->]]]]]]]].
  exists (String a (String b "")), m'. split; [reflexivity|].
  split; [exists a, b; auto|].
  unfold sec_dollar in K.
  destruct (colon_two frac_dollar r) as [m2|] eqn:E.
  - inversion K; subst. apply colon_two_inv in E.
    destruct E as [a2 [b2 [r2 [f [-> [Da2 [Db2 [F ->]]]]]]]].
    right. exists (String a2 (String b2 "")), f.
    split; [reflexivity|]. split; [exists a2, b2; auto|].
    eapply frac_dollar_fraction; exact F.
  - left. eapply frac_dollar_fraction; exact K.
Qed.

Lemma token_of_tail (h m : string) :
  lead_digits h ->
  (exists mm rest, m = String ":" mm ++ rest /\ two_digits mm /\
    (fraction rest \/
     exists ss f, rest = String ":" ss ++ f /\ two_digits ss /\ fraction f)) ->
  duration_token (h ++ m).
Proof.
  intros Hh [mm [rest [-> [Hm [F|[ss [f [-> [Hs F]]]]]]]]].
  - exact (token_ms Hh Hm F).
  - exact (token_hms Hh Hm Hs F).
Qed.

Lemma duration_dollar_token (s d : string) :
  duration_dollar s = Some d -> duration_token d.
Proof.
  unfold duration_dollar. intro H.
  destruct s as [|a r]; [discriminate|].
  destruct (PyStr.is_digit a) eqn:Da; [|discriminate].
  assert (Two : forall b r' m, PyStr.is_digit b = true ->
            colon_two sec_dollar r' = Some m ->
            duration_token (String a (String b m))).
  { intros b r' m Db Hm.
    apply (@token_of_tail (String a (String b "")) m).
    - right. exists a, b. auto.
    - apply sec_tail with (s := r'). exact Hm. }
  assert (One : forall m, colon_two sec_dollar r = Some m ->
            duration_token (String a m)).
  { intros m Hm. apply (@token_of_tail (String a "") m).
    - left. exists a. auto.
    - apply sec_tail with (s := r). exact Hm. }
  destruct r as [|b r'].
  - cbn in H. discriminate.
  - destruct (PyStr.is_digit b) eqn:Db.
    + destruct (colon_two sec_dollar r') as [m|] eqn:E; cbn [option_map] in H.
      * inversion H; subst. eapply Two; eauto.
      * destruct (colon_two sec_dollar (String b r')) as [m|] eqn:E2;
          cbn [option_map] in H; [|discriminate].
        inversion H; subst. apply One. reflexivity.
    + destruct (colon_two sec_dollar (String b r')) as [m|] eqn:E2;
        cbn [option_map] in H; [|discriminate].
      inversion H; subst. apply One. reflexivity.
Qed.

Lemma spaces_duration_token (s d : string) :
  spaces_duration s = Some d -> duration_token d.
Proof.
  revert d; induction s as [|c r IH]; intros d H; simpl in H; [discriminate|].
  destruct (PyStr.is_space c); [|discriminate].
  destruct (spaces_duration r) as [d'|].
  - inversion H; subst. apply IH. reflexivity.
  - eapply duration_dollar_token; exact H.
Qed.

(** The second group of a match is an unsigned duration token. *)
Lemma line_match_token (line title d : string) :
  line_match line = Some (title, d) -> duration_token d.
Proof.
  revert title d; induction line as [|c r IH]; intros title d H; simpl in H.
  - discriminate.
  - destruct (PyStr.is_space c) eqn:Sc.
    + destruct (match spaces_duration r with
                | Some d0 => Some d0
                | None => duration_dollar r
                end) as [d0|] eqn:E.
      * inversion H; subst.
        apply (@spaces_duration_token (String c r)). simpl. rewrite Sc. exact E.
      * destruct (Ascii.eqb c LF); [discriminate|].
        destruct (line_match r) as [[t0 d0]|] eqn:E2; simpl in H; [|discriminate].
        inversion H; subst. eapply IH; reflexivity.
    + destruct (Ascii.eqb c LF); [discriminate|].
      destruct (line_match r) as [[t0 d0]|] eqn:E2; simpl in H; [|discriminate].
      inversion H; subst. eapply IH; reflexivity.
Qed.

End Pattern.

(** ** Signs survive rounding *)

Section Signs.

Lemma shr_1_nonneg (mrs : shr_record) : 0 <= shr_m mrs -> 0 <= shr_m (shr_1 mrs).
Proof.
  destruct mrs as [m r s]. simpl.
  destruct m as [|p|p]; simpl; intro H; try lia.
  - destruct p; simpl; lia.
Qed.

Lemma iter_shr_1_nonneg (p : positive) (mrs : shr_record) :
  0 <= shr_m mrs -> 0 <= shr_m (iter_pos shr_1 p mrs).
Proof.
  revert mrs; induction p as [p IH|p IH|]; intros mrs H; simpl.
  - apply IH, IH, shr_1_nonneg, H.
  - apply IH, IH, H.
  - apply shr_1_nonneg, H.
Qed.

Lemma shr_fexp_nonneg (prec emax m e : Z) (l : location) :
  0 <= m -> 0 <= shr_m (fst (shr_fexp prec emax m e l)).
Proof.
  intro H. unfold shr_fexp, shr.
  assert (K : 0 <= shr_m (shr_record_of_loc m l))
    by (destruct l as [|[]]; simpl; exact H).
  destruct (fexp prec emax (Zdigits2 m + e) - e); simpl; auto.
  apply iter_shr_1_nonneg, K.
Qed.

Lemma round_nearest_even_nonneg (m : Z) (l : location) :
  0 <= m -> 0 <= round_nearest_even m l.
Proof.
  intro H. destruct l as [|[]]; simpl; try lia.
  destruct (Z.even m); lia.
Qed.

(** Rounding keeps the sign it is given and never makes a NaN of a
    mantissa that is not negative. *)
Lemma binary_round_aux_sign (prec emax : Z) (s : bool) (m e : Z) (l : location) :
  0 <= m ->
  match binary_round_aux prec emax s m e l with
  | S754_zero s' | S754_infinity s' | S754_finite s' _ _ => s' = s
  | S754_nan => False
  end.
Proof.
  intro H. unfold binary_round_aux.
  assert (K1 := shr_fexp_nonneg prec emax e l H).
  destruct (shr_fexp prec emax m e l) as [mrs' e'].
  simpl in K1.
  assert (K2 := shr_fexp_nonneg prec emax e' loc_Exact
                  (round_nearest_even_nonneg (loc_of_shr_record mrs') K1)).
  destruct (shr_fexp prec emax
              (round_nearest_even (shr_m mrs') (loc_of_shr_record mrs')) e'
              loc_Exact) as [mrs'' e''].
  simpl in K2.
  destruct (shr_m mrs'') as [|p|p]; auto; try lia.
  destruct (e'' <=? emax - prec); reflexivity.
Qed.

Lemma of_ratio_sign (s : bool) (n d : positive) :
  match F64.of_ratio s n d with
  | S754_zero s' | S754_infinity s' | S754_finite s' _ _ => s' = s
  | S754_nan => False
  end.
Proof.
  unfold F64.of_ratio, SFdiv_core_binary.
  set (e' := Z.min _ _). set (m' := match _ - e' with Z.pos _ => _ | _ => _ end).
  assert (Hm : 0 <= m').
  { unfold m'. destruct (0 - 0 - e'); try lia. apply Z.shiftl_nonneg. lia. }
  assert (Hq : 0 <= m' / Z.pos d) by (apply Z.div_pos; lia).
  unfold Z.div in Hq.
  destruct (Z.div_eucl m' (Z.pos d)) as [q r]. simpl in Hq.
  apply binary_round_aux_sign. exact Hq.
Qed.

Lemma of_ratio_nonneg (n d : positive) :
  F64.is_nonneg (F64.of_ratio false n d) = true.
Proof.
  assert (H := of_ratio_sign false n d).
  destruct (F64.of_ratio false n d); simpl; try (rewrite H); auto.
Qed.

End Signs.

(** ** Decimal sums that cannot overflow *)

Section DecimalBounds.

Lemma round_half_even_nonneg (n d : Z) :
  0 <= n -> 0 < d -> 0 <= round_half_even n d.
Proof.
  intros Hn Hd. unfold round_half_even.
  assert (0 <= n / d) by (apply Z.div_pos; lia).
  destruct (2 * (n mod d) ?= d); try lia.
  destruct (Z.even (n / d)); lia.
Qed.

Lemma ndigits_aux_le (fuel : nat) :
  forall x k, 0 <= x < 10 ^ k -> 1 <= k -> Dec.ndigits_aux fuel x <= k.
Proof.
  induction fuel as [|f IH]; intros x k Hx Hk; cbn [Dec.ndigits_aux]; [lia|].
  destruct (Z.ltb_spec x 10); [lia|].
  assert (2 <= k).
  { destruct (Z.eq_dec k 1) as [->|]; [|lia].
    change (10 ^ 1) with 10 in Hx. lia. }
  assert (Dec.ndigits_aux f (x / 10) <= k - 1); [|lia].
  apply IH; [|lia]. split; [apply Z.div_pos; lia|].
  apply Z.div_lt_upper_bound; [lia|].
  replace k with (1 + (k - 1)) in Hx by lia.
  rewrite Z.pow_add_r in Hx by lia. change (10 ^ 1) with 10 in Hx. lia.
Qed.

Lemma ndigits_le (x k : Z) :
  0 <= x < 10 ^ k -> 1 <= k -> Dec.ndigits x <= k.
Proof. apply ndigits_aux_le. Qed.

(** A finite value well below the largest exponent is rounded without
    an overflow, and keeps its sign. *)
Lemma fix_ok (s : bool) (c e : Z) :
  0 <= c -> Dec.ndigits c + e <= 999999 ->
  exists c' e', Dec.fix_ s c e = Ok (Dec.Fin s c' e') /\ 0 <= c'.
Proof.
  intros Hc Hd. unfold Dec.fix_.
  destruct (c =? 0); [eexists; eexists; split; [reflexivity|lia]|].
  change Dec.Etop with 999972. change Dec.Etiny with (-1000026).
  change Dec.prec with 28.
  destruct (Z.gtb_spec (Dec.ndigits c + e - 28) 999972); [lia|].
  set (exp_min := Z.max (Dec.ndigits c + e - 28) (-1000026)).
  destruct (e <? exp_min) eqn:E.
  - apply Z.ltb_lt in E.
    assert (Q : 0 <= round_half_even c (10 ^ (exp_min - e)))
      by (apply round_half_even_nonneg; [lia|apply Z.pow_pos_nonneg; lia]).
    destruct (Dec.ndigits (round_half_even c (10 ^ (exp_min - e))) >? 28).
    + destruct (Z.gtb_spec (exp_min + 1) 999972); [lia|].
      eexists; eexists; split; [reflexivity|]. apply Z.div_pos; lia.
    + destruct (Z.gtb_spec exp_min 999972); [lia|].
      eexists; eexists; split; [reflexivity|]. exact Q.
  - eexists; eexists; split; [reflexivity|]. exact Hc.
Qed.

(** Seconds below a hundred plus whole minutes and hours below a
    million seconds: the sum is made, and is not negative. *)
Lemma add_seconds_ok (c e n : Z) :
  0 <= c < 10 ^ (2 - e) -> e <= 0 -> 0 <= n < 10 ^ 6 ->
  exists c' e', Dec.add (Dec.Fin false c e) (Dec.of_Z n)
                = Ok (Dec.Fin false c' e') /\ 0 <= c'.
Proof.
  intros Hc He Hn. unfold Dec.of_Z, Dec.add.
  replace (n <? 0) with false by (symmetry; apply Z.ltb_ge; lia).
  rewrite Z.abs_eq by lia.
  replace (Z.min e 0) with e by lia.
  assert (P6 : 10 ^ (6 - e) = 10 ^ 6 * 10 ^ (- e))
    by (rewrite <- Z.pow_add_r by lia; f_equal; lia).
  assert (P2 : 10 ^ (2 - e) = 10 ^ 2 * 10 ^ (- e))
    by (rewrite <- Z.pow_add_r by lia; f_equal; lia).
  assert (Pp : 0 < 10 ^ (- e)) by (apply Z.pow_pos_nonneg; lia).
  destruct (Z.eqb_spec c 0) as [->|Nc]; destruct (Z.eqb_spec n 0) as [->|Nn];
    cbn [andb].
  - apply fix_ok; [lia|]. change (Dec.ndigits 0) with 1. lia.
  - unfold Dec.prec. set (ex := Z.max e (0 - 28 - 1)).
    apply fix_ok.
    + apply Z.mul_nonneg_nonneg; [lia|]. apply Z.pow_nonneg; lia.
    + assert (Dec.ndigits (n * 10 ^ (0 - ex)) <= 6 - ex); [|lia].
      apply ndigits_le; [|lia]. split.
      * apply Z.mul_nonneg_nonneg; [lia|]. apply Z.pow_nonneg; lia.
      * replace (6 - ex) with (6 + (0 - ex)) by lia.
        rewrite Z.pow_add_r by lia.
        apply Z.mul_lt_mono_pos_r; [apply Z.pow_pos_nonneg; lia|lia].
  - replace (Z.max e (e - Dec.prec - 1)) with e by (unfold Dec.prec; lia).
    rewrite Z.sub_diag, Z.pow_0_r, Z.mul_1_r.
    apply fix_ok; [lia|].
    assert (Dec.ndigits c <= 2 - e); [|lia].
    apply ndigits_le; lia.
  - rewrite Z.sub_diag, Z.pow_0_r, Z.mul_1_r. cbn [Dec.signed].
    replace (0 - e) with (- e) by lia.
    replace (c + n * 10 ^ (- e) <? 0) with false
      by (symmetry; apply Z.ltb_ge; nia).
    rewrite Z.abs_eq by nia.
    apply fix_ok; [nia|].
    assert (Dec.ndigits (c + n * 10 ^ (- e)) <= 7 - e); [|lia].
    apply ndigits_le; [|lia]. split; [nia|].
    replace (7 - e) with (1 + (6 - e)) by lia.
    rewrite Z.pow_add_r by lia. rewrite P6. nia.
Qed.

(** The float made of a finite decimal keeps the sign. *)
Lemma to_float_nonneg (c e : Z) :
  exists f, Dec.to_float (Dec.Fin false c e) = Ok f /\ F64.is_nonneg f = true.
Proof.
  unfold Dec.to_float. destruct (c =? 0); eexists; split; try reflexivity.
  apply of_ratio_nonneg.
Qed.

End DecimalBounds.

(** ** Tokens are read without error *)

Section Reading.
Import Overwrite Tokens.

(** What a digit is not. *)
Lemma digit_char (c : ascii) :
  PyStr.is_digit c = true ->
  PyStr.is_space c = false /\ Ascii.eqb c ":" = false /\
  Ascii.eqb c "_" = false /\ Ascii.eqb c "." = false /\
  (forall s, match String c s with
             | String "-" _ | String "+" _ => False
             | _ => True
             end) /\
  0 <= PyStr.digit_val c <= 9.
Proof.
  destruct c as [[] [] [] [] [] [] [] []]; intro H; try discriminate H;
    repeat split; try (intro s); try exact I; try reflexivity;
    vm_compute; discriminate.
Qed.

Lemma digits_val_acc (s : string) :
  forall acc, PyStr.digits_val acc s
              = acc * 10 ^ Z.of_nat (String.length s) + PyStr.digits_val 0 s.
Proof.
  induction s as [|c s IH]; intro acc; simpl String.length; cbn [PyStr.digits_val].
  - simpl. lia.
  - rewrite IH. rewrite (IH (10 * 0 + PyStr.digit_val c)).
    rewrite Nat2Z.inj_succ, Z.pow_succ_r by lia. lia.
Qed.

Lemma digits_val_bound (s : string) :
  PyStr.all_digits s = true ->
  0 <= PyStr.digits_val 0 s < 10 ^ Z.of_nat (String.length s).
Proof.
  induction s as [|c s IH]; intro H.
  - simpl. lia.
  - simpl in H. apply andb_true_iff in H. destruct H as [Hc Hs].
    apply digit_char in Hc. destruct Hc as [_ [_ [_ [_ [_ Hv]]]]].
    specialize (IH Hs). cbn [PyStr.digits_val]. rewrite digits_val_acc.
    simpl String.length. rewrite Nat2Z.inj_succ, Z.pow_succ_r by lia.
    assert (0 < 10 ^ Z.of_nat (String.length s)) by (apply Z.pow_pos_nonneg; lia).
    nia.
Qed.

Lemma str_all_app (p : ascii -> bool) (a b : string) :
  str_all_prop p (a ++ b) <-> str_all_prop p a /\ str_all_prop p b.
Proof. induction a as [|c a IH]; simpl; tauto. Qed.

Lemma str_all_impl (p q : ascii -> bool) (s : string) :
  (forall c, p c = true -> q c = true) -> str_all_prop p s -> str_all_prop q s.
Proof. intro H. induction s as [|c s IH]; simpl; intuition. Qed.

Lemma all_digits_str_all (s : string) :
  PyStr.all_digits s = true <-> str_all_prop PyStr.is_digit s.
Proof.
  induction s as [|c s IH]; simpl; [tauto|].
  rewrite andb_true_iff, IH. tauto.
Qed.

Lemma rstrip_clean (s : string) : str_all_prop not_space s -> PyStr.rstrip s = s.
Proof.
  induction s as [|c s IH]; simpl; auto.
  intros [Hc Hs]. rewrite (IH Hs). unfold not_space in Hc.
  destruct s; [|reflexivity].
  destruct (PyStr.is_space c); [discriminate|reflexivity].
Qed.

Lemma strip_clean (s : string) : str_all_prop not_space s -> PyStr.strip s = s.
Proof.
  intro H. unfold PyStr.strip.
  assert (L : PyStr.lstrip s = s).
  { destruct s as [|c s]; auto. simpl in *. destruct H as [Hc _].
    unfold not_space in Hc. destruct (PyStr.is_space c); [discriminate|reflexivity]. }
  rewrite L. apply rstrip_clean, H.
Qed.

Lemma int_space_space (c : ascii) :
  int_space c = true -> PyStr.is_space c = true.
Proof.
  destruct c as [[] [] [] [] [] [] [] []]; intro H; try discriminate H;
    reflexivity.
Qed.

Lemma not_space_int (c : ascii) : not_space c = true -> int_space c = false.
Proof.
  unfold not_space. intro H. apply negb_true_iff in H.
  destruct (int_space c) eqn:E; [|reflexivity].
  apply int_space_space in E. congruence.
Qed.

Lemma int_rstrip_clean (s : string) :
  str_all_prop not_space s -> int_rstrip s = s.
Proof.
  induction s as [|c s IH]; simpl; auto.
  intros [Hc Hs]. rewrite (IH Hs).
  destruct s; [|reflexivity].
  rewrite (not_space_int _ Hc). reflexivity.
Qed.

(** [int()] leaves text without whitespace as it is. *)
Lemma int_strip_clean (s : string) :
  str_all_prop not_space s -> int_rstrip (int_lstrip s) = s.
Proof.
  intro H.
  assert (L : int_lstrip s = s).
  { destruct s as [|c s]; auto. simpl in *. destruct H as [Hc _].
    rewrite (not_space_int _ Hc). reflexivity. }
  rewrite L. apply int_rstrip_clean, H.
Qed.

Lemma remove_clean (s : string) :
  str_all_prop not_underscore s -> PyStr.remove "_" s = s.
Proof.
  induction s as [|c s IH]; simpl; auto.
  intros [Hc Hs]. unfold not_underscore in Hc.
  destruct (Ascii.eqb c "_"); [discriminate|]. rewrite (IH Hs). reflexivity.
Qed.

Lemma split_clean (s : string) :
  str_all_prop not_colon s -> PyStr.split ":" s = [s].
Proof.
  induction s as [|c s IH]; simpl; auto.
  intros [Hc Hs]. unfold not_colon in Hc.
  destruct (Ascii.eqb c ":"); [discriminate|]. rewrite (IH Hs). reflexivity.
Qed.

Lemma split_at_colon (a b : string) :
  str_all_prop not_colon a ->
  PyStr.split ":" (a ++ String ":" b) = a :: PyStr.split ":" b.
Proof.
  induction a as [|c a IH]; simpl; auto.
  intros [Hc Ha]. unfold not_colon in Hc.
  destruct (Ascii.eqb c ":"); [discriminate|]. rewrite (IH Ha). reflexivity.
Qed.

Lemma digit_not_space (c : ascii) : PyStr.is_digit c = true -> not_space c = true.
Proof. intro H. apply digit_char in H. unfold not_space. destruct H as [-> _]. reflexivity. Qed.

Lemma digit_not_colon (c : ascii) : PyStr.is_digit c = true -> not_colon c = true.
Proof. intro H. apply digit_char in H. unfold not_colon. destruct H as [_ [-> _]]. reflexivity. Qed.

Lemma digit_not_underscore (c : ascii) :
  PyStr.is_digit c = true -> not_underscore c = true.
Proof.
  intro H. apply digit_char in H. unfold not_underscore.
  destruct H as [_ [_ [-> _]]]. reflexivity.
Qed.

Lemma int_body_digits (s : string) :
  PyStr.all_digits s = true -> int_body true s = true.
Proof.
  induction s as [|c s IH]; simpl; auto.
  intro H. apply andb_true_iff in H. destruct H as [Hc Hs].
  rewrite Hc. auto.
Qed.

(** [int()] reads a run of digits as its value in base ten. *)
Lemma py_int_digits (s : string) :
  PyStr.all_digits s = true -> s <> EmptyString ->
  py_int s = Ok (PyStr.digits_val 0 s) /\ 0 <= PyStr.digits_val 0 s.
Proof.
  intros H N. split; [|apply digits_val_bound, H].
  assert (A := proj1 (all_digits_str_all s) H).
  unfold py_int.
  rewrite int_strip_clean by (eapply str_all_impl; [apply digit_not_space|exact A]).
  destruct s as [|c r]; [contradiction|].
  simpl in H. apply andb_true_iff in H. destruct H as [Hc Hr].
  assert (B : int_body false (String c r) = true)
    by (simpl; rewrite Hc; apply int_body_digits, Hr).
  assert (R : PyStr.remove "_" (String c r) = String c r)
    by (apply remove_clean; eapply str_all_impl;
        [apply digit_not_underscore|exact A]).
  destruct c as [[] [] [] [] [] [] [] []]; try discriminate Hc;
    rewrite B, R; reflexivity.
Qed.

Lemma span_digits_all (s : string) :
  PyStr.all_digits s = true -> Dec.span_digits s = (s, EmptyString).
Proof.
  induction s as [|c s IH]; simpl; auto.
  intro H. apply andb_true_iff in H. destruct H as [Hc Hs].
  rewrite Hc, (IH Hs). reflexivity.
Qed.

Lemma span_digits_point (a s : string) :
  PyStr.all_digits a = true ->
  Dec.span_digits (a ++ String "." s) = (a, String "." s).
Proof.
  induction a as [|c a IH]; simpl; auto.
  intro H. apply andb_true_iff in H. destruct H as [Hc Ha].
  rewrite Hc, (IH Ha). reflexivity.
Qed.

Lemma length_append (a b : string) :
  String.length (a ++ b) = (String.length a + String.length b)%nat.
Proof. induction a as [|c a IH]; simpl; auto. Qed.

(** [Decimal()] reads two digits and an optional fraction as a value
    that is not negative and below one hundred. *)
Lemma of_string_seconds (s f : string) :
  two_digits s -> fraction f ->
  exists c e, Dec.of_string (s ++ f) = Ok (Dec.Fin false c e) /\
              e <= 0 /\ 0 <= c < 10 ^ (2 - e).
Proof.
  intros [a [b [-> [Da Db]]]] F.
  assert (Ds : PyStr.all_digits (String a (String b "")) = true)
    by (simpl; rewrite Da, Db; reflexivity).
  assert (Clean : forall p, (forall c, PyStr.is_digit c = true -> p c = true) ->
            p "."%char = true ->
            str_all_prop p (String a (String b "") ++ f)).
  { intros p Hp Hd. apply str_all_app. split.
    - simpl. auto.
    - destruct F as [|ds N D]; simpl; auto. split; auto.
      eapply str_all_impl; [exact Hp|]. apply all_digits_str_all, D. }
  unfold Dec.of_string.
  rewrite strip_clean by (apply Clean; [apply digit_not_space|reflexivity]).
  rewrite remove_clean by (apply Clean; [apply digit_not_underscore|reflexivity]).
  assert (Body : exists c e,
            Dec.read_number false (String a (String b "") ++ f)
              = Some (Dec.Fin false c e) /\ e <= 0 /\ 0 <= c < 10 ^ (2 - e)).
  { unfold Dec.read_number. destruct F as [|ds N D].
    - rewrite append_nil_r, (@span_digits_all _ Ds). simpl Dec.read_exponent.
      cbv iota beta. rewrite append_nil_r.
      exists (PyStr.digits_val 0 (String a (String b ""))), 0.
      split; [reflexivity|]. split; [lia|].
      apply (@digits_val_bound _ Ds).
    - rewrite (@span_digits_point _ ds Ds), (@span_digits_all _ D).
      cbv iota beta. simpl Dec.read_exponent.
      assert (Dall : PyStr.all_digits (String a (String b "") ++ ds) = true).
      { apply all_digits_str_all, str_all_app. split; apply all_digits_str_all; auto. }
      exists (PyStr.digits_val 0 (String a (String b "") ++ ds)),
             (0 - Z.of_nat (String.length ds)).
      split; [reflexivity|]. split; [lia|].
      assert (B := @digits_val_bound _ Dall).
      rewrite length_append in B. simpl String.length in B.
      replace (2 - (0 - Z.of_nat (String.length ds)))
        with (Z.of_nat (2 + String.length ds)) by lia.
      exact B. }
  destruct Body as [c [e [E B]]].
  exists c, e. split; auto.
  simpl append in *.
  destruct a as [[] [] [] [] [] [] [] []]; try discriminate Da;
    rewrite E; reflexivity.
Qed.

Lemma two_digits_facts (s : string) :
  two_digits s ->
  PyStr.all_digits s = true /\ s <> EmptyString /\
  0 <= PyStr.digits_val 0 s < 100.
Proof.
  intros [a [b [-> [Da Db]]]].
  assert (D : PyStr.all_digits (String a (String b "")) = true)
    by (simpl; rewrite Da, Db; reflexivity).
  split; auto. split; [discriminate|].
  exact (@digits_val_bound _ D).
Qed.

Lemma lead_digits_facts (s : string) :
  lead_digits s ->
  PyStr.all_digits s = true /\ s <> EmptyString /\
  0 <= PyStr.digits_val 0 s < 100.
Proof.
  intros [[a [-> Da]]|H]; [|apply two_digits_facts, H].
  assert (D : PyStr.all_digits (String a "") = true)
    by (simpl; rewrite Da; reflexivity).
  split; auto. split; [discriminate|].
  assert (B := @digits_val_bound _ D). simpl String.length in B.
  change (10 ^ Z.of_nat 1) with 10 in B. lia.
Qed.

Lemma fraction_chars (p : ascii -> bool) (f : string) :
  (forall c, PyStr.is_digit c = true -> p c = true) -> p "."%char = true ->
  fraction f -> str_all_prop p f.
Proof.
  intros Hp Hd [|ds N D]; simpl; auto. split; auto.
  eapply str_all_impl; [exact Hp|]. apply all_digits_str_all, D.
Qed.

Lemma digits_chars (p : ascii -> bool) (s : string) :
  (forall c, PyStr.is_digit c = true -> p c = true) ->
  PyStr.all_digits s = true -> str_all_prop p s.
Proof.
  intros Hp D. eapply str_all_impl; [exact Hp|]. apply all_digits_str_all, D.
Qed.

(** The end of [parse_duration]: the sum and the conversion. *)
Lemma sum_to_float (seconds : Dec.t) (c e n : Z) :
  seconds = Dec.Fin false c e ->
  e <= 0 -> 0 <= c < 10 ^ (2 - e) -> 0 <= n < 10 ^ 6 ->
  exists f, (total <- Dec.add seconds (Dec.of_Z n) ;; Dec.to_float total) = Ok f /\
            F64.is_nonneg f = true.
Proof.
  intros -> He Hc Hn.
  destruct (@add_seconds_ok c e n Hc He Hn) as [c' [e' [E _]]].
  rewrite E. simpl bind. apply to_float_nonneg.
Qed.

(** Every token of the line pattern parses, to a float that is not
    negative and no NaN. *)
Lemma parse_duration_token (d : string) :
  duration_token d ->
  exists f, parse_duration d = Ok f /\ F64.is_nonneg f = true.
Proof.
  intros [m s f Hm Hs Hf|h m s f Hh Hm Hs Hf].
  - destruct (lead_digits_facts Hm) as [Dm [Nm Bm]].
    destruct (two_digits_facts Hs) as [Dsec [Nsec Bsec]].
    destruct (@of_string_seconds s f Hs Hf) as [c [e [Es [He Hc]]]].
    unfold parse_duration.
    rewrite strip_clean.
    2:{ apply str_all_app; split; [apply digits_chars; auto; apply digit_not_space|].
        simpl. split; [reflexivity|]. apply str_all_app; split;
          [apply digits_chars; auto; apply digit_not_space
          |apply fraction_chars; auto; apply digit_not_space]. }
    change (m ++ ":" ++ s ++ f) with (m ++ String ":" (s ++ f)).
    rewrite split_at_colon by (apply digits_chars; auto; apply digit_not_colon).
    rewrite split_clean.
    2:{ apply str_all_app; split;
          [apply digits_chars; auto; apply digit_not_colon
          |apply fraction_chars; auto; apply digit_not_colon]. }
    destruct (@py_int_digits m Dm Nm) as [Em _].
    rewrite Em, Es. cbn [bind try_except].
    apply (@sum_to_float _ c e); auto. lia.
  - destruct (lead_digits_facts Hh) as [Dh [Nh Bh]].
    destruct (two_digits_facts Hm) as [Dm [Nm Bm]].
    destruct (two_digits_facts Hs) as [Dsec [Nsec Bsec]].
    destruct (@of_string_seconds s f Hs Hf) as [c [e [Es [He Hc]]]].
    unfold parse_duration.
    rewrite strip_clean.
    2:{ apply str_all_app; split; [apply digits_chars; auto; apply digit_not_space|].
        simpl. split; [reflexivity|].
        apply str_all_app; split; [apply digits_chars; auto; apply digit_not_space|].
        simpl. split; [reflexivity|]. apply str_all_app; split;
          [apply digits_chars; auto; apply digit_not_space
          |apply fraction_chars; auto; apply digit_not_space]. }
    change (h ++ ":" ++ m ++ ":" ++ s ++ f)
      with (h ++ String ":" (m ++ String ":" (s ++ f))).
    rewrite split_at_colon by (apply digits_chars; auto; apply digit_not_colon).
    rewrite split_at_colon by (apply digits_chars; auto; apply digit_not_colon).
    rewrite split_clean.
    2:{ apply str_all_app; split;
          [apply digits_chars; auto; apply digit_not_colon
          |apply fraction_chars; auto; apply digit_not_colon]. }
    destruct (@py_int_digits h Dh Nh) as [Eh _].
    destruct (@py_int_digits m Dm Nm) as [Em _].
    rewrite Eh, Em, Es. cbn [bind try_except].
    apply (@sum_to_float _ c e); auto. lia.
Qed.

End Reading.

(** ** Reading a chapter-spec file *)

Section SpecLines.
Import Overwrite Tokens.
Local Open Scope list_scope.





(** The first line that is read and does not match stops the run, with
    its number; lines before it that match are parsed without error. *)
Lemma read_lines_malformed (pre : list string) :
  forall n acc raw post,
    Forall (fun l => malformed l = false) pre -> malformed raw = true ->
    read_lines n (pre ++ raw :: post) acc
    = Err (InvalidFormatLine (n + List.length pre) (PyStr.strip raw)).
Proof.
  induction pre as [|l pre IH]; intros n acc raw post Hpre Hraw; simpl.
  - unfold malformed, skipped in Hraw. apply andb_true_iff in Hraw.
    destruct Hraw as [Hs Hm]. apply negb_true_iff in Hs. rewrite Hs.
    destruct (line_match (PyStr.strip raw)); [discriminate|].
    rewrite Nat.add_0_r. reflexivity.
  - inversion Hpre as [|? ? Hl Hrest]; subst.
    replace (n + S (List.length pre))%nat with (S n + List.length pre)%nat by lia.
    unfold malformed, skipped in Hl.
    destruct (String.eqb (PyStr.strip l) "" || PyStr.startswith "#" (PyStr.strip l));
      [apply IH; assumption|].
    cbn [negb andb] in Hl.
    destruct (line_match (PyStr.strip l)) as [[title d]|] eqn:E; [|discriminate].
    destruct (parse_duration_token (line_match_token _ E)) as [f [Ef _]].
    rewrite Ef. cbn [bind]. apply IH; assumption.
Qed.



(** ** Signs of durations *)







End SpecLines.

(** ** Milliseconds *)

Section Milliseconds.

Lemma round_half_even_scale (n d k : Z) :
  0 < d -> 0 < k -> round_half_even (n * k) (d * k) = round_half_even n d.
Proof.
  intros Hd Hk. unfold round_half_even.
  rewrite Z.div_mul_cancel_r by lia.
  rewrite Z.mul_mod_distr_r by lia.
  destruct (Z.compare_spec (2 * (n mod d * k)) (d * k));
    destruct (Z.compare_spec (2 * (n mod d)) d); try reflexivity; nia.
Qed.

Lemma round_half_even_one (n : Z) : round_half_even n 1 = n.
Proof.
  unfold round_half_even. rewrite Z.div_1_r, Z.mod_1_r. reflexivity.
Qed.

Lemma round_half_even_opp (n d : Z) :
  0 < d -> round_half_even (- n) d = - round_half_even n d.
Proof.
  intro Hd. unfold round_half_even.
  assert (Hn := Z.div_mod n d ltac:(lia)).
  assert (Hr := Z.mod_pos_bound n d Hd).
  destruct (Z.eq_dec (n mod d) 0) as [E|E].
  - assert (E1 : (- n) mod d = 0) by (apply Z.mod_opp_l_z; lia).
    assert (E2 : - n / d = - (n / d)) by (apply Z.div_opp_l_z; lia).
    rewrite E, E1, E2. change (2 * 0) with 0.
    destruct (Z.compare_spec 0 d); lia.
  - assert (E1 : (- n) mod d = d - n mod d) by (apply Z.mod_opp_l_nz; lia).
    assert (E2 : - n / d = - (n / d) - 1) by (apply Z.div_opp_l_nz; lia).
    rewrite E1, E2.
    destruct (Z.compare_spec (2 * (n mod d)) d) as [C|C|C];
      destruct (Z.compare_spec (2 * (d - n mod d)) d) as [C'|C'|C']; try lia.
    replace (- (n / d) - 1) with (- (n / d + 1)) by lia.
    rewrite Z.even_opp, Z.even_add. simpl.
    destruct (Z.even (n / d)); simpl; lia.
Qed.

Lemma round_half_even_nearest (n d : Z) :
  0 < d -> 2 * Z.abs (round_half_even n d * d - n) <= d.
Proof.
  intro Hd. unfold round_half_even.
  assert (Hn := Z.div_mod n d ltac:(lia)).
  assert (Hr := Z.mod_pos_bound n d Hd).
  destruct (Z.compare_spec (2 * (n mod d)) d) as [C|C|C];
    try destruct (Z.even (n / d)); nia.
Qed.

(** [round_Q] gives an integer nearest to its argument. *)
Lemma round_Q_nearest (q : Q) : nearest_int q (round_Q q).
Proof.
  unfold nearest_int, round_Q. destruct q as [n d].
  assert (H := @round_half_even_nearest n (Zpos d) ltac:(lia)).
  cbn [Qnum Qden] in *.
  unfold Qle, Qabs, Qminus, Qplus, Qopp, inject_Z. cbn [Qnum Qden].
  rewrite Z.mul_1_r, Pos.mul_1_l.
  replace (round_half_even n (Z.pos d) * Z.pos d + - n * 1)
    with (round_half_even n (Z.pos d) * Z.pos d - n) by lia.
  lia.
Qed.

Lemma reduce_spec (k : nat) :
  forall m n k', Dec.reduce m k = (n, k') ->
  (k' <= k)%nat /\ Zpos m = Zpos n * 2 ^ Z.of_nat (k - k').
Proof.
  assert (Stop : forall m n k0 k', (m, k0) = (n, k') ->
            (k' <= k0)%nat /\ Zpos m = Zpos n * 2 ^ Z.of_nat (k0 - k')).
  { intros m n k0 k' H. inversion H; subst.
    rewrite Nat.sub_diag, Z.pow_0_r. split; lia. }
  induction k as [|k IH]; intros m n k' H.
  - destruct m; simpl in H; apply Stop; exact H.
  - destruct m as [m|m|]; simpl in H; try (apply Stop; exact H).
    destruct (IH m n k' H) as [L E]. split; [lia|].
    replace (S k - k')%nat with (S (k - k')) by lia.
    rewrite Nat2Z.inj_succ, Z.pow_succ_r by lia. lia.
Qed.

Lemma shiftl_one (k : positive) : Zpos (Pos.shiftl 1 (Npos k)) = 2 ^ Zpos k.
Proof.
  unfold Pos.shiftl. induction k as [|k IH] using Pos.peano_ind.
  - reflexivity.
  - rewrite Pos.iter_succ, Pos2Z.inj_succ, Z.pow_succ_r by lia.
    rewrite <- IH. reflexivity.
Qed.

Lemma quantize_int_fin (s : bool) (c e z : Z) :
  (q <- Dec.quantize (Dec.Fin s c e) ;; Dec.to_int q) = Ok z ->
  z = Dec.signed s (if e <? 0 then round_half_even c (10 ^ (- e))
                    else c * 10 ^ e).
Proof.
  unfold Dec.quantize.
  destruct ((if e <? 0 then round_half_even c (10 ^ (- e)) else c * 10 ^ e)
            <? 10 ^ Dec.prec); cbn [bind Dec.to_int]; intro H;
    [injection H as <-; reflexivity|discriminate].
Qed.

(** Converting a float exactly and rounding the decimal to an integer
    gives the integer nearest to the float's value, ties to even. *)
Lemma quantize_of_float (y : F64.t) (z : Z) :
  (q <- Dec.quantize (Dec.of_float y) ;; Dec.to_int q) = Ok z ->
  exists v, F64.to_Q y = Some v /\ z = round_Q v.
Proof.
  destruct y as [s|s| |s m e]; cbn [Dec.of_float].
  - intro H. destruct s; vm_compute in H; inversion H; subst;
      exists (0 # 1)%Q; split; reflexivity.
  - intro H. discriminate H.
  - intro H. discriminate H.
  - destruct e as [|p|p].
    + intro H. apply quantize_int_fin in H. subst z.
      change (0 <? 0) with false. cbv iota.
      rewrite !Z.pow_0_r, !Z.mul_1_r.
      eexists; split; [reflexivity|].
      unfold round_Q. cbn [Qnum Qden]. rewrite round_half_even_one.
      rewrite Z.mul_1_r. destruct s; reflexivity.
    + intro H. apply quantize_int_fin in H. subst z.
      change (0 <? 0) with false. cbv iota.
      rewrite Z.pow_0_r, Z.mul_1_r.
      eexists; split; [reflexivity|].
      unfold round_Q. cbn [Qnum Qden]. rewrite round_half_even_one.
      destruct s; unfold Dec.signed; [|reflexivity].
      change (Z.neg m) with (- Z.pos m). lia.
    + destruct (Dec.reduce m (Pos.to_nat p)) as [n k'] eqn:R.
      apply reduce_spec in R. destruct R as [L E].
      intro H. apply quantize_int_fin in H. subst z.
      exists ((if s then Z.neg m else Z.pos m) # Pos.shiftl 1 (N.pos p))%Q.
      split; [reflexivity|].
      unfold round_Q. cbn [Qnum Qden]. rewrite shiftl_one.
      assert (P : 2 ^ Z.pos p = 2 ^ Z.of_nat k' * 2 ^ Z.of_nat (Pos.to_nat p - k')).
      { rewrite <- Z.pow_add_r by lia. f_equal. lia. }
      assert (Pk : 0 < 2 ^ Z.of_nat k') by (apply Z.pow_pos_nonneg; lia).
      assert (Pd : 0 < 2 ^ Z.of_nat (Pos.to_nat p - k')) by (apply Z.pow_pos_nonneg; lia).
      assert (M : round_half_even (Z.pos m) (2 ^ Z.pos p)
                  = round_half_even (Z.pos n) (2 ^ Z.of_nat k')).
      { rewrite E, P. apply round_half_even_scale; assumption. }
      assert (V : (if - Z.of_nat k' <? 0
                   then round_half_even (Z.pos n * 5 ^ Z.of_nat k')
                          (10 ^ (- - Z.of_nat k'))
                   else Z.pos n * 5 ^ Z.of_nat k' * 10 ^ (- Z.of_nat k'))
                  = round_half_even (Z.pos m) (2 ^ Z.pos p)).
      { rewrite M. destruct (Z.ltb_spec (- Z.of_nat k') 0) as [NZ|Z0].
        - rewrite Z.opp_involutive.
          replace (10 ^ Z.of_nat k') with (2 ^ Z.of_nat k' * 5 ^ Z.of_nat k')
            by (rewrite <- Z.pow_mul_l; reflexivity).
          apply round_half_even_scale; [assumption|].
          apply Z.pow_pos_nonneg; lia.
        - assert (Z.of_nat k' = 0) as -> by lia.
          change (- 0) with 0. rewrite !Z.pow_0_r, !Z.mul_1_r.
          rewrite round_half_even_one. reflexivity. }
      rewrite V.
      destruct s; unfold Dec.signed; auto.
      change (Z.neg m) with (- Z.pos m). rewrite round_half_even_opp; [reflexivity|].
      apply Z.pow_pos_nonneg; lia.
Qed.

End Milliseconds.

(** ** The cursor is a float *)

Section FloatCursor.
Import Overwrite.
Local Open Scope list_scope.

Lemma chapter_blocks_values (chapters : list (string * F64.t)) :
  forall cur blocks,
    chapter_blocks cur chapters = Ok blocks ->
    List.length blocks = List.length chapters /\
    forall i b, nth_error blocks i = Some b ->
      ms_of (fold_left F64.add (map snd (firstn i chapters)) cur)
        = Ok (b_start b) /\
      ms_of (fold_left F64.add (map snd (firstn (S i) chapters)) cur)
        = Ok (b_end b).
Proof.
  induction chapters as [|[title d] rest IH]; intros cur blocks H;
    cbn [chapter_blocks] in H.
  - injection H as <-. split; [reflexivity|]. intros [|i] b Hb; discriminate.
  - unfold ms_of.
    destruct (to_ms cur) as [s|] eqn:Es; cbn [bind] in H; [|discriminate].
    destruct (to_ms (F64.add cur d)) as [e|] eqn:Ee; cbn [bind] in H; [|discriminate].
    destruct (Dec.to_int s) as [si|] eqn:Esi; cbn [bind] in H; [|discriminate].
    destruct (Dec.to_int e) as [ei|] eqn:Eei; cbn [bind] in H; [|discriminate].
    destruct (chapter_blocks (F64.add cur d) rest) as [bs|] eqn:E;
      cbn [bind] in H; [|discriminate].
    injection H as <-. destruct (IH _ _ E) as [L V].
    split; [simpl; congruence|].
    intros [|i] b Hb.
    + injection Hb as <-. cbn [firstn map fold_left b_start b_end snd].
      rewrite Es, Ee. cbn [bind]. auto.
    + cbn [nth_error] in Hb. cbn [firstn map fold_left snd].
      specialize (V i b Hb). unfold ms_of in V. exact V.
Qed.

(** C4, as stated, fails: the duration 0.50050000000000000001 s is read
    as a float below it, and the END written is 500 where the exact sum,
    500.50000000000000001 ms, is nearest to 501. *)
Lemma float_timeline_inexact :
  Dec.of_string "00.50050000000000000001"
    = Ok (Dec.Fin false 50050000000000000001 (-20)) /\
  exists f v,
    read_chapters [fine_line] = Ok [("x", f)] /\
    F64.to_Q f = Some v /\ (v < fine_seconds)%Q /\
    chapter_blocks F64.zero [("x", f)] = Ok [Block 0 500 "x"] /\
    ~ nearest_int (inject_Z 1000 * fine_seconds) 500 /\
    nearest_int (inject_Z 1000 * fine_seconds) 501.
Proof.
  split; [vm_compute; reflexivity|].
  eexists; eexists. split; [vm_compute; reflexivity|].
  split; [vm_compute; reflexivity|].
  split; [vm_compute; reflexivity|].
  split; [vm_compute; reflexivity|].
  split.
  - intro H. vm_compute in H. apply H. reflexivity.
  - vm_compute. discriminate.
Qed.

(** C4, amended. The cursor is the binary64 sum of the durations so far.
    Each START and END written is the integer nearest, ties to even, to
    the exact value of the binary64 product of the cursor and 1000; the
    cursor itself is never rounded to milliseconds. *)
Theorem float_timeline (chapters : list (string * F64.t)) (blocks : list block) :
  chapter_blocks F64.zero chapters = Ok blocks ->
  List.length blocks = List.length chapters /\
  forall i b, nth_error blocks i = Some b ->
    exists vs ve,
      F64.to_Q (F64.mul (cursor_at chapters i) F64.thousand) = Some vs /\
      b_start b = round_Q vs /\ nearest_int vs (b_start b) /\
      F64.to_Q (F64.mul (cursor_at chapters (S i)) F64.thousand) = Some ve /\
      b_end b = round_Q ve /\ nearest_int ve (b_end b).
Proof.
  intro H. destruct (chapter_blocks_values _ _ H) as [L V].
  split; auto. intros i b Hb. destruct (V i b Hb) as [Vs Ve].
  unfold ms_of, to_ms in Vs, Ve.
  apply quantize_of_float in Vs, Ve.
  destruct Vs as [vs [Qs Rs]], Ve as [ve [Qe Re]].
  exists vs, ve. unfold cursor_at.
  repeat split; auto; rewrite ?Rs, ?Re; apply round_Q_nearest.
Qed.

Lemma float_timeline_witness :
  exists vs ve,
    F64.to_Q (F64.mul (cursor_at two_chapters 1) F64.thousand) = Some vs /\
    17900 = round_Q vs /\ nearest_int vs 17900 /\
    F64.to_Q (F64.mul (cursor_at two_chapters 2) F64.thousand) = Some ve /\
    5221400 = round_Q ve /\ nearest_int ve 5221400.
Proof.
  assert (E : chapter_blocks F64.zero two_chapters
              = Ok [Block 0 17900 "Opening Credits";
                    Block 17900 5221400 "Part One"])
    by (vm_compute; reflexivity).
  destruct (float_timeline two_chapters E) as [_ V].
  exact (V 1%nat (Block 17900 5221400 "Part One") eq_refl).
Defined.

End FloatCursor.

(** ** The sample book *)

(** The chapters (0,10), (1,4), (5,9), (10,20) give two top-level nodes:
    (0,10) with the children (1,4) and (5,9), and (10,20) without any. *)
Lemma nested_book_hierarchy :
  Extract.build_chapter_hierarchy Samples.nested_book
  = Some [Extract.Node "Chapter Unknown" (F64.of_Z 0) (F64.of_Z 10)
            [Extract.Node "Chapter Unknown" (F64.of_Z 1) (F64.of_Z 4) [];
             Extract.Node "Chapter Unknown" (F64.of_Z 5) (F64.of_Z 9) []];
          Extract.Node "Chapter Unknown" (F64.of_Z 10) (F64.of_Z 20) []].
Proof. vm_compute. reflexivity. Qed.

(* ===================================================================== *)
(** * Further properties of the three scripts *)

(** ** Numbers written and read back *)

Section Numerals.
Import Tokens.

Lemma string_of_uint_digits (d : Decimal.uint) :
  PyStr.all_digits (NilEmpty.string_of_uint d) = true.
Proof. induction d; simpl; auto. Qed.

Lemma digits_val_uint_acc (d : Decimal.uint) :
  forall acc : positive,
    PyStr.digits_val (Zpos acc) (NilEmpty.string_of_uint d)
    = Zpos (Pos.of_uint_acc d acc).
Proof.
  induction d; intro acc; cbn [NilEmpty.string_of_uint PyStr.digits_val Pos.of_uint_acc];
    try reflexivity;
    match goal with
    | |- PyStr.digits_val ?a _ = Zpos (Pos.of_uint_acc _ ?b) =>
        replace a with (Zpos b) by (vm_compute PyStr.digit_val; lia)
    end; apply IHd.
Qed.

Lemma digits_val_uint (d : Decimal.uint) :
  PyStr.digits_val 0 (NilEmpty.string_of_uint d) = Z.of_N (Pos.of_uint d).
Proof.
  induction d; cbn [NilEmpty.string_of_uint PyStr.digits_val Pos.of_uint];
    try reflexivity;
    try (match goal with
         | |- PyStr.digits_val ?a _ = Z.of_N (N.pos (Pos.of_uint_acc _ ?b)) =>
             replace a with (Zpos b) by (vm_compute; reflexivity)
         end; apply digits_val_uint_acc).
  replace (10 * 0 + PyStr.digit_val "0") with 0 by (vm_compute; reflexivity).
  exact IHd.
Qed.

Lemma string_of_uint_nonempty (p : positive) :
  NilEmpty.string_of_uint (Pos.to_uint p) <> EmptyString.
Proof.
  assert (H := Unsigned.to_uint_nonnil p).
  destruct (Pos.to_uint p); try contradiction; discriminate.
Qed.

Lemma nilzero_pos (p : positive) :
  NilZero.string_of_uint (Pos.to_uint p) = NilEmpty.string_of_uint (Pos.to_uint p).
Proof.
  assert (H := Unsigned.to_uint_nonnil p).
  unfold NilZero.string_of_uint. destruct (Pos.to_uint p); try contradiction; reflexivity.
Qed.

(** The decimal text of a number that is not negative: digits, at least
    one, whose value is the number. *)
Lemma of_Z_digits (n : Z) :
  0 <= n ->
  PyStr.all_digits (PyStr.of_Z n) = true /\ PyStr.of_Z n <> EmptyString /\
  PyStr.digits_val 0 (PyStr.of_Z n) = n.
Proof.
  intro H. destruct n as [|p|p]; [| |lia].
  - repeat split; try reflexivity; discriminate.
  - unfold PyStr.of_Z. cbn [Z.to_int NilZero.string_of_int].
    rewrite nilzero_pos. split; [apply string_of_uint_digits|].
    split; [apply string_of_uint_nonempty|].
    rewrite digits_val_uint, Unsigned.of_to. reflexivity.
Qed.

(** [int(str(z))] is [z]. *)
Lemma py_int_of_Z (z : Z) : py_int (PyStr.of_Z z) = Ok z.
Proof.
  destruct z as [|p|p].
  - reflexivity.
  - destruct (@of_Z_digits (Zpos p)) as [D [N V]]; [lia|].
    destruct (@py_int_digits _ D N) as [E _]. rewrite E, V. reflexivity.
  - destruct (@of_Z_digits (Zpos p)) as [D [N V]]; [lia|].
    unfold PyStr.of_Z in *. cbn [Z.to_int NilZero.string_of_int] in *.
    rewrite nilzero_pos in *.
    set (ds := NilEmpty.string_of_uint (Pos.to_uint p)) in *.
    assert (A := proj1 (all_digits_str_all ds) D).
    unfold py_int.
    assert (S : int_rstrip (int_lstrip (String "-" ds)) = String "-" ds).
    { apply int_strip_clean. simpl. split; [reflexivity|].
      eapply str_all_impl; [apply digit_not_space|exact A]. }
    rewrite S.
    assert (B : int_body false ds = true).
    { destruct ds as [|c r]; [contradiction|].
      simpl in D. apply andb_true_iff in D. destruct D as [Dc Dr].
      simpl. rewrite Dc. apply int_body_digits, Dr. }
    rewrite B.
    rewrite remove_clean
      by (eapply str_all_impl; [apply digit_not_underscore|exact A]).
    rewrite V. reflexivity.
Qed.

Lemma of_Z_inj (a b : Z) : PyStr.of_Z a = PyStr.of_Z b -> a = b.
Proof.
  intro H. assert (E : py_int (PyStr.of_Z a) = py_int (PyStr.of_Z b)) by congruence.
  rewrite !py_int_of_Z in E. congruence.
Qed.

End Numerals.

(** ** The walk through the hierarchy *)

Section Walk.
Import Extract Nesting Forest Keys.
Local Open Scope nat_scope.
Local Open Scope list_scope.

Lemma pf_app (st : list node) (q1 l1 : list nat) :
  pre_forest st q1 l1 ->
  forall q2 l2, pre_forest st q2 l2 -> pre_forest st (q1 ++ q2) (l1 ++ l2).
Proof.
  induction 1 as [|q qs a b Hq Ha IHa Hb IHb]; intros q2 l2 H2; simpl; auto.
  rewrite <- app_assoc. constructor; auto.
Qed.

Lemma pf_app_inv (st : list node) (q1 q2 : list nat) :
  forall l, pre_forest st (q1 ++ q2) l ->
  exists l1 l2, l = l1 ++ l2 /\ pre_forest st q1 l1 /\ pre_forest st q2 l2.
Proof.
  induction q1 as [|q q1 IH]; intros l H; simpl in H.
  - exists [], l. repeat split; auto. constructor.
  - inversion H as [|? ? a b Hq Ha Hb]; subst.
    destruct (IH _ Hb) as [b1 [b2 [-> [H1 H2]]]].
    exists (q :: a ++ b1), b2. split; [simpl; rewrite app_assoc; reflexivity|].
    split; auto. constructor; auto.
Qed.

Lemma pf_single_inv (st : list node) (v : nat) (l : list nat) :
  pre_forest st [v] l ->
  exists l1, l = v :: l1 /\ v < List.length st /\ pre_forest st (subs st v) l1.
Proof.
  intro H. inversion H as [|? ? a b Hq Ha Hb]; subst.
  inversion Hb; subst. rewrite app_nil_r. eauto.
Qed.

Lemma pf_single (st : list node) (v : nat) (l1 : list nat) :
  v < List.length st -> pre_forest st (subs st v) l1 -> pre_forest st [v] (v :: l1).
Proof.
  intros Hv H. rewrite <- (app_nil_r l1). constructor; auto. constructor.
Qed.

Lemma pf_ids_lt (st : list node) (qs l : list nat) :
  pre_forest st qs l -> Forall (fun q => q < List.length st) l.
Proof.
  induction 1 as [|q qs a b Hq Ha IHa Hb IHb]; constructor; auto.
  apply Forall_app; auto.
Qed.

(** A walk that does not pass the node that changed is not changed. *)
Lemma pf_stable (st st' : list node) (qs l : list nat) :
  List.length st <= List.length st' ->
  pre_forest st qs l ->
  (forall q, In q l -> subs st' q = subs st q) ->
  pre_forest st' qs l.
Proof.
  intros Hlen H. induction H as [|q qs a b Hq Ha IHa Hb IHb]; intro Same.
  - constructor.
  - constructor; [lia| |].
    + rewrite Same by (simpl; auto). apply IHa.
      intros r Hr. apply Same. simpl. right. apply in_or_app; auto.
    + apply IHb. intros r Hr. apply Same. simpl. right. apply in_or_app; auto.
Qed.

Lemma rprefix_in (st : list node) (l p : list nat) :
  rprefix st l p ->
  forall ids, pre_forest st l ids -> Forall (fun v => In v ids) p.
Proof.
  induction 1 as [l|l v p H IH]; intros ids Hpre; [constructor|].
  destruct (pf_app_inv _ _ Hpre) as [ids0 [idsv [-> [_ Hv]]]].
  destruct (pf_single_inv Hv) as [l1 [-> [_ H1]]].
  constructor.
  - apply in_or_app. right. simpl. auto.
  - eapply Forall_impl; [|apply (IH _ H1)]. simpl. intros a Ha.
    apply in_or_app. right. simpl. auto.
Qed.

Lemma rpath_prefix (st : list node) (p1 p2 : list nat) :
  forall l, rpath st l (p1 ++ p2) -> rprefix st l p1.
Proof.
  induction p1 as [|v p1 IH]; intros l H; [constructor|].
  simpl in H. inversion H; subst. constructor. apply IH. assumption.
Qed.

Lemma hd_rev_cons (v : nat) (p : list nat) :
  p <> [] -> hd_error (rev (v :: p)) = hd_error (rev p).
Proof.
  intro N. simpl. destruct (rev p) as [|x r] eqn:E; [|reflexivity].
  exfalso. apply N. apply (f_equal (@rev nat)) in E.
  rewrite rev_involutive in E. exact E.
Qed.

Lemma hd_rev_in (p : list nat) (x : nat) : hd_error (rev p) = Some x -> In x p.
Proof.
  intro H. apply in_rev. destruct (rev p); [discriminate|].
  inversion H; subst. simpl; auto.
Qed.

(** The new node, hung below the end of a way down from the last root,
    comes last in the walk and ends the new way down. *)
Lemma grow_forest (st st' : list node) (c : chapter) (parent : option nat) :
  grown st st' c parent ->
  forall l p, rprefix st l p ->
  forall ids, pre_forest st l ids -> NoDup ids ->
    (p <> [] -> hd_error (rev p) = parent) ->
    (p = [] -> forall q, parent = Some q -> ~ In q ids) ->
    let l' := match p with [] => l ++ [List.length st] | _ :: _ => l end in
    pre_forest st' l' (ids ++ [List.length st]) /\
    rpath st' l' (p ++ [List.length st]).
Proof.
  intros [Glen [Gold [_ [_ [_ Gnew]]]]].
  set (n := List.length st) in *.
  assert (Keep : forall ids, Forall (fun q => q < n) ids ->
            (forall x, parent = Some x -> ~ In x ids) ->
            forall q, In q ids -> subs st' q = subs st q).
  { intros ids Hlt Hp q Hq. rewrite Forall_forall in Hlt.
    destruct (Gold q (Hlt q Hq)) as [_ [_ [_ E]]]. rewrite E.
    destruct parent as [x|]; auto.
    destruct (Nat.eqb_spec q x) as [->|]; auto.
    exfalso. apply (Hp x eq_refl Hq). }
  assert (New : pre_forest st' [n] [n]).
  { apply pf_single; [lia|]. rewrite Gnew. constructor. }
  intros l p Hp. induction Hp as [l|l v p Hp IH]; intros ids Hpre Nd Hlast Hnone.
  - cbv zeta. split.
    + apply pf_app; auto.
      apply (@pf_stable st st'); [lia|auto|].
      apply Keep; [apply (pf_ids_lt Hpre)|]. apply Hnone. reflexivity.
    + apply (@rp_cons st' l n []). rewrite Gnew. constructor.
  - cbv zeta. clear Hnone.
    destruct (pf_app_inv _ _ Hpre) as [ids0 [idsv [-> [H0 Hv]]]].
    destruct (pf_single_inv Hv) as [l1 [-> [Hvlt H1]]].
    assert (Nd0 : NoDup ids0) by (apply NoDup_app_remove_r in Nd; exact Nd).
    assert (Ndv : NoDup (v :: l1)) by (apply NoDup_app_remove_l in Nd; exact Nd).
    assert (Nv : ~ In v l1) by (inversion Ndv; assumption).
    assert (Nd1 : NoDup l1) by (inversion Ndv; assumption).
    assert (Disj : forall x, In x (v :: l1) -> ~ In x ids0).
    { intros x Hx H0x. revert Nd. clear - Hx H0x.
      induction ids0 as [|a ids0 IHi]; [contradiction|].
      simpl. intro Nd. inversion Nd as [|? ? Na Nd']; subst.
      destruct H0x as [->|H0x]; [apply Na; apply in_or_app; auto|].
      apply IHi; auto. }
    assert (Hparent : hd_error (rev (v :: p)) = parent)
      by (apply Hlast; discriminate).
    assert (Pin : exists x, parent = Some x /\ In x (v :: l1)).
    { destruct p as [|w p'].
      - simpl in Hparent. exists v. split; [congruence|simpl; auto].
      - rewrite hd_rev_cons in Hparent by discriminate.
        destruct (hd_error (rev (w :: p'))) as [x|] eqn:E.
        + exists x. split; [congruence|]. right.
          assert (F := rprefix_in Hp H1). rewrite Forall_forall in F.
          apply F. apply hd_rev_in. exact E.
        + exfalso. simpl in E. destruct (rev p'); discriminate. }
    destruct Pin as [x [Px Xin]].
    assert (Sub : pre_forest st' (subs st' v) (l1 ++ [n]) /\
                  rpath st' (subs st' v) (p ++ [n])).
    { destruct (Gold v Hvlt) as [_ [_ [_ E]]]. rewrite Px in E.
      destruct p as [|w p'].
      - simpl in Hparent. assert (x = v) by congruence. subst x.
        rewrite Nat.eqb_refl in E. rewrite E.
        apply (IH l1 H1 Nd1); [intro K; contradiction K; reflexivity|].
        intros _ q Hq. rewrite Px in Hq. inversion Hq; subst. exact Nv.
      - assert (x <> v).
        { intros ->. rewrite hd_rev_cons in Hparent by discriminate.
          assert (F := rprefix_in Hp H1). rewrite Forall_forall in F.
          apply Nv. apply F. apply hd_rev_in. congruence. }
        destruct (Nat.eqb_spec v x) as [->|_]; [contradiction|]. rewrite E.
        apply (IH l1 H1 Nd1); [|discriminate].
        intros _. rewrite hd_rev_cons in Hparent by discriminate. exact Hparent. }
    destruct Sub as [S1 S2].
    split.
    + replace ((ids0 ++ v :: l1) ++ [n]) with (ids0 ++ (v :: (l1 ++ [n])))
        by (rewrite <- app_assoc; reflexivity).
      apply pf_app.
      * apply (@pf_stable st st'); [lia|auto|].
        apply Keep; [apply (pf_ids_lt H0)|].
        intros y Hy. rewrite Px in Hy. inversion Hy; subst. apply Disj. exact Xin.
      * apply pf_single; [lia|exact S1].
    + apply (@rp_cons st' l v (p ++ [n])). exact S2.
Qed.

Lemma pre_inv_init : pre_inv (HState [] [] []).
Proof. constructor; simpl; constructor. Qed.

Lemma pre_inv_place (done : list chapter) (s : hstate) (c : chapter) :
  struct_inv done s -> pre_inv s -> pre_inv (place s c).
Proof.
  intros Hs [Ppre Ppath].
  destruct (@place_spec s c (si_stack Hs)) as [Estk [G Eh]].
  destruct (pop_closed_spec (store s) (start_time c) (si_stack Hs))
    as [popped [Ep _]].
  set (stk := pop_closed (store s) (start_time c) (stack s)) in *.
  assert (Pre : rprefix (store s) (hierarchy s) (rev stk)).
  { rewrite Ep, rev_app_distr in Ppath. eapply rpath_prefix; exact Ppath. }
  destruct (@grow_forest _ _ _ _ G _ _ Pre _ Ppre (seq_NoDup _ _)) as [H1 H2].
  - intros _. rewrite rev_involutive. reflexivity.
  - intros E q Hq. exfalso.
    assert (stk = []).
    { apply (f_equal (@rev nat)) in E. rewrite rev_involutive in E. exact E. }
    rewrite H in Hq. discriminate.
  - assert (L : List.length (store (place s c)) = S (List.length (store s)))
      by (destruct G; assumption).
    assert (Hh : hierarchy (place s c)
                 = match rev stk with
                   | [] => hierarchy s ++ [List.length (store s)]
                   | _ :: _ => hierarchy s
                   end).
    { rewrite Eh. destruct stk as [|a r]; [reflexivity|].
      simpl. destruct (rev r ++ [a]) eqn:E; [|reflexivity].
      destruct (rev r); discriminate. }
    constructor.
    + rewrite L, seq_S, Hh. exact H1.
    + rewrite Estk, Hh. simpl rev. exact H2.
Qed.

Lemma pre_inv_fold (l done : list chapter) (s : hstate) :
  struct_inv done s -> pre_inv s -> pre_inv (fold_left place l s).
Proof.
  revert done s; induction l as [|c l IH]; intros done s Hs P; simpl; auto.
  apply (IH (done ++ [c])).
  - apply struct_inv_place; assumption.
  - eapply pre_inv_place; eassumption.
Qed.

Lemma build_state_pre (chapters : list chapter) : pre_inv (build_state chapters).
Proof.
  apply (@pre_inv_fold (sorted chapters) [] _ struct_inv_init pre_inv_init).
Qed.

(** The trees read off the store list their nodes in the order of the
    walk. *)
Lemma pre_forest_trees (st : list node) (qs ids : list nat) :
  pre_forest st qs ids ->
  forall fuel ts,
    Forall2 (fun q t => tree_of fuel st q = Some t) qs ts ->
    flat_map preorder ts = map (fields st) ids.
Proof.
  induction 1 as [|q qs a b Hq Ha IHa Hb IHb]; intros fuel ts F.
  - inversion F; reflexivity.
  - inversion F as [|? t ? ts' Ht Hts]; subst. clear F.
    destruct fuel as [|f]; [discriminate|]. simpl in Ht.
    unfold subs in Ha, IHa.
    destruct (nth_error st q) as [n|] eqn:E; [|discriminate].
    destruct (all_some (map (tree_of f st) (n_sub n))) as [sub|] eqn:Es;
      [|discriminate].
    simpl in Ht. inversion Ht; subst t. clear Ht.
    apply all_some_Forall2 in Es.
    cbn [flat_map preorder map]. rewrite map_app.
    rewrite (IHa f sub Es), (IHb (S f) ts' Hts).
    f_equal. unfold fields, ftitle, fstart, fend. rewrite E. reflexivity.
Qed.

Lemma map_seq_nth {A B : Type} (f : nat -> B) (g : A -> B) (l : list A) :
  (forall q c, nth_error l q = Some c -> f q = g c) ->
  map f (seq 0 (List.length l)) = map g l.
Proof.
  induction l as [|x l IH] using rev_ind; intro H; [reflexivity|].
  rewrite length_app. simpl List.length. rewrite Nat.add_1_r, seq_S.
  rewrite !map_app. simpl. f_equal.
  - apply IH. intros q c Hq. apply H. rewrite nth_error_app1; auto.
    apply nth_error_Some. congruence.
  - f_equal. apply H. rewrite nth_error_app2, Nat.sub_diag; auto.
Qed.

Lemma hierarchy_walk (chapters : list chapter) :
  exists trees,
    build_chapter_hierarchy chapters = Some trees /\
    flat_map preorder trees = map key_of (sorted chapters).
Proof.
  destruct (@build_total chapters (fun _ _ _ => True)) as [trees [E _]]; auto.
  exists trees. split; auto.
  assert (Hs := build_state_struct chapters).
  assert (P := build_state_pre chapters).
  unfold build_chapter_hierarchy in E.
  set (s := build_state chapters) in *.
  apply all_some_Forall2 in E.
  rewrite (@pre_forest_trees _ _ _ (pi_pre P) _ _ E).
  rewrite (si_len Hs). apply map_seq_nth.
  intros q c Hq. destruct (si_fields Hs q Hq) as [E1 [E2 E3]].
  unfold fields, key_of. rewrite E1, E2, E3. reflexivity.
Qed.

Lemma equal_starts_not_less (x : F64.t) (c d : chapter) :
  F64.eqb (start_time d) x = true -> F64.eqb (start_time c) x = true ->
  F64.ltb (start_time d) (start_time c) = false.
Proof.
  intros Hd Hc. apply eqb_rank in Hd, Hc.
  destruct Hd as [Nd [_ Rd]], Hc as [Nc [_ Rc]].
  destruct (F64.ltb (start_time d) (start_time c)) eqn:L; [|reflexivity].
  exfalso. apply (ltb_rank _ _ Nd Nc) in L.
  rewrite Rd, Rc in L. revert L. lex_solve.
Qed.

(** Inserting a chapter puts it in front of those with the same start. *)
Lemma insert_by_start_filter (x : F64.t) (c : chapter) (l : list chapter) :
  filter (fun d => F64.eqb (start_time d) x) (insert_by_start c l)
  = filter (fun d => F64.eqb (start_time d) x) (c :: l).
Proof.
  induction l as [|d l IH]; [reflexivity|].
  cbn [insert_by_start].
  destruct (F64.ltb (start_time d) (start_time c)) eqn:L; [|reflexivity].
  cbn [filter] in *. rewrite IH.
  destruct (F64.eqb (start_time d) x) eqn:Ed;
    destruct (F64.eqb (start_time c) x) eqn:Ec; try reflexivity.
  rewrite (equal_starts_not_less _ _ _ Ed Ec) in L. discriminate.
Qed.

(** The sort is stable: chapters with the same start keep their order. *)
Lemma sorted_stable (x : F64.t) (l : list chapter) :
  filter (fun d => F64.eqb (start_time d) x) (sorted l)
  = filter (fun d => F64.eqb (start_time d) x) l.
Proof.
  induction l as [|c l IH]; [reflexivity|].
  unfold sorted in *. cbn [fold_right].
  rewrite insert_by_start_filter. cbn [filter]. rewrite IH. reflexivity.
Qed.

(** X1. However the intervals of the chapters lie, as long as their
    times are numbers, the hierarchy holds every chapter it was given
    exactly once: read parents first and siblings from left to right, its
    nodes are the chapters in the order of the sort, and that is a
    rearrangement of the input. The sort goes by the start time alone,
    ascending, and chapters with the same start keep the order they came
    in, whatever their ends are. *)
Theorem hierarchy_keeps_every_chapter (chapters : list chapter) :
  Forall no_nan chapters ->
  exists trees,
    build_chapter_hierarchy chapters = Some trees /\
    flat_map preorder trees = map key_of (sorted chapters) /\
    Permutation (map key_of chapters) (flat_map preorder trees) /\
    ForallOrdPairs (fun a b => fle (start_time a) (start_time b))
                   (sorted chapters) /\
    (forall x,
       filter (fun c => F64.eqb (start_time c) x) (sorted chapters)
       = filter (fun c => F64.eqb (start_time c) x) chapters).
Proof.
  intro NN.
  destruct (hierarchy_walk chapters) as [trees [E W]].
  exists trees. split; auto. split; auto. split; [|split].
  - rewrite W. apply Permutation_map, sorted_perm.
  - apply sorted_sorted, NN.
  - intro x. apply sorted_stable.
Qed.

Lemma hierarchy_keeps_every_chapter_witness :
  exists trees,
    build_chapter_hierarchy Samples.tied_book = Some trees /\
    flat_map preorder trees = map key_of (sorted Samples.tied_book) /\
    Permutation (map key_of Samples.tied_book) (flat_map preorder trees) /\
    ForallOrdPairs (fun a b => fle (start_time a) (start_time b))
                   (sorted Samples.tied_book) /\
    (forall x,
       filter (fun c => F64.eqb (start_time c) x) (sorted Samples.tied_book)
       = filter (fun c => F64.eqb (start_time c) x) Samples.tied_book).
Proof.
  apply (@hierarchy_keeps_every_chapter Samples.tied_book).
  repeat (constructor; [split; vm_compute; reflexivity|]). constructor.
Defined.

(** The lines of a tree show its nodes in the order of the walk. *)
Lemma display_node_walk (n : ChapterNode) :
  forall level,
    Forall2 (fun l k => exists lv,
                 l = ChapterLine lv (fst (fst k)) (snd (fst k))
                       (F64.sub (snd k) (snd (fst k))))
            (display_node level n) (preorder n).
Proof.
  induction n as [t s e subs0 IH] using ChapterNode_rect_list.
  intro level. cbn [display_node preorder].
  constructor; [exists level; reflexivity|].
  induction IH as [|c l Hc Hl IHl]; simpl; [constructor|].
  apply Forall2_app; auto.
Qed.

End Walk.

(** ** The listing shows every chapter *)

Section Listing.
Import Extract Nesting Forest Keys.
Local Open Scope list_scope.

Lemma display_hierarchy_walk (trees : list ChapterNode) (level : nat) :
  Forall2 (fun l k => exists lv,
               l = ChapterLine lv (fst (fst k)) (snd (fst k))
                     (F64.sub (snd k) (snd (fst k))))
          (display_chapter_hierarchy trees level) (flat_map preorder trees).
Proof.
  unfold display_chapter_hierarchy.
  induction trees as [|n trees IH]; simpl; [constructor|].
  apply Forall2_app; auto. apply display_node_walk.
Qed.

Lemma Forall2_map_r {A B C : Type} (R : A -> C -> Prop) (f : B -> C)
    (l : list A) (l' : list B) :
  Forall2 R l (map f l') -> Forall2 (fun a b => R a (f b)) l l'.
Proof.
  revert l; induction l' as [|b l' IH]; intros l H; inversion H; subst;
    constructor; auto.
Qed.

(** X2. When a chapter of a second or more is there and the file has no
    tag named [format], the listing is the heading, which names the book
    [Untitled] whatever its title tag is, the number of chapters and then
    one line for every such chapter, in the order of their start times;
    the number announced is the number of lines. With a tag named
    [format] the call ends in an AttributeError and prints nothing. *)
Theorem display_lists_every_chapter (tags : Combine.tags)
    (chapters : list chapter) :
  filtered_chapters chapters <> [] ->
  match Combine.lookup "format" tags with
  | Some _ => display_chapters tags chapters = Some AttributeError
  | None =>
      exists body,
        display_chapters tags chapters
        = Some (Printed (BookTitle "Untitled"
                           :: TotalChapters (List.length body) :: body)) /\
        Forall2 line_of body (sorted (filtered_chapters chapters))
  end.
Proof.
  intro N. unfold display_chapters.
  destruct chapters as [|c0 l0]; [contradiction N; reflexivity|].
  set (chapters := c0 :: l0) in *. clearbody chapters.
  destruct (filtered_chapters chapters) as [|f fs] eqn:E;
    [contradiction N; reflexivity|].
  rewrite <- E in *. clear E f fs.
  destruct (Combine.lookup "format" tags) as [v|]; [reflexivity|].
  destruct (hierarchy_walk (filtered_chapters chapters)) as [trees [Et W]].
  rewrite Et. cbn [option_map].
  exists (display_chapter_hierarchy trees 0).
  assert (F : Forall2 line_of (display_chapter_hierarchy trees 0)
                (sorted (filtered_chapters chapters))).
  { assert (D := display_hierarchy_walk trees 0). rewrite W in D.
    apply Forall2_map_r in D. eapply Forall2_impl; [|exact D].
    intros l c [lv ->]. unfold line_of, key_of, duration. simpl. auto. }
  split; auto.
  rewrite (Forall2_length F).
  rewrite <- (Permutation_length (sorted_perm (filtered_chapters chapters))).
  reflexivity.
Qed.

Lemma display_lists_every_chapter_witness :
  (exists body,
     display_chapters [("title", "A Book")] Samples.nested_book
     = Some (Printed (BookTitle "Untitled"
                        :: TotalChapters (List.length body) :: body)) /\
     Forall2 line_of body (sorted (filtered_chapters Samples.nested_book))) /\
  display_chapters [("title", "A Book"); ("format", "mp4")] Samples.nested_book
  = Some AttributeError.
Proof.
  split.
  - apply (@display_lists_every_chapter [("title", "A Book")] Samples.nested_book).
    vm_compute. discriminate.
  - apply (@display_lists_every_chapter [("title", "A Book"); ("format", "mp4")]
             Samples.nested_book).
    vm_compute. discriminate.
Defined.

End Listing.

(** ** File names *)

Section NameStrings.
Import Forest.

Lemma chars_app (a b : string) : chars (a ++ b) = (chars a ++ chars b)%list.
Proof. unfold chars. induction a as [|c a IH]; simpl; congruence. Qed.

Lemma append_inj_l (a b c : string) : a ++ b = a ++ c -> b = c.
Proof. induction a as [|x a IH]; simpl; intro H; [auto|inversion H; auto]. Qed.

Lemma append_inj_r (s a b : string) : a ++ s = b ++ s -> a = b.
Proof.
  revert b; induction a as [|x a IH]; intros [|y b] H; simpl in H; auto.
  - apply (f_equal String.length) in H. simpl in H.
    rewrite length_append in H. lia.
  - apply (f_equal String.length) in H. simpl in H.
    rewrite length_append in H. lia.
  - inversion H; subst. f_equal. auto.
Qed.

Lemma output_name_inj (book_title file_prefix : string) (i j : nat) :
  output_name book_title file_prefix i = output_name book_title file_prefix j ->
  i = j.
Proof.
  unfold output_name. intro H.
  apply append_inj_l in H. apply (@append_inj_l "[") in H.
  apply append_inj_l in H. apply (@append_inj_l "] (") in H.
  apply append_inj_r in H. apply of_Z_inj in H. lia.
Qed.

End NameStrings.

Section FileNames.
Import Extract Forest Keys.
Local Open Scope list_scope.

Lemma sanitize_filename_chars (name : string) :
  chars (sanitize_filename name) = filter (fun c => negb (forbidden c)) (chars name).
Proof.
  unfold chars. induction name as [|c s IH]; simpl; auto.
  destruct (forbidden c); simpl; congruence.
Qed.

Lemma sanitize_filename_clean (name : string) :
  Forall (fun c => forbidden c = false) (chars (sanitize_filename name)).
Proof.
  rewrite sanitize_filename_chars. apply Forall_forall. intros c H.
  apply filter_In in H. destruct H as [_ H]. apply negb_true_iff. exact H.
Qed.

Lemma sanitize_filename_fixed (name : string) :
  Forall (fun c => forbidden c = false) (chars name) ->
  sanitize_filename name = name.
Proof.
  unfold chars. induction name as [|c s IH]; simpl; auto.
  intro H. inversion H as [|? ? Hc Hs]; subst. rewrite Hc. f_equal. auto.
Qed.

(** X3. The sanitized name is the name without the nine
    characters, everything else kept in order; none of the nine is left,
    a name without them is not changed, and sanitizing twice changes
    nothing more. *)
Theorem sanitize_filename_spec (name : string) :
  chars (sanitize_filename name)
  = filter (fun c => negb (forbidden c)) (chars name) /\
  Forall (fun c => forbidden c = false) (chars (sanitize_filename name)) /\
  sanitize_filename (sanitize_filename name) = sanitize_filename name.
Proof.
  split; [apply sanitize_filename_chars|].
  split; [apply sanitize_filename_clean|].
  apply sanitize_filename_fixed, sanitize_filename_clean.
Qed.

Lemma kept_app (ffmpeg : list command -> command -> bool) (r : list command) :
  forall before cmd,
    kept ffmpeg before (r ++ [cmd])
    = kept ffmpeg before r
      ++ (if ffmpeg (before ++ r) cmd then [cmd_output cmd] else []).
Proof.
  induction r as [|a r IH]; intros before cmd; simpl.
  - rewrite !app_nil_r. reflexivity.
  - rewrite IH, <- !app_assoc. reflexivity.
Qed.

Lemma names_inv_fresh (ffmpeg : list command -> command -> bool)
    (book_title file_prefix : string) :
  names_inv ffmpeg book_title file_prefix (Extractor 1 [] [] []).
Proof. constructor; reflexivity. Qed.

Lemma names_inv_step (ffmpeg : list command -> command -> bool)
    (book_title file_prefix : string) (x : extractor) (c : chapter) :
  names_inv ffmpeg book_title file_prefix x ->
  names_inv ffmpeg book_title file_prefix
    (extract_one ffmpeg book_title file_prefix x c).
Proof.
  intros [Hn Hc Hk]. unfold extract_one.
  destruct (F64.ltb _ _); [constructor; assumption|].
  destruct (existsb _ _); [constructor; assumption|].
  destruct (ffmpeg (runs x) _) eqn:Ok;
    constructor; cbn [chapter_names chapter_counter runs].
  - rewrite length_app. simpl List.length. rewrite Nat.add_1_r, seq_S, map_app.
    rewrite <- Hn. simpl. unfold output_name. rewrite Hc. reflexivity.
  - rewrite length_app. simpl List.length. rewrite Hc. lia.
  - rewrite kept_app. change ([] ++ runs x) with (runs x).
    rewrite Ok, <- Hk. reflexivity.
  - assumption.
  - assumption.
  - rewrite kept_app. change ([] ++ runs x) with (runs x).
    rewrite Ok, app_nil_r. assumption.
Qed.

Lemma names_inv_fold (ffmpeg : list command -> command -> bool)
    (book_title file_prefix : string) (l : list chapter) :
  forall x, names_inv ffmpeg book_title file_prefix x ->
  names_inv ffmpeg book_title file_prefix
    (fold_left (extract_one ffmpeg book_title file_prefix) l x).
Proof.
  induction l as [|c l IH]; intros x H; simpl; auto.
  apply IH, names_inv_step, H.
Qed.

Lemma names_inv_run (ffmpeg : list command -> command -> bool)
    (book_title file_prefix : string) (chapters : list chapter) :
  names_inv ffmpeg book_title file_prefix
    (run_extractor ffmpeg book_title file_prefix chapters).
Proof.
  unfold run_extractor. destruct chapters as [|c l]; [apply names_inv_fresh|].
  destruct (_ <=? 1)%nat; [apply names_inv_fresh|].
  apply names_inv_fold, names_inv_fresh.
Qed.

Lemma NoDup_map_inj {A B : Type} (f : A -> B) (l : list A) :
  (forall x y, f x = f y -> x = y) -> NoDup l -> NoDup (map f l).
Proof.
  intros Inj H. induction H as [|x l Hx Hl IH]; simpl; constructor; auto.
  intro K. apply in_map_iff in K. destruct K as [y [E Hy]].
  apply Inj in E. subst. contradiction.
Qed.

(** X4. The files a run of the extractor returns are numbered 1, 2,
    3, ... in the order they were cut, without a gap: a cut that fails
    does not use up a number. They are the outputs of the cuts that
    succeeded, and no two of them are the same. *)
Theorem outputs_numbered (ffmpeg : list command -> command -> bool)
    (book_title file_prefix : string) (chapters : list chapter) :
  let x := run_extractor ffmpeg book_title file_prefix chapters in
  chapter_names x
  = map (output_name book_title file_prefix)
        (seq 1 (List.length (chapter_names x))) /\
  chapter_names x = kept ffmpeg [] (runs x) /\
  NoDup (chapter_names x).
Proof.
  cbv zeta. destruct (names_inv_run ffmpeg book_title file_prefix chapters)
    as [Hn Hc Hk].
  split; auto. split; auto.
  rewrite Hn. apply NoDup_map_inj; [|apply seq_NoDup].
  intros i j. apply output_name_inj.
Qed.

Lemma digit_not_forbidden (c : ascii) :
  PyStr.is_digit c = true -> forbidden c = false.
Proof.
  destruct c as [[] [] [] [] [] [] [] []]; intro H; try discriminate H;
    reflexivity.
Qed.

Lemma of_nat_clean (n : nat) :
  Forall (fun c => forbidden c = false) (chars (PyStr.of_Z (Z.of_nat n))).
Proof.
  destruct (@of_Z_digits (Z.of_nat n)) as [D _]; [lia|].
  revert D. unfold chars. generalize (PyStr.of_Z (Z.of_nat n)).
  induction s as [|c s IH]; simpl; intro D; constructor.
  - apply andb_true_iff in D. apply digit_not_forbidden. tauto.
  - apply IH. apply andb_true_iff in D. tauto.
Qed.

(** X5. Every file name [extract_all_chapters] gets back is the
    sanitized book title, [[0] (n).m4b] after it, and holds none of the
    nine characters [sanitize_filename] removes. *)
Theorem extracted_names_safe (ffmpeg : list command -> command -> bool)
    (input_exists : bool) (title_tag : option string) (chapters : list chapter) :
  let names :=
    chapter_names (extract_all_chapters ffmpeg input_exists title_tag chapters) in
  names = map (output_name (sanitize_filename (shown_title title_tag)) "0")
              (seq 1 (List.length names)) /\
  Forall (fun name => Forall (fun c => forbidden c = false) (chars name)) names.
Proof.
  cbv zeta. unfold extract_all_chapters, extract_chapters.
  assert (Fresh : forall P : list string -> Prop, P [] ->
            P (chapter_names (Extractor 1 [] [] []))) by auto.
  destruct input_exists; cbn [negb];
    [|split; [reflexivity|constructor]].
  destruct (_ <=? 1)%nat; [split; [reflexivity|constructor]|].
  fold (shown_title title_tag).
  destruct (names_inv_run ffmpeg (sanitize_filename (shown_title title_tag))
              "0" chapters) as [Hn _ _].
  split; [exact Hn|].
  rewrite Hn. apply Forall_forall. intros name H.
  apply in_map_iff in H. destruct H as [i [<- _]].
  unfold output_name. rewrite !chars_app.
  apply Forall_app; split; [apply sanitize_filename_clean|].
  apply Forall_app; split; [repeat constructor|].
  apply Forall_app; split; [repeat constructor|].
  apply Forall_app; split; [repeat constructor|].
  apply Forall_app; split; [apply of_nat_clean|repeat constructor].
Qed.

End FileNames.

(** ** Escaped titles can be told apart *)

Section EscapeInjective.
Import Overwrite.

Lemma escape_char_cases (c : ascii) :
  (exists x, escape_char c = String "\" (String x EmptyString) /\
             (x = "\" \/ x = ";" \/ x = "n" \/ x = "r")%char /\
             (x = "\"%char <-> c = "\"%char) /\ (x = ";"%char <-> c = ";"%char) /\
             (x = "n"%char <-> c = LF) /\ (x = "r"%char <-> c = CR)) \/
  (escape_char c = String c EmptyString /\ c <> "\"%char /\ c <> LF /\ c <> CR).
Proof.
  unfold escape_char.
  destruct (Ascii.eqb_spec c "\"%char) as [->|N1].
  { left. exists "\"%char. repeat split; auto; intro H; try discriminate H;
      vm_compute in H; discriminate. }
  destruct (Ascii.eqb_spec c ";"%char) as [->|N2].
  { left. exists ";"%char. repeat split; auto; intro H; try discriminate H;
      vm_compute in H; discriminate. }
  destruct (Ascii.eqb_spec c LF) as [->|N3].
  { left. exists "n"%char. repeat split; auto; intro H; try discriminate H;
      vm_compute in H; discriminate. }
  destruct (Ascii.eqb_spec c CR) as [->|N4].
  { left. exists "r"%char. repeat split; auto; intro H; try discriminate H;
      vm_compute in H; discriminate. }
  right. auto.
Qed.

Lemma escape_char_inj (c d : ascii) (s t : string) :
  escape_char c ++ s = escape_char d ++ t -> c = d /\ s = t.
Proof.
  destruct (escape_char_cases c) as [[x [Ec [_ [X1 [X2 [X3 X4]]]]]]|[Ec [Nc _]]];
    destruct (escape_char_cases d) as [[y [Ed [Hy [Y1 [Y2 [Y3 Y4]]]]]]|[Ed [Nd _]]];
    rewrite Ec, Ed; simpl; intro H; inversion H; subst.
  - split; auto.
    destruct Hy as [-> | [-> | [-> | ->]]].
    + transitivity "\"%char; [apply X1|symmetry; apply Y1]; reflexivity.
    + transitivity ";"%char; [apply X2|symmetry; apply Y2]; reflexivity.
    + transitivity LF; [apply X3|symmetry; apply Y3]; reflexivity.
    + transitivity CR; [apply X4|symmetry; apply Y4]; reflexivity.
  - contradiction Nd; reflexivity.
  - contradiction Nc; reflexivity.
  - auto.
Qed.

Lemma escape_char_nonempty (c : ascii) (s : string) :
  escape_char c ++ s <> EmptyString.
Proof.
  destruct (escape_char_cases c) as [[x [-> _]]|[-> _]]; discriminate.
Qed.

Lemma escape_each_inj (a : string) :
  forall b, escape_each a = escape_each b -> a = b.
Proof.
  induction a as [|c a IH]; intros [|d b] H; simpl in H; auto.
  - symmetry in H. apply escape_char_nonempty in H. contradiction.
  - apply escape_char_nonempty in H. contradiction.
  - apply escape_char_inj in H. destruct H as [-> H]. f_equal. auto.
Qed.

Lemma escape_each_one_line (t : string) :
  Forall (fun c => c <> LF /\ c <> CR) (chars (escape_each t)).
Proof.
  induction t as [|c t IH]; simpl; [constructor|].
  rewrite chars_app. apply Forall_app. split; auto.
  destruct (escape_char_cases c) as [[x [-> [Hx _]]]|[-> [_ [N1 N2]]]].
  - constructor; [split; discriminate|]. constructor; [|constructor].
    destruct Hx as [-> | [-> | [-> | ->]]]; split; discriminate.
  - constructor; [auto|constructor].
Qed.

(** X6. Two titles that are written the same are the same title,
    and a title as written holds no newline and no carriage return: it
    stays on its line of the file. *)
Theorem escape_title_faithful :
  (forall a b, escape_title a = escape_title b -> a = b) /\
  (forall t, Forall (fun c => c <> LF /\ c <> CR) (chars (escape_title t))).
Proof.
  split.
  - intros a b H. rewrite !escape_title_each in H. apply escape_each_inj, H.
  - intro t. rewrite escape_title_each. apply escape_each_one_line.
Qed.

Lemma escape_title_faithful_witness :
  "a;b" = "a;b" /\
  Forall (fun c => c <> LF /\ c <> CR) (chars (escape_title ("a" ++ nl ++ "b"))).
Proof.
  split.
  - apply (proj1 escape_title_faithful "a;b" "a;b"). reflexivity.
  - apply (proj2 escape_title_faithful).
Defined.

End EscapeInjective.

(** ** The pattern takes every token *)

Section PatternComplete.
Import Overwrite Tokens.

Lemma digits_dollar_complete (ds : string) :
  PyStr.all_digits ds = true -> ds <> EmptyString -> digits_dollar ds = Some ds.
Proof.
  induction ds as [|c r IH]; intros D N; [contradiction|].
  simpl in D. apply andb_true_iff in D. destruct D as [Dc Dr].
  cbn [digits_dollar]. rewrite Dc.
  destruct r as [|c' r'].
  - reflexivity.
  - rewrite IH; auto. discriminate.
Qed.

Lemma frac_dollar_complete (f : string) : fraction f -> frac_dollar f = Some f.
Proof.
  intros [|ds N D]; [reflexivity|].
  unfold frac_dollar. cbn. rewrite digits_dollar_complete; auto.
Qed.

Lemma colon_two_step (k : string -> option string) (a b : ascii) (r : string) :
  PyStr.is_digit a = true -> PyStr.is_digit b = true ->
  colon_two k (String ":" (String a (String b r)))
  = option_map (fun m => String ":" (String a (String b m))) (k r).
Proof. intros Da Db. cbn. rewrite Da, Db. reflexivity. Qed.

Lemma colon_two_none (k : string -> option string) (f : string) :
  fraction f -> colon_two k f = None.
Proof. intros [|ds N D]; reflexivity. Qed.

Lemma sec_dollar_fraction (f : string) : fraction f -> sec_dollar f = Some f.
Proof.
  intro F. unfold sec_dollar. rewrite colon_two_none by assumption.
  apply frac_dollar_complete, F.
Qed.

Lemma sec_dollar_seconds (s f : string) :
  two_digits s -> fraction f ->
  sec_dollar (String ":" (s ++ f)) = Some (String ":" (s ++ f)).
Proof.
  intros [a [b [-> [Da Db]]]] F. unfold sec_dollar. simpl append.
  rewrite colon_two_step, frac_dollar_complete by assumption. reflexivity.
Qed.

(** After the leading digits: [:SS] or [:MM:SS], and the fraction. *)
Lemma tail_complete (m rest : string) :
  two_digits m ->
  sec_dollar rest = Some rest ->
  colon_two sec_dollar (String ":" (m ++ rest)) = Some (String ":" (m ++ rest)).
Proof.
  intros [a [b [-> [Da Db]]]] H. simpl append.
  rewrite colon_two_step, H by assumption. reflexivity.
Qed.

Lemma lead_complete (h tail : string) :
  lead_digits h ->
  colon_two sec_dollar (String ":" tail) = Some (String ":" tail) ->
  duration_dollar (h ++ String ":" tail) = Some (h ++ String ":" tail).
Proof.
  intros [[a [-> Da]]|[a [b [-> [Da Db]]]]] H; simpl append.
  - unfold duration_dollar. rewrite Da.
    change (PyStr.is_digit ":") with false. cbv iota.
    rewrite H. reflexivity.
  - unfold duration_dollar. rewrite Da, Db, H. reflexivity.
Qed.

Lemma duration_dollar_complete (d : string) :
  duration_token d -> duration_dollar d = Some d.
Proof.
  intros [m s f Hm Hs Hf|h m s f Hh Hm Hs Hf].
  - change (m ++ ":" ++ s ++ f) with (m ++ String ":" (s ++ f)).
    apply lead_complete; auto. apply tail_complete; auto.
    apply sec_dollar_fraction, Hf.
  - change (h ++ ":" ++ m ++ ":" ++ s ++ f)
      with (h ++ String ":" (m ++ String ":" (s ++ f))).
    apply lead_complete; auto. apply tail_complete; auto.
    apply sec_dollar_seconds; auto.
Qed.

(** What the pattern takes reaches the end of the text, or stops before
    a last newline. *)
Lemma at_dollar_cases (s : string) :
  at_dollar s = true -> s = EmptyString \/ s = nl.
Proof.
  destruct s as [|c [|c' r]]; simpl; auto; [|discriminate].
  intro H. apply Ascii.eqb_eq in H. subst. auto.
Qed.

Lemma digits_dollar_end (s : string) :
  forall d, digits_dollar s = Some d -> s = d \/ s = d ++ nl.
Proof.
  induction s as [|c r IH]; intros d H; simpl in H; [discriminate|].
  destruct (PyStr.is_digit c); [|discriminate].
  destruct (digits_dollar r) as [d'|].
  - inversion H; subst. destruct (IH d' eq_refl) as [-> | ->]; auto.
  - destruct (at_dollar r) eqn:A; inversion H; subst.
    destruct (at_dollar_cases _ A) as [-> | ->]; auto.
Qed.

Lemma frac_dollar_end (s f : string) :
  frac_dollar s = Some f -> s = f \/ s = f ++ nl.
Proof.
  unfold frac_dollar. intro H.
  destruct (match s with
            | String "." r => option_map (String ".") (digits_dollar r)
            | _ => None
            end) as [m|] eqn:E.
  - inversion H; subst.
    destruct s as [|c r]; [discriminate|].
    destruct (Ascii.eqb_spec c ".") as [->|N].
    + destruct (digits_dollar r) as [d|] eqn:Ed; [|discriminate].
      inversion E; subst.
      destruct (digits_dollar_end _ Ed) as [-> | ->]; auto.
    + exfalso. revert E.
      destruct c as [[] [] [] [] [] [] [] []]; try discriminate.
      contradiction N; reflexivity.
  - destruct (at_dollar s) eqn:A; inversion H; subst.
    destruct (at_dollar_cases _ A) as [-> | ->]; auto.
Qed.

Lemma colon_two_end (k : string -> option string) (s m : string) :
  (forall r m', k r = Some m' -> r = m' \/ r = m' ++ nl) ->
  colon_two k s = Some m -> s = m \/ s = m ++ nl.
Proof.
  intros Hk H. apply colon_two_inv in H.
  destruct H as [a [b [r [m' [-> [_ [_ [K ->]]]]]]]].
  destruct (Hk _ _ K) as [-> | ->]; auto.
Qed.

Lemma sec_dollar_end (s m : string) :
  sec_dollar s = Some m -> s = m \/ s = m ++ nl.
Proof.
  unfold sec_dollar. intro H.
  destruct (colon_two frac_dollar s) as [m2|] eqn:E.
  - inversion H; subst. eapply colon_two_end; [|exact E].
    intros r m'. apply frac_dollar_end.
  - apply frac_dollar_end, H.
Qed.

Lemma duration_dollar_end (s d : string) :
  duration_dollar s = Some d -> s = d \/ s = d ++ nl.
Proof.
  unfold duration_dollar. intro H.
  destruct s as [|a r]; [discriminate|].
  destruct (PyStr.is_digit a); [|discriminate].
  assert (K : forall x m, colon_two sec_dollar x = Some m -> x = m \/ x = m ++ nl).
  { intros x m. apply colon_two_end. intros r0 m'. apply sec_dollar_end. }
  destruct r as [|b r'].
  - cbn in H. discriminate.
  - destruct (PyStr.is_digit b).
    + destruct (colon_two sec_dollar r') as [m|] eqn:E; cbn [option_map] in H.
      * inversion H; subst. destruct (K _ _ E) as [-> | ->]; auto.
      * destruct (colon_two sec_dollar (String b r')) as [m|] eqn:E2;
          cbn [option_map] in H; [|discriminate].
        inversion H; subst. destruct (K _ _ E2) as [<- | ->]; auto.
    + destruct (colon_two sec_dollar (String b r')) as [m|] eqn:E2;
        cbn [option_map] in H; [|discriminate].
      inversion H; subst. destruct (K _ _ E2) as [<- | ->]; auto.
Qed.

(** A token has no whitespace in it, and is not empty. *)
Lemma token_chars (p : ascii -> bool) (d : string) :
  (forall c, PyStr.is_digit c = true -> p c = true) ->
  p ":"%char = true -> p "."%char = true ->
  duration_token d -> str_all_prop p d.
Proof.
  intros Hp Hc Hd [m s f Hm Hs Hf|h m s f Hh Hm Hs Hf].
  - destruct (lead_digits_facts Hm) as [Dm _].
    destruct (two_digits_facts Hs) as [Ds _].
    apply str_all_app; split; [apply digits_chars; auto|].
    simpl. split; [exact Hc|].
    apply str_all_app; split; [apply digits_chars; auto|].
    apply fraction_chars; auto.
  - destruct (lead_digits_facts Hh) as [Dh _].
    destruct (two_digits_facts Hm) as [Dm _].
    destruct (two_digits_facts Hs) as [Ds _].
    apply str_all_app; split; [apply digits_chars; auto|].
    simpl. split; [exact Hc|].
    apply str_all_app; split; [apply digits_chars; auto|].
    simpl. split; [exact Hc|].
    apply str_all_app; split; [apply digits_chars; auto|].
    apply fraction_chars; auto.
Qed.

Lemma token_no_space (d : string) : duration_token d -> str_all_prop not_space d.
Proof.
  apply token_chars; [apply digit_not_space|reflexivity|reflexivity].
Qed.

Lemma token_nonempty (d : string) : duration_token d -> d <> EmptyString.
Proof.
  intros [m s f Hm Hs Hf|h m s f Hh Hm Hs Hf].
  - destruct (lead_digits_facts Hm) as [_ [N _]].
    destruct m; [contradiction|discriminate].
  - destruct (lead_digits_facts Hh) as [_ [N _]].
    destruct h; [contradiction|discriminate].
Qed.

Lemma snoc_cases (s : string) :
  s <> EmptyString -> exists a x, s = a ++ String x EmptyString.
Proof.
  induction s as [|c s IH]; intro N; [contradiction|].
  destruct s as [|c' s'].
  - exists EmptyString, c. reflexivity.
  - destruct IH as [a [x E]]; [discriminate|].
    exists (String c a), x. simpl. rewrite <- E. reflexivity.
Qed.

Lemma snoc_all (p : ascii -> bool) (a : string) (x : ascii) :
  str_all_prop p (a ++ String x EmptyString) -> p x = true.
Proof. intro H. apply str_all_app in H. simpl in H. tauto. Qed.

Lemma app_snoc_eq (x y m : string) (c : ascii) :
  x ++ y = m ++ String c EmptyString -> y <> EmptyString ->
  exists y', y = y' ++ String c EmptyString.
Proof.
  revert m; induction x as [|a x IH]; intros m H N; simpl in H.
  - eauto.
  - destruct m as [|a' m'].
    + simpl in H. inversion H as [[E1 E2]].
      destruct x; [simpl in E2; contradiction|discriminate].
    + simpl in H. inversion H; subst. eapply IH; eauto.
Qed.

(** No token begins before whitespace that a token follows. *)
Lemma duration_dollar_blocked (u sep d : string) (w : ascii) :
  PyStr.is_space w = true -> duration_token d ->
  duration_dollar (u ++ String w (sep ++ d)) = None.
Proof.
  intros Hw Hd.
  destruct (duration_dollar (u ++ String w (sep ++ d))) as [m|] eqn:E; auto.
  exfalso.
  assert (Tm := token_no_space (duration_dollar_token _ E)).
  destruct (duration_dollar_end _ E) as [H|H].
  - rewrite <- H in Tm. apply str_all_app in Tm. destruct Tm as [_ Tm].
    simpl in Tm. destruct Tm as [Tw _]. unfold not_space in Tw.
    rewrite Hw in Tw. discriminate.
  - assert (Nd := token_nonempty Hd).
    replace (u ++ String w (sep ++ d)) with ((u ++ String w sep) ++ d) in H
      by (rewrite append_assoc; reflexivity).
    destruct (app_snoc_eq _ _ _ H Nd) as [y' Ey].
    assert (Td := token_no_space Hd). rewrite Ey in Td.
    apply snoc_all in Td. discriminate Td.
Qed.

Lemma spaces_duration_blocked (a sep d : string) (x w : ascii) :
  PyStr.is_space x = false -> PyStr.is_space w = true -> duration_token d ->
  spaces_duration (a ++ String x (String w (sep ++ d))) = None.
Proof.
  intros Hx Hw Hd. induction a as [|c a IH]; cbn [append spaces_duration].
  - rewrite Hx. reflexivity.
  - destruct (PyStr.is_space c); [|reflexivity].
    rewrite IH.
    change (a ++ String x (String w (sep ++ d)))
      with (a ++ String x EmptyString ++ String w (sep ++ d)).
    rewrite <- append_assoc. apply duration_dollar_blocked; auto.
Qed.

Lemma spaces_duration_complete (sep d : string) :
  sep <> EmptyString -> str_all_prop is_space_char sep -> duration_token d ->
  spaces_duration (sep ++ d) = Some d.
Proof.
  intros N Hs Hd. induction sep as [|c sep IH]; [contradiction|].
  simpl in Hs. destruct Hs as [Hc Hs]. unfold is_space_char in Hc.
  simpl. rewrite Hc.
  destruct sep as [|c' sep'].
  - simpl.
    assert (T := token_no_space Hd). assert (Nd := token_nonempty Hd).
    destruct d as [|y d']; [contradiction|].
    simpl in T. destruct T as [Ty _]. unfold not_space in Ty.
    cbn [spaces_duration].
    destruct (PyStr.is_space y); [discriminate|].
    apply duration_dollar_complete, Hd.
  - rewrite IH; auto. discriminate.
Qed.

(** The pattern splits a line at the whitespace before its token. *)
Lemma line_match_complete (title sep d : string) :
  (title = EmptyString \/
   exists a x, title = a ++ String x EmptyString /\ PyStr.is_space x = false) ->
  Forall (fun c => c <> LF) (chars title) ->
  sep <> EmptyString -> str_all_prop is_space_char sep -> duration_token d ->
  line_match (title ++ sep ++ d) = Some (title, d).
Proof.
  intros Hend Hlf Ns Hs Hd.
  induction title as [|c t IH].
  - simpl append.
    assert (E := spaces_duration_complete Ns Hs Hd).
    destruct sep as [|w sep']; [contradiction|].
    simpl append in *. cbn [line_match]. rewrite E. reflexivity.
  - destruct Hend as [Hend|[a [x [Ea Hx]]]]; [discriminate|].
    assert (B : spaces_duration (String c t ++ sep ++ d) = None).
    { destruct sep as [|w sep']; [contradiction|].
      simpl in Hs. destruct Hs as [Hw _]. unfold is_space_char in Hw.
      rewrite Ea. rewrite append_assoc. cbn [append].
      apply spaces_duration_blocked; auto. }
    simpl append in *. cbn [line_match]. rewrite B.
    unfold chars in Hlf. simpl in Hlf. inversion Hlf as [|? ? Hc Ht]; subst.
    destruct (Ascii.eqb_spec c LF) as [->|_]; [contradiction Hc; reflexivity|].
    rewrite IH; auto.
    destruct a as [|c0 a'].
    + simpl in Ea. inversion Ea; subst. auto.
    + simpl in Ea. inversion Ea; subst. right. eauto.
Qed.

End PatternComplete.

(** ** Titles come back as they were written *)

Section TitlesBack.
Import Overwrite Tokens.

Lemma rstrip_snoc (a : string) (x : ascii) :
  PyStr.is_space x = false ->
  PyStr.rstrip (a ++ String x EmptyString) = a ++ String x EmptyString.
Proof.
  intro Hx. induction a as [|c a IH]; cbn [append PyStr.rstrip].
  - rewrite Hx. reflexivity.
  - rewrite IH. destruct a; reflexivity.
Qed.

Lemma strip_fixed (c x : ascii) (r a : string) :
  PyStr.is_space c = false -> PyStr.is_space x = false ->
  String c r = a ++ String x EmptyString ->
  PyStr.strip (String c r) = String c r.
Proof.
  intros Hc Hx E. unfold PyStr.strip. cbn [PyStr.lstrip]. rewrite Hc.
  rewrite E. apply rstrip_snoc, Hx.
Qed.

Lemma rstrip_head (c : ascii) (s : string) :
  PyStr.rstrip (String c s) = EmptyString \/
  exists r, PyStr.rstrip (String c s) = String c r.
Proof.
  cbn [PyStr.rstrip]. destruct (PyStr.rstrip s).
  - destruct (PyStr.is_space c); eauto.
  - eauto.
Qed.

Lemma lstrip_head (s : string) :
  PyStr.lstrip s = EmptyString \/
  exists c r, PyStr.lstrip s = String c r /\ PyStr.is_space c = false.
Proof.
  induction s as [|c s IH]; simpl; auto.
  destruct (PyStr.is_space c) eqn:E; eauto.
Qed.

Lemma rstrip_last (s : string) :
  PyStr.rstrip s = EmptyString \/
  exists a x, PyStr.rstrip s = a ++ String x EmptyString /\ PyStr.is_space x = false.
Proof.
  induction s as [|c s IH]; cbn [PyStr.rstrip]; auto.
  destruct IH as [->|[a [x [-> Hx]]]].
  - destruct (PyStr.is_space c) eqn:E; auto.
    right. exists EmptyString, c. auto.
  - right. destruct (a ++ String x "") eqn:E.
    + destruct a; discriminate.
    + rewrite <- E. exists (String c a), x. auto.
Qed.

(** A stripped line has no whitespace at either end. *)
Lemma strip_ends (raw : string) :
  PyStr.strip raw = EmptyString \/
  (exists c r, PyStr.strip raw = String c r /\ PyStr.is_space c = false) /\
  (exists a x, PyStr.strip raw = a ++ String x EmptyString /\
               PyStr.is_space x = false).
Proof.
  unfold PyStr.strip.
  destruct (rstrip_last (PyStr.lstrip raw)) as [E|L]; auto.
  right. split; auto.
  destruct (lstrip_head raw) as [E|[c [r [E Hc]]]].
  - rewrite E in *. destruct L as [a [x [L _]]]. simpl in L.
    destruct a; discriminate.
  - rewrite E in *. destruct (rstrip_head c r) as [K|[r' K]].
    + destruct L as [a [x [L _]]]. rewrite K in L. destruct a; discriminate.
    + eauto.
Qed.

Lemma spaces_duration_head (s d : string) :
  spaces_duration s = Some d ->
  exists c r, s = String c r /\ PyStr.is_space c = true.
Proof.
  destruct s as [|c r]; simpl; [discriminate|].
  destruct (PyStr.is_space c) eqn:E; [eauto|discriminate].
Qed.

(** The first group of a match: a beginning of the line without a
    newline in it; when it is not empty its last character is no
    whitespace. *)
Lemma line_match_title (line : string) :
  forall title d, line_match line = Some (title, d) ->
    (exists rest, line = title ++ rest) /\
    Forall (fun c => c <> LF) (chars title) /\
    (title = EmptyString -> spaces_duration line = Some d) /\
    (title = EmptyString \/
     exists a x, title = a ++ String x EmptyString /\ PyStr.is_space x = false).
Proof.
  induction line as [|c r IH]; intros title d H; [discriminate|].
  cbn [line_match] in H.
  destruct (spaces_duration (String c r)) as [d0|] eqn:S0.
  - inversion H; subst. split; [exists (String c r); reflexivity|].
    split; [constructor|]. split; auto.
  - destruct (Ascii.eqb_spec c LF) as [->|Nc]; [discriminate|].
    destruct (line_match r) as [[t0 d0]|] eqn:E; [|discriminate].
    cbn [option_map fst snd] in H. inversion H; subst. clear H.
    destruct (IH _ _ eq_refl) as [[rest ->] [Hlf [Hempty Hlast]]].
    repeat split.
    + exists rest. reflexivity.
    + unfold chars in *. simpl. constructor; auto.
    + discriminate.
    + right. destruct Hlast as [->|[a [x [-> Hx]]]].
      * exists EmptyString, c. split; [reflexivity|].
        destruct (PyStr.is_space c) eqn:Sc; auto.
        exfalso. specialize (Hempty eq_refl).
        simpl in S0. rewrite Sc in S0. simpl in Hempty. rewrite Hempty in S0.
        discriminate.
      * exists (String c a), x. auto.
Qed.

Lemma read_lines_titles (lines : list string) :
  forall n acc chapters,
    read_lines n lines acc = Ok chapters ->
    Forall (fun c => plain_title (fst c)) acc ->
    Forall (fun c => plain_title (fst c)) chapters.
Proof.
  induction lines as [|raw rest IH]; intros n acc chapters H Hacc;
    cbn [read_lines] in H.
  - inversion H; subst; assumption.
  - destruct (String.eqb (PyStr.strip raw) "") eqn:Ee; cbn [orb] in H;
      [eapply IH; eassumption|].
    destruct (PyStr.startswith "#" (PyStr.strip raw)) eqn:Es;
      [eapply IH; eassumption|].
    destruct (line_match (PyStr.strip raw)) as [[title d]|] eqn:E; [|discriminate].
    destruct (parse_duration d) as [f|]; cbn [bind] in H; [|discriminate].
    eapply IH; [exact H|]. apply Forall_app. split; auto.
    constructor; [|constructor]. cbn [fst].
    destruct (line_match_title _ E) as [[tail Et] [Hlf [Hempty Hlast]]].
    destruct (strip_ends raw) as [K|[[c [r [K Hc]]] _]].
    { rewrite K in Ee. discriminate. }
    rewrite K in *.
    assert (Nt : title <> EmptyString).
    { intros ->. specialize (Hempty eq_refl).
      apply spaces_duration_head in Hempty.
      destruct Hempty as [c' [r' [Ec Sc]]]. inversion Ec; subst. congruence. }
    destruct title as [|c' t']; [contradiction|].
    simpl in Et. inversion Et; subst c'.
    split; [|split; auto].
    + exists c, t'. repeat split; auto.
      intros ->. simpl in Es. discriminate.
    + destruct Hlast as [Hl|Hl]; [discriminate|exact Hl].
Qed.

(** X7. Every title [read_chapters] returns begins with a character
    that is no whitespace and no [#], ends with one that is no whitespace
    and has no newline in it; in particular no title is empty. *)
Theorem read_chapters_titles (lines : list string)
    (chapters : list (string * F64.t)) :
  read_chapters lines = Ok chapters ->
  Forall (fun c => plain_title (fst c)) chapters.
Proof.
  intro H. unfold read_chapters in H.
  eapply read_lines_titles; [exact H|constructor].
Qed.

Lemma read_chapters_titles_witness :
  Forall (fun c => plain_title (fst c))
    [("Opening Credits", seventeen_ninety)].
Proof.
  apply (@read_chapters_titles ["  Opening Credits   00:17.90 "; "# note"]).
  vm_compute. reflexivity.
Defined.

Lemma spec_line_read (td : string * string) :
  plain_title (fst td) -> duration_token (snd td) ->
  PyStr.strip (spec_line td) = spec_line td /\
  String.eqb (spec_line td) "" || PyStr.startswith "#" (spec_line td) = false /\
  line_match (spec_line td) = Some (fst td, snd td).
Proof.
  destruct td as [t d]. unfold spec_line. cbn [fst snd].
  intros [[c [r [Et [Hc Nc]]]] [[a [x [Ea Hx]]] Hlf]] Hd.
  assert (Td := token_no_space Hd).
  destruct (snoc_cases (token_nonempty Hd)) as [da [dy Ed]].
  assert (Hy : PyStr.is_space dy = false).
  { rewrite Ed in Td. apply snoc_all in Td. unfold not_space in Td.
    apply negb_true_iff in Td. exact Td. }
  split; [|split].
  - rewrite Et. cbn [append].
    apply (@strip_fixed c dy _ (String c r ++ " " ++ da)); auto.
    rewrite Ed. cbn [append]. f_equal.
    rewrite !append_assoc. reflexivity.
  - rewrite Et. cbn [append String.eqb PyStr.startswith orb].
    destruct (Ascii.eqb_spec c "#"); [contradiction|].
    destruct (Ascii.eqb_spec c "#"%char); [contradiction|reflexivity].
  - apply line_match_complete.
    + right. exists a, x. auto.
    + exact Hlf.
    + discriminate.
    + simpl. split; [reflexivity|exact I].
    + exact Hd.
Qed.

Lemma read_lines_specs (specs : list (string * string)) :
  Forall (fun td => plain_title (fst td) /\ duration_token (snd td)) specs ->
  forall n acc,
  exists new,
    read_lines n (map spec_line specs) acc = Ok (acc ++ new)%list /\
    Forall2 (fun c td => fst c = fst td /\ parse_duration (snd td) = Ok (snd c))
            new specs.
Proof.
  induction 1 as [|td specs [Ht Hd] Hs IH]; intros n acc.
  - exists []. simpl. rewrite app_nil_r. split; [reflexivity|constructor].
  - destruct (spec_line_read td Ht Hd) as [E1 [E2 E3]].
    destruct (parse_duration_token Hd) as [f [Ef _]].
    destruct (IH (S n) (acc ++ [(fst td, f)])%list) as [new [En Fn]].
    exists ((fst td, f) :: new). split.
    + cbn [map read_lines]. rewrite E1, E2, E3, Ef. cbn [bind].
      rewrite En, <- app_assoc. reflexivity.
    + constructor; auto.
Qed.

(** X8. An ASCII file with one line for each chapter, the title, a
    space and the duration token, is read back as these chapters: the
    titles as they are, in order, each with the value of its token. A
    title may hold spaces, digits and colons; it holds no line break, no
    carriage return, and no whitespace at its ends. *)
Theorem read_chapters_round_trip (specs : list (string * string)) :
  Forall (fun td => file_title (fst td) /\ duration_token (snd td)) specs ->
  exists chapters,
    read_chapters (map spec_line specs) = Ok chapters /\
    Forall2 (fun c td => fst c = fst td /\ parse_duration (snd td) = Ok (snd c))
            chapters specs.
Proof.
  intro H0.
  assert (H : Forall (fun td => plain_title (fst td) /\ duration_token (snd td))
                     specs).
  { eapply Forall_impl; [|exact H0]. intros td [[P _] T]. auto. }
  destruct (read_lines_specs H 1%nat []) as [new [E F]].
  exists new. split; auto.
Qed.

End TitlesBack.

Lemma read_chapters_round_trip_witness :
  exists chapters,
    Overwrite.read_chapters ["Part 1: The Start 01:26:43.50"] = Ok chapters /\
    Forall2 (fun c td => fst c = fst td /\
                         Overwrite.parse_duration (snd td) = Ok (snd c))
            chapters [("Part 1: The Start", "01:26:43.50")].
Proof.
  apply (@read_chapters_round_trip [("Part 1: The Start", "01:26:43.50")]).
  constructor; [|constructor]. split.
  - split; [split; [|split]|split].
    + exists "P"%char, "art 1: The Start". repeat split. discriminate.
    + exists "Part 1: The Star", "t"%char. split; reflexivity.
    + repeat constructor; discriminate.
    + reflexivity.
    + repeat constructor; discriminate.
  - apply (@Tokens.token_hms "01" "26" "43" ".50").
    + right. exists "0"%char, "1"%char. repeat split.
    + exists "2"%char, "6"%char. repeat split.
    + exists "4"%char, "3"%char. repeat split.
    + constructor; [discriminate|reflexivity].
Defined.

(** ** The value of a token *)

Section TokenValue.
Import Overwrite Tokens.

(** A coefficient of at most 28 digits is not rounded. *)
Lemma fix_exact (s : bool) (c e : Z) :
  0 <= c < 10 ^ 28 -> -1000026 <= e <= 0 ->
  Dec.fix_ s c e = Ok (Dec.Fin s c e).
Proof.
  intros Hc He. unfold Dec.fix_.
  change Dec.Etop with 999972. change Dec.Etiny with (-1000026).
  change Dec.prec with 28. change Dec.Emax with 999999.
  destruct (Z.eqb_spec c 0) as [->|Nc].
  - f_equal. f_equal. lia.
  - assert (D : Dec.ndigits c <= 28) by (apply ndigits_le; lia).
    destruct (Z.gtb_spec (Dec.ndigits c + e - 28) 999972); [lia|].
    destruct (Z.ltb_spec e (Z.max (Dec.ndigits c + e - 28) (-1000026)));
      [lia|reflexivity].
Qed.

(** Seconds below a hundred and whole minutes and hours add up without
    rounding when the fraction has at most 22 places. *)
Lemma add_exact (c e n : Z) :
  0 <= c < 10 ^ (2 - e) -> -22 <= e <= 0 -> 0 <= n -> n + 100 <= 10 ^ 6 ->
  Dec.add (Dec.Fin false c e) (Dec.of_Z n)
  = Ok (Dec.Fin false (c + n * 10 ^ (- e)) e).
Proof.
  intros Hc He Hn Hb. unfold Dec.of_Z, Dec.add.
  replace (n <? 0) with false by (symmetry; apply Z.ltb_ge; lia).
  rewrite Z.abs_eq by lia.
  replace (Z.min e 0) with e by lia.
  assert (Pp : 0 < 10 ^ (- e)) by (apply Z.pow_pos_nonneg; lia).
  assert (P2 : 10 ^ (2 - e) = 100 * 10 ^ (- e)).
  { replace (2 - e) with (2 + - e) by lia. rewrite Z.pow_add_r by lia.
    reflexivity. }
  assert (P28 : 10 ^ 6 * 10 ^ (- e) <= 10 ^ 28).
  { replace 28 with (6 + 22) by lia. rewrite (Z.pow_add_r 10 6 22) by lia.
    apply Z.mul_le_mono_nonneg_l; [lia|].
    apply Z.pow_le_mono_r; lia. }
  assert (Tot : 0 <= c + n * 10 ^ (- e) < 10 ^ 28) by nia.
  destruct (Z.eqb_spec c 0) as [->|Nc]; destruct (Z.eqb_spec n 0) as [->|Nn];
    cbn [andb].
  - rewrite fix_exact by lia. reflexivity.
  - unfold Dec.prec. replace (Z.max e (0 - 28 - 1)) with e by lia.
    replace (0 - e) with (- e) by lia.
    rewrite fix_exact by lia. reflexivity.
  - unfold Dec.prec. replace (Z.max e (e - 28 - 1)) with e by lia.
    rewrite Z.sub_diag, Z.pow_0_r, Z.mul_1_r.
    rewrite fix_exact by lia. f_equal. f_equal. lia.
  - rewrite Z.sub_diag, Z.pow_0_r, Z.mul_1_r. cbn [Dec.signed].
    replace (0 - e) with (- e) by lia.
    replace (c + n * 10 ^ (- e) <? 0) with false
      by (symmetry; apply Z.ltb_ge; lia).
    rewrite Z.abs_eq by lia.
    rewrite fix_exact by lia. reflexivity.
Qed.

(** [Decimal()] reads two digits and a fraction as they stand. *)
Lemma of_string_seconds_exact (s f : string) :
  two_digits s -> fraction f ->
  Dec.of_string (s ++ f)
  = Ok (Dec.Fin false (PyStr.digits_val 0 (s ++ fraction_digits f))
          (- Z.of_nat (String.length (fraction_digits f)))) /\
  0 <= PyStr.digits_val 0 (s ++ fraction_digits f)
    < 10 ^ (2 + Z.of_nat (String.length (fraction_digits f))).
Proof.
  intros [a [b [-> [Da Db]]]] F.
  assert (Ds : PyStr.all_digits (String a (String b "")) = true)
    by (simpl; rewrite Da, Db; reflexivity).
  assert (Clean : forall p, (forall c, PyStr.is_digit c = true -> p c = true) ->
            p "."%char = true ->
            str_all_prop p (String a (String b "") ++ f)).
  { intros p Hp Hd. apply str_all_app. split.
    - simpl. auto.
    - destruct F as [|ds N D]; simpl; auto. split; auto.
      eapply str_all_impl; [exact Hp|]. apply all_digits_str_all, D. }
  assert (Dall : PyStr.all_digits (String a (String b "") ++ fraction_digits f) = true).
  { apply all_digits_str_all, str_all_app. split; [apply all_digits_str_all; auto|].
    destruct F as [|ds N D]; simpl; auto. apply all_digits_str_all, D. }
  split.
  2:{ assert (B := @digits_val_bound _ Dall).
      rewrite length_append in B. simpl String.length in B.
      replace (2 + Z.of_nat (String.length (fraction_digits f)))
        with (Z.of_nat (2 + String.length (fraction_digits f))) by lia.
      exact B. }
  unfold Dec.of_string.
  rewrite strip_clean by (apply Clean; [apply digit_not_space|reflexivity]).
  rewrite remove_clean by (apply Clean; [apply digit_not_underscore|reflexivity]).
  assert (Body : Dec.read_number false (String a (String b "") ++ f)
                 = Some (Dec.Fin false
                           (PyStr.digits_val 0 (String a (String b "") ++ fraction_digits f))
                           (- Z.of_nat (String.length (fraction_digits f))))).
  { unfold Dec.read_number. destruct F as [|ds N D].
    - rewrite append_nil_r, (@span_digits_all _ Ds). simpl Dec.read_exponent.
      cbv iota beta. rewrite append_nil_r. reflexivity.
    - rewrite (@span_digits_point _ ds Ds), (@span_digits_all _ D).
      cbv iota beta. simpl Dec.read_exponent. cbn [fraction_digits].
      destruct (String a (String b "") ++ ds) eqn:E; [discriminate|].
      reflexivity. }
  simpl append in *.
  destruct a as [[] [] [] [] [] [] [] []]; try discriminate Da;
    rewrite Body; reflexivity.
Qed.

Lemma sum_exact (c n : Z) (k : nat) :
  0 <= c < 10 ^ (2 + Z.of_nat k) -> (k <= 22)%nat -> 0 <= n -> n + 100 <= 10 ^ 6 ->
  (total <- Dec.add (Dec.Fin false c (- Z.of_nat k)) (Dec.of_Z n) ;;
   Dec.to_float total)
  = Dec.to_float (Dec.Fin false (c + n * 10 ^ Z.of_nat k) (- Z.of_nat k)).
Proof.
  intros Hc Hk Hn Hb.
  rewrite add_exact; try lia.
  - cbn [bind]. rewrite Z.opp_involutive. reflexivity.
  - replace (2 - - Z.of_nat k) with (2 + Z.of_nat k) by lia. exact Hc.
Qed.

(** X9. The value of a duration token is the float of the exact
    decimal [hours * 3600 + minutes * 60 + seconds]: with at most 22
    places after the point nothing is rounded before the one conversion
    to a float. Minutes and seconds from 60 to 99 are taken as they are. *)
Theorem parse_duration_exact :
  (forall m s f,
     lead_digits m -> two_digits s -> fraction f ->
     (String.length (fraction_digits f) <= 22)%nat ->
     parse_duration (m ++ ":" ++ s ++ f)
     = Dec.to_float (token_decimal 0 (PyStr.digits_val 0 m) s f)) /\
  (forall h m s f,
     lead_digits h -> two_digits m -> two_digits s -> fraction f ->
     (String.length (fraction_digits f) <= 22)%nat ->
     parse_duration (h ++ ":" ++ m ++ ":" ++ s ++ f)
     = Dec.to_float (token_decimal (PyStr.digits_val 0 h)
                                   (PyStr.digits_val 0 m) s f)).
Proof.
  split.
  - intros m s f Hm Hs Hf Hk.
    destruct (lead_digits_facts Hm) as [Dm [Nm Bm]].
    destruct (two_digits_facts Hs) as [Dsec [Nsec Bsec]].
    destruct (@of_string_seconds_exact s f Hs Hf) as [Es Hc].
    unfold parse_duration.
    rewrite strip_clean.
    2:{ apply str_all_app; split; [apply digits_chars; auto; apply digit_not_space|].
        simpl. split; [reflexivity|]. apply str_all_app; split;
          [apply digits_chars; auto; apply digit_not_space
          |apply fraction_chars; auto; apply digit_not_space]. }
    change (m ++ ":" ++ s ++ f) with (m ++ String ":" (s ++ f)).
    rewrite split_at_colon by (apply digits_chars; auto; apply digit_not_colon).
    rewrite split_clean.
    2:{ apply str_all_app; split;
          [apply digits_chars; auto; apply digit_not_colon
          |apply fraction_chars; auto; apply digit_not_colon]. }
    destruct (@py_int_digits m Dm Nm) as [Em _].
    rewrite Em, Es. cbn [bind try_except].
    unfold token_decimal. cbv zeta.
    apply sum_exact; auto; lia.
  - intros h m s f Hh Hm Hs Hf Hk.
    destruct (lead_digits_facts Hh) as [Dh [Nh Bh]].
    destruct (two_digits_facts Hm) as [Dm [Nm Bm]].
    destruct (two_digits_facts Hs) as [Dsec [Nsec Bsec]].
    destruct (@of_string_seconds_exact s f Hs Hf) as [Es Hc].
    unfold parse_duration.
    rewrite strip_clean.
    2:{ apply str_all_app; split; [apply digits_chars; auto; apply digit_not_space|].
        simpl. split; [reflexivity|].
        apply str_all_app; split; [apply digits_chars; auto; apply digit_not_space|].
        simpl. split; [reflexivity|]. apply str_all_app; split;
          [apply digits_chars; auto; apply digit_not_space
          |apply fraction_chars; auto; apply digit_not_space]. }
    change (h ++ ":" ++ m ++ ":" ++ s ++ f)
      with (h ++ String ":" (m ++ String ":" (s ++ f))).
    rewrite split_at_colon by (apply digits_chars; auto; apply digit_not_colon).
    rewrite split_at_colon by (apply digits_chars; auto; apply digit_not_colon).
    rewrite split_clean.
    2:{ apply str_all_app; split;
          [apply digits_chars; auto; apply digit_not_colon
          |apply fraction_chars; auto; apply digit_not_colon]. }
    destruct (@py_int_digits h Dh Nh) as [Eh _].
    destruct (@py_int_digits m Dm Nm) as [Em _].
    rewrite Eh, Em, Es. cbn [bind try_except].
    unfold token_decimal. cbv zeta.
    apply sum_exact; auto; lia.
Qed.

(** One minute and seventy-five seconds are 135 seconds. *)
Lemma parse_duration_exact_witness :
  parse_duration "1:75" = Dec.to_float (Dec.Fin false 135 0).
Proof.
  apply (proj1 parse_duration_exact "1" "75" "").
  - left. exists "1"%char. split; reflexivity.
  - exists "7"%char, "5"%char. repeat split.
  - constructor.
  - simpl. lia.
Defined.

End TokenValue.

(** ** The overwriting script as a whole *)

Section OverwriteScript.
Import Overwrite Tokens.
Local Open Scope list_scope.

Variables which isfile : string -> bool.
Variable file_lines : string -> list string.
Variable ffmpeg_ok : list string -> bool.
Variables input_file chapters_file output_file : string.

Local Abbreviation the_run :=
  (main which isfile file_lines ffmpeg_ok input_file chapters_file output_file).

(** X10. On a chapters file of ASCII text a run of the script is one of
    four: nothing is written or run and the script stops; the metadata
    file is begun and an exception ends the run; the metadata of the
    chapters read from the file, of which there is at least one, is
    written, the muxer is run on it and fails, and the metadata file
    stays; or it is written, the muxer is run and the metadata file is
    removed. So the muxer is run at most once, and only after the metadata
    was written. A chapters file with a malformed line anywhere in it
    stops the script before anything is written or run. *)
Theorem overwrite_main_all_or_nothing :
  Forall (fun l => PyStr.isascii l = true) (file_lines chapters_file) ->
  ((fst the_run = [] /\ snd the_run <> None) \/
   (fst the_run = [Cut "chapters_metadata.txt"] /\
    exists e, snd the_run = Some (Stopped e)) \/
   exists chapters text,
     read_chapters (file_lines chapters_file) = Ok chapters /\
     chapters <> [] /\
     create_metadata_file chapters = Ok text /\
     let command :=
       apply_metadata_command input_file output_file "chapters_metadata.txt" in
     (fst the_run = [Wrote "chapters_metadata.txt" text; Ran command] /\
      snd the_run = Some FfmpegFailed /\ ffmpeg_ok command = false) \/
     (fst the_run = [Wrote "chapters_metadata.txt" text; Ran command;
                     Removed "chapters_metadata.txt"] /\
      snd the_run = None /\ ffmpeg_ok command = true)) /\
  (List.length (filter is_command (fst the_run)) <= 1)%nat /\
  (forall argv, In (Ran argv) (fst the_run) ->
     argv = apply_metadata_command input_file output_file "chapters_metadata.txt" /\
     exists text, firstn 2 (fst the_run)
                  = [Wrote "chapters_metadata.txt" text; Ran argv]) /\
  (forall pre raw post,
     file_lines chapters_file = pre ++ raw :: post ->
     Forall (fun l => malformed l = false) pre -> malformed raw = true ->
     fst the_run = [] /\ snd the_run <> None) /\
  (snd the_run = Some FfmpegFailed ->
   ~ In (Removed "chapters_metadata.txt") (fst the_run)).
Proof.
  intros _. unfold main.
  assert (Early : forall s : stop,
    (((@nil event) = [] /\ Some s <> None) \/
     ((@nil event) = [Cut "chapters_metadata.txt"] /\
      exists e, Some s = Some (Stopped e)) \/
     exists chapters text,
       read_chapters (file_lines chapters_file) = Ok chapters /\
       chapters <> [] /\
       create_metadata_file chapters = Ok text /\
       let command :=
         apply_metadata_command input_file output_file "chapters_metadata.txt" in
       ((@nil event) = [Wrote "chapters_metadata.txt" text; Ran command] /\
        Some s = Some FfmpegFailed /\ ffmpeg_ok command = false) \/
       ((@nil event) = [Wrote "chapters_metadata.txt" text; Ran command;
                        Removed "chapters_metadata.txt"] /\
        Some s = None /\ ffmpeg_ok command = true)) /\
    (List.length (filter is_command (@nil event)) <= 1)%nat /\
    (forall argv, In (Ran argv) (@nil event) ->
       argv = apply_metadata_command input_file output_file "chapters_metadata.txt" /\
       exists text, firstn 2 (@nil event)
                    = [Wrote "chapters_metadata.txt" text; Ran argv]) /\
    (forall pre raw post,
       file_lines chapters_file = pre ++ raw :: post ->
       Forall (fun l => malformed l = false) pre -> malformed raw = true ->
       (@nil event) = [] /\ Some s <> None) /\
    (Some s = Some FfmpegFailed ->
     ~ In (Removed "chapters_metadata.txt") (@nil event))).
  { intro s. split; [left; split; [reflexivity|discriminate]|].
    split; [simpl; lia|]. split; [intros argv []|].
    split; [intros; split; [reflexivity|discriminate]|].
    intros _ []. }
  destruct (check_ffmpeg_installed which) as [|t ts]; [|apply Early].
  destruct (isfile input_file); cbn [negb]; [|apply Early].
  destruct (isfile chapters_file); cbn [negb]; [|apply Early].
  destruct (read_chapters (file_lines chapters_file)) as [chapters|e] eqn:R;
    [|apply Early].
  assert (Bad : forall pre raw post,
            file_lines chapters_file = pre ++ raw :: post ->
            Forall (fun l => malformed l = false) pre -> malformed raw = true ->
            False).
  { intros pre raw post E Hpre Hraw. unfold read_chapters in R. rewrite E in R.
    rewrite (@read_lines_malformed pre 1%nat [] raw post Hpre Hraw) in R.
    discriminate. }
  destruct chapters as [|c cs]; [apply Early|].
  destruct (create_metadata_file (c :: cs)) as [text|e] eqn:W.
  2:{ cbn [fst snd]. split; [right; left; split; [reflexivity|eauto]|].
      split; [simpl; lia|]. split; [intros argv [H|[]]; discriminate|].
      split; [intros pre raw post E Hpre Hraw; exfalso; eapply Bad; eassumption|].
      discriminate. }
  destruct (ffmpeg_ok _) eqn:F; cbn [fst snd].
  - split.
    { right; right. exists (c :: cs), text.
      split; [reflexivity|]. split; [discriminate|]. split; [exact W|].
      cbv zeta. right. auto. }
    split; [simpl; lia|]. split.
    { intros argv [H|[H|[H|[]]]]; try discriminate. inversion H; subst.
      split; [reflexivity|]. exists text. reflexivity. }
    split; [intros pre raw post E Hpre Hraw; exfalso; eapply Bad; eassumption|].
    discriminate.
  - split.
    { right; right. exists (c :: cs), text.
      split; [reflexivity|]. split; [discriminate|]. split; [exact W|].
      cbv zeta. left. auto. }
    split; [simpl; lia|]. split.
    { intros argv [H|[H|[]]]; try discriminate. inversion H; subst.
      split; [reflexivity|]. exists text. reflexivity. }
    split; [intros pre raw post E Hpre Hraw; exfalso; eapply Bad; eassumption|].
    intros _ [H|[H|[]]]; discriminate.
Qed.

End OverwriteScript.

Lemma overwrite_main_all_or_nothing_witness :
  fst (Overwrite.main (fun _ => true) (fun _ => true)
         (fun _ => ["Intro 00:10"; "no duration"]) (fun _ => true)
         "in.m4b" "chapters.txt" "out.m4b") = [] /\
  snd (Overwrite.main (fun _ => true) (fun _ => true)
         (fun _ => ["Intro 00:10"; "no duration"]) (fun _ => true)
         "in.m4b" "chapters.txt" "out.m4b") <> None.
Proof.
  assert (A : Forall (fun l => PyStr.isascii l = true)
                     ["Intro 00:10"; "no duration"]) by (repeat constructor).
  apply (proj1 (proj2 (proj2 (proj2
           (@overwrite_main_all_or_nothing (fun _ => true) (fun _ => true)
              (fun _ => ["Intro 00:10"; "no duration"]) (fun _ => true)
              "in.m4b" "chapters.txt" "out.m4b" A))))
           ["Intro 00:10"] "no duration" []).
  - reflexivity.
  - repeat constructor.
  - reflexivity.
Defined.

(** ** The parts in the order of their numbers *)

Section PartFiles.
Import Combine Parts Tokens.
Local Open Scope list_scope.











Lemma split_nonempty (sep : ascii) (s : string) : PyStr.split sep s <> [].
Proof.
  induction s as [|c s IH]; simpl; [discriminate|].
  destruct (Ascii.eqb c sep); [discriminate|].
  destruct (PyStr.split sep s); discriminate.
Qed.







End PartFiles.

(** ** Bitrates *)

Section Bitrates.
Import Combine Tokens.





Ltac geb_cases :=
  repeat match goal with
         | |- context [?x >=? ?y] => destruct (Z.geb_spec x y)
         end.

(** X14. The quality level lies between 0 and 5 and does not rise
    when the bitrate does. From 32000 on the constant bitrate chosen is
    at most the bitrate of the input and more than half of it up to
    256000; below 32000 it is 96k, which is more than the input has. *)
Theorem bitrate_maps :
  (forall b, 0 <= map_bitrate_to_quality b <= 5) /\
  (forall b1 b2, b1 <= b2 ->
     map_bitrate_to_quality b2 <= map_bitrate_to_quality b1) /\
  (forall b, 32000 <= b ->
     exists k, map_bitrate_to_cbr b = PyStr.of_Z k ++ "k" /\
               k * 1000 <= b /\ (b < 256000 -> b < 2 * (k * 1000))) /\
  (forall b, b < 32000 -> map_bitrate_to_cbr b = "96k").
Proof.
  unfold map_bitrate_to_quality, map_bitrate_to_cbr.
  split; [|split; [|split]].
  - intro b. geb_cases; lia.
  - intros b1 b2 H. geb_cases; lia.
  - intros b H.
    destruct (Z.geb_spec b 256000); [exists 256; repeat split; lia|].
    destruct (Z.geb_spec b 192000); [exists 192; repeat split; lia|].
    destruct (Z.geb_spec b 128000); [exists 128; repeat split; lia|].
    destruct (Z.geb_spec b 96000); [exists 96; repeat split; lia|].
    destruct (Z.geb_spec b 64000); [exists 64; repeat split; lia|].
    destruct (Z.geb_spec b 32000); [exists 32; repeat split; lia|lia].
  - intros b H. geb_cases; try lia. reflexivity.
Qed.

Lemma bitrate_maps_witness :
  map_bitrate_to_quality 200000 <= map_bitrate_to_quality 100000 /\
  map_bitrate_to_cbr 16000 = "96k".
Proof.
  split.
  - apply (proj1 (proj2 bitrate_maps) 100000 200000). lia.
  - apply (proj2 (proj2 (proj2 bitrate_maps)) 16000). lia.
Defined.

End Bitrates.

(** ** Common metadata *)

Section CommonMetadata.
Import Combine Parts.
Local Open Scope list_scope.

Lemma lookup_In (key : string) (d : tags) (v : string) :
  lookup key d = Some v -> In (key, v) d.
Proof.
  induction d as [|[k w] d IH]; simpl; [discriminate|].
  destruct (String.eqb_spec k key) as [->|N].
  - intro H. inversion H; subst. auto.
  - auto.
Qed.

Lemma agrees_spec (key value : string) (md : tags) :
  agrees key value md = true <-> lookup key md = Some value.
Proof.
  unfold agrees. destruct (lookup key md) as [v|].
  - split; intro H.
    + apply String.eqb_eq in H. congruence.
    + inversion H; subst. apply String.eqb_refl.
  - split; discriminate.
Qed.

(** X15. A tag is among the common metadata exactly when at least
    one probe could be decoded and every decoded probe has the key with
    one and the same value; the value kept is that value, but ["1"] for
    the key [track]. Probes that could not be decoded do not count. *)
Theorem common_metadata_spec (probes : list (option tags)) (key value : string) :
  In (key, value) (get_common_metadata probes) <->
  exists v,
    decoded probes <> [] /\
    Forall (fun md => lookup key md = Some v) (decoded probes) /\
    value = if String.eqb key "track" then "1" else v.
Proof.
  unfold get_common_metadata. fold (decoded probes).
  destruct (decoded probes) as [|first rest] eqn:E.
  { simpl. split; [contradiction|]. intros [v [N _]]. contradiction N; reflexivity. }
  rewrite <- E. set (dec := decoded probes) in *.
  assert (Hfirst : In first dec) by (rewrite E; simpl; auto).
  split.
  - intro H. apply in_map_iff in H. destruct H as [[k v] [Ekv Hin]].
    apply filter_In in Hin. destruct Hin as [_ Hall]. cbn [fst snd] in *.
    rewrite forallb_forall in Hall.
    assert (key = k).
    { destruct (String.eqb_spec k "track"); inversion Ekv; subst; auto. }
    subst k. exists v. split; [rewrite E; discriminate|]. split.
    + apply Forall_forall. intros md Hmd. apply agrees_spec, Hall, Hmd.
    + destruct (String.eqb key "track"); inversion Ekv; reflexivity.
  - intros [v [_ [Hall ->]]]. rewrite Forall_forall in Hall.
    apply in_map_iff. exists (key, v). cbn [fst snd]. split.
    + destruct (String.eqb_spec key "track") as [->|]; reflexivity.
    + apply filter_In. split; [apply lookup_In, Hall, Hfirst|].
      cbn [fst snd]. apply forallb_forall. intros md Hmd.
      apply agrees_spec, Hall, Hmd.
Qed.

End CommonMetadata.

(** ** The titles file *)

Section TitlesFile.
Import Combine Parts Tokens.
Local Open Scope list_scope.

Lemma last_nonspace_tail (c : ascii) (r : string) :
  last_nonspace (String c r) = true ->
  r = EmptyString \/ last_nonspace r = true.
Proof. destruct r; simpl; auto. Qed.

Lemma last_nonspace_snoc (a : string) (x : ascii) :
  PyStr.is_space x = false -> last_nonspace (a ++ String x EmptyString) = true.
Proof.
  intro Hx. induction a as [|c a IH]; simpl.
  - rewrite Hx. reflexivity.
  - destruct (a ++ String x "")%string eqn:E; [destruct a; discriminate|].
    exact IH.
Qed.

Lemma dot_star_clean (t : string) :
  Forall (fun c => c <> LF) (chars t) -> dot_star t = t.
Proof.
  unfold chars. induction t as [|c t IH]; simpl; auto.
  intro H. inversion H as [|? ? Hc Ht]; subst.
  destruct (Ascii.eqb_spec c LF); [contradiction|]. rewrite IH; auto.
Qed.

Lemma space_LF : PyStr.is_space LF = true.
Proof. reflexivity. Qed.

Lemma spaces_title_head (s : string) :
  last_nonspace s = true ->
  forall t, spaces_title s = Some t -> starts_nonspace t.
Proof.
  induction s as [|c r IH]; intros L t H; [discriminate|].
  cbn [spaces_title] in H. destruct (PyStr.is_space c) eqn:Sc; [|discriminate].
  destruct (last_nonspace_tail _ _ L) as [->|Lr].
  { simpl in L. rewrite Sc in L. discriminate. }
  destruct (spaces_title r) as [t'|] eqn:E.
  - inversion H; subst. apply (IH Lr). reflexivity.
  - inversion H; subst. clear H.
    destruct r as [|c2 r2]; [discriminate|].
    cbn [spaces_title] in E. destruct (PyStr.is_space c2) eqn:S2.
    + destruct (spaces_title r2); discriminate.
    + exists c2, (dot_star r2). split; auto. cbn [dot_star].
      destruct (Ascii.eqb_spec c2 LF) as [->|]; [|reflexivity].
      rewrite space_LF in S2. discriminate.
Qed.

Lemma nonspaces_title_head (s : string) :
  last_nonspace s = true ->
  forall t, nonspaces_title s = Some t -> starts_nonspace t.
Proof.
  induction s as [|c r IH]; intros L t H; [discriminate|].
  cbn [nonspaces_title] in H.
  destruct (PyStr.is_space c); [eapply spaces_title_head; eassumption|].
  destruct (nonspaces_title r) as [t'|] eqn:E.
  - inversion H; subst.
    destruct (last_nonspace_tail _ _ L) as [->|Lr]; [discriminate|].
    apply (IH Lr). reflexivity.
  - eapply spaces_title_head; eassumption.
Qed.

Lemma digits_title_head (s : string) :
  last_nonspace s = true ->
  forall t, digits_title s = Some t -> starts_nonspace t.
Proof.
  induction s as [|c r IH]; intros L t H; [discriminate|].
  cbn [digits_title] in H. destruct (PyStr.is_digit c); [|discriminate].
  destruct (last_nonspace_tail _ _ L) as [->|Lr]; [discriminate|].
  destruct (digits_title r) as [t'|] eqn:E.
  - inversion H; subst. apply (IH Lr). reflexivity.
  - eapply nonspaces_title_head; eassumption.
Qed.

Lemma title_match_head (s : string) :
  last_nonspace s = true ->
  forall t, title_match s = Some t -> starts_nonspace t.
Proof.
  induction s as [|c r IH]; intros L t H; [discriminate|].
  cbn [title_match] in H.
  destruct (PyStr.is_space c); [|eapply digits_title_head; eassumption].
  destruct (title_match r) as [t'|] eqn:E.
  - inversion H; subst.
    destruct (last_nonspace_tail _ _ L) as [->|Lr]; [discriminate|].
    apply (IH Lr). reflexivity.
  - eapply digits_title_head; eassumption.
Qed.

Lemma title_of_line_head (raw : string) :
  not_blank raw = true -> starts_nonspace (title_of_line (PyStr.strip raw)).
Proof.
  unfold not_blank. intro N. apply negb_true_iff in N.
  destruct (strip_ends raw) as [K|[[c [r [K Hc]]] [a [x [Ka Hx]]]]].
  { rewrite K in N. discriminate. }
  unfold title_of_line.
  destruct (title_match (PyStr.strip raw)) as [t|] eqn:E.
  - eapply title_match_head; [|exact E]. rewrite Ka.
    apply last_nonspace_snoc, Hx.
  - exists c, r. auto.
Qed.

(** X16. A titles file of ASCII text gives one title for every line
    that is not blank, in order, and no title is empty or begins with
    whitespace. *)
Theorem read_chapter_titles_spec (lines : list string) :
  Forall (fun l => PyStr.isascii l = true) lines ->
  exists titles,
    read_chapter_titles (Some lines) = Some titles /\
    titles = map (fun raw => title_of_line (PyStr.strip raw))
                 (filter not_blank lines) /\
    List.length titles = List.length (filter not_blank lines) /\
    Forall starts_nonspace titles.
Proof.
  intros _.
  exists (map (fun raw => title_of_line (PyStr.strip raw)) (filter not_blank lines)).
  split; [|split; [reflexivity|split; [apply length_map|]]].
  - unfold read_chapter_titles. f_equal.
    induction lines as [|raw rest IH]; [reflexivity|].
    cbn [flat_map filter]. rewrite IH. unfold not_blank at 2.
    destruct (String.eqb (PyStr.strip raw) ""); reflexivity.
  - apply Forall_forall. intros t H. apply in_map_iff in H.
    destruct H as [raw [<- Hraw]]. apply filter_In in Hraw.
    apply title_of_line_head. tauto.
Qed.

Lemma read_chapter_titles_spec_witness :
  exists titles,
    read_chapter_titles (Some ["1. Dawn"; ""; "  Noon "]) = Some titles /\
    titles = map (fun raw => title_of_line (PyStr.strip raw))
                 (filter not_blank ["1. Dawn"; ""; "  Noon "]) /\
    List.length titles = List.length (filter not_blank ["1. Dawn"; ""; "  Noon "]) /\
    Forall starts_nonspace titles.
Proof.
  apply (@read_chapter_titles_spec ["1. Dawn"; ""; "  Noon "]).
  repeat constructor.
Defined.

Lemma spaces_title_complete (sep t : string) :
  sep <> EmptyString -> str_all_prop is_space_char sep ->
  starts_nonspace t -> Forall (fun c => c <> LF) (chars t) ->
  spaces_title (sep ++ t) = Some t.
Proof.
  intros N Hs [c [r [-> Hc]]] Hlf. induction sep as [|w sep IH]; [contradiction|].
  simpl in Hs. destruct Hs as [Hw Hs]. unfold is_space_char in Hw.
  cbn [append spaces_title]. rewrite Hw.
  destruct sep as [|w' sep'].
  - cbn [append spaces_title]. rewrite Hc. rewrite dot_star_clean; auto.
  - rewrite IH; auto. discriminate.
Qed.

Lemma number_skipped (sep t : string) :
  sep <> EmptyString -> str_all_prop is_space_char sep ->
  starts_nonspace t -> Forall (fun c => c <> LF) (chars t) ->
  forall q, str_all_prop not_space q ->
    (forall x, digits_title (q ++ sep ++ t) = Some x -> x = t) /\
    nonspaces_title (q ++ sep ++ t) = Some t.
Proof.
  intros N Hs Ht Hlf.
  assert (S0 := spaces_title_complete N Hs Ht Hlf).
  induction q as [|c q IH]; intro Hq.
  - cbn [append]. destruct sep as [|w sep']; [contradiction|].
    simpl in Hs. destruct Hs as [Hw _]. unfold is_space_char in Hw.
    cbn [append] in *. split.
    + intros x H. cbn [digits_title] in H.
      destruct (PyStr.is_digit w) eqn:D; [|discriminate].
      apply digit_char in D. destruct D as [D _]. congruence.
    + cbn [nonspaces_title]. rewrite Hw. exact S0.
  - simpl in Hq. destruct Hq as [Hc Hq]. unfold not_space in Hc.
    apply negb_true_iff in Hc. destruct (IH Hq) as [ID IN].
    cbn [append]. split.
    + intros x H. cbn [digits_title] in H.
      destruct (PyStr.is_digit c); [|discriminate].
      destruct (digits_title (q ++ sep ++ t)) as [y|] eqn:E.
      * inversion H; subst. apply ID. reflexivity.
      * rewrite IN in H. inversion H; reflexivity.
    + cbn [nonspaces_title]. rewrite Hc, IN. reflexivity.
Qed.

(** X17. Of lines of ASCII text: a line that begins with a number loses
    the number, what is written against it and the whitespace after:
    [1. Title] and [12) Title] give [Title]. So does a title of its own
    that begins with a digit lose its first word. A line that begins with
    anything else is kept whole. *)
Theorem title_of_line_spec :
  (forall d q sep t,
     PyStr.isascii (String d q ++ sep ++ t) = true ->
     PyStr.is_digit d = true -> str_all_prop not_space q ->
     sep <> EmptyString -> str_all_prop is_space_char sep ->
     starts_nonspace t -> Forall (fun c => c <> LF) (chars t) ->
     title_of_line (String d q ++ sep ++ t) = t) /\
  (forall c r,
     PyStr.isascii (String c r) = true ->
     PyStr.is_digit c = false -> PyStr.is_space c = false ->
     title_of_line (String c r) = String c r).
Proof.
  split.
  - intros d q sep t _ Hd Hq N Hs Ht Hlf.
    destruct (@number_skipped sep t N Hs Ht Hlf (String d q)) as [ID IN].
    { simpl. split; auto. apply digit_not_space, Hd. }
    unfold title_of_line. cbn [append title_match] in *.
    destruct (digit_char _ Hd) as [Sd _]. rewrite Sd.
    destruct (digits_title (String d (q ++ sep ++ t))) as [x|] eqn:E.
    + apply ID. reflexivity.
    + exfalso. cbn [digits_title] in E. rewrite Hd in E.
      destruct (digits_title (q ++ sep ++ t)); [discriminate|].
      destruct (@number_skipped sep t N Hs Ht Hlf q Hq) as [_ IN'].
      rewrite IN' in E. discriminate.
  - intros c r _ Hd Hs. unfold title_of_line. cbn [title_match digits_title].
    rewrite Hs, Hd. reflexivity.
Qed.

Lemma title_of_line_spec_witness :
  title_of_line "12) The Return" = "The Return" /\
  title_of_line "Epilogue" = "Epilogue".
Proof.
  split.
  - apply (proj1 title_of_line_spec "1"%char "2)" " " "The Return").
    + reflexivity.
    + reflexivity.
    + repeat split.
    + discriminate.
    + repeat split.
    + exists "T"%char, "he Return". split; reflexivity.
    + repeat constructor; discriminate.
  - apply (proj2 title_of_line_spec "E"%char "pilogue"); reflexivity.
Defined.

End TitlesFile.

(** ** The decimal cursor is exact *)

Section DecimalCursor.
Import Combine Probe Tokens.
Local Open Scope list_scope.

Lemma pow10_pos (k : Z) : 0 <= k -> 0 < 10 ^ k.
Proof. intro H. apply Z.pow_pos_nonneg; lia. Qed.

Lemma pow10_split (a b : Z) : 0 <= a -> 0 <= b -> 10 ^ (a + b) = 10 ^ a * 10 ^ b.
Proof. intros. apply Z.pow_add_r; assumption. Qed.

Lemma is_nanos_bound (t : Dec.t) (n : Z) :
  is_nanos t n -> 0 <= n /\
  exists c e, t = Dec.Fin false c e /\ -9 <= e <= 0 /\ 0 <= c <= n /\
              c * 10 ^ (9 + e) = n.
Proof.
  intros [c [e [-> [He [Hc E]]]]].
  assert (P : 0 < 10 ^ (9 + e)) by (apply pow10_pos; lia).
  split; [nia|]. exists c, e. repeat split; try lia. nia.
Qed.

(** Two exact decimals add up exactly while the sum has 28 digits. *)
Lemma add_nanos (a b : Dec.t) (n m : Z) :
  is_nanos a n -> is_nanos b m -> n + m < 10 ^ 28 ->
  exists r, Dec.add a b = Ok r /\ is_nanos r (n + m).
Proof.
  intros Ha Hb Hsum.
  destruct (is_nanos_bound Ha) as [Hn [c1 [e1 [-> [He1 [Hc1 E1]]]]]].
  destruct (is_nanos_bound Hb) as [Hm [c2 [e2 [-> [He2 [Hc2 E2]]]]]].
  set (x := Z.min e1 e2).
  assert (Hx : -9 <= x <= 0) by (unfold x; lia).
  assert (P1 : 10 ^ (9 + e1) = 10 ^ (e1 - x) * 10 ^ (9 + x)).
  { rewrite <- pow10_split by (unfold x; lia). f_equal. lia. }
  assert (P2 : 10 ^ (9 + e2) = 10 ^ (e2 - x) * 10 ^ (9 + x)).
  { rewrite <- pow10_split by (unfold x; lia). f_equal. lia. }
  assert (Px : 0 < 10 ^ (9 + x)) by (apply pow10_pos; lia).
  assert (Q1 : 0 < 10 ^ (e1 - x)) by (apply pow10_pos; unfold x; lia).
  assert (Q2 : 0 < 10 ^ (e2 - x)) by (apply pow10_pos; unfold x; lia).
  set (v := c1 * 10 ^ (e1 - x) + c2 * 10 ^ (e2 - x)).
  assert (Ev : v * 10 ^ (9 + x) = n + m) by (unfold v; nia).
  assert (Hv : 0 <= v < 10 ^ 28) by (unfold v; nia).
  exists (Dec.Fin false v x). split.
  2:{ exists v, x. repeat split; lia. }
  unfold Dec.add. fold x. unfold Dec.prec.
  destruct (Z.eqb_spec c1 0) as [Z1|N1]; destruct (Z.eqb_spec c2 0) as [Z2|N2];
    cbn [andb].
  - rewrite fix_exact by lia. f_equal. f_equal. unfold v. subst. lia.
  - replace (Z.max x (e2 - 28 - 1)) with x by lia.
    rewrite fix_exact by (unfold v in Hv; subst c1; lia).
    f_equal. f_equal. unfold v. subst. lia.
  - replace (Z.max x (e1 - 28 - 1)) with x by lia.
    rewrite fix_exact by (unfold v in Hv; subst c2; lia).
    f_equal. f_equal. unfold v. subst. lia.
  - cbn [Dec.signed]. fold v.
    replace (v <? 0) with false by (symmetry; apply Z.ltb_ge; lia).
    rewrite Z.abs_eq by lia. apply fix_exact; lia.
Qed.

(** The milliseconds of an exact decimal: its billionths over a million,
    rounded half to even. *)
Lemma to_ms_nanos (t : Dec.t) (n : Z) :
  is_nanos t n -> n < 10 ^ 25 ->
  to_ms t = Ok (round_half_even n (10 ^ 6)).
Proof.
  intros Ht Hn.
  destruct (is_nanos_bound Ht) as [Hn0 [c [e [-> [He [Hc E]]]]]].
  unfold to_ms. change (Dec.of_Z 1000) with (Dec.Fin false 1000 0).
  unfold Dec.mul. cbn [xorb]. rewrite Z.add_0_r.
  rewrite fix_exact by lia. cbn [bind]. unfold Dec.quantize.
  assert (R : (if e <? 0 then round_half_even (c * 1000) (10 ^ (- e))
               else c * 1000 * 10 ^ e)
              = round_half_even n (10 ^ 6)).
  { assert (Pe : 0 < 10 ^ (- e)) by (apply pow10_pos; lia).
    assert (En : n * 10 ^ (- e) = c * 1000 * 10 ^ 6).
    { rewrite <- E. rewrite <- Z.mul_assoc, <- pow10_split by lia.
      replace (9 + e + - e) with 9 by lia. lia. }
    assert (Rn : round_half_even n (10 ^ 6)
                 = round_half_even (c * 1000 * 10 ^ 6) (10 ^ (- e) * 10 ^ 6)).
    { rewrite <- (@round_half_even_scale n (10 ^ 6) (10 ^ (- e))) by lia.
      rewrite En. f_equal. lia. }
    rewrite Rn. rewrite round_half_even_scale by lia.
    destruct (Z.ltb_spec e 0); [reflexivity|].
    assert (e = 0) by lia. subst e.
    change (10 ^ (- 0)) with 1. rewrite round_half_even_one.
    change (10 ^ 0) with 1. lia. }
  rewrite R.
  assert (B : 0 <= round_half_even n (10 ^ 6) <= n).
  { split; [apply round_half_even_nonneg; lia|].
    unfold round_half_even.
    assert (D := Z.div_mod n (10 ^ 6)).
    assert (M := Z.mod_pos_bound n (10 ^ 6)).
    assert (0 <= n / 10 ^ 6) by (apply Z.div_pos; lia).
    destruct (Z.compare_spec (2 * (n mod 10 ^ 6)) (10 ^ 6));
      try destruct (Z.even (n / 10 ^ 6)); lia. }
  replace (round_half_even n (10 ^ 6) <? 10 ^ Dec.prec) with true
    by (symmetry; apply Z.ltb_lt; unfold Dec.prec; lia).
  cbn [bind Dec.signed Dec.to_int]. reflexivity.
Qed.

(** The text of a duration is read as it stands. *)
Lemma duration_text_read (out : string) (nanos : Z) :
  duration_text out nanos ->
  String.eqb (PyStr.strip out) "" = false /\
  0 <= nanos < 10 ^ 18 /\
  exists d, Dec.of_string (PyStr.strip out) = Ok d /\ is_nanos d nanos.
Proof.
  intros [ip [fp [Es [Di [Ni [Df [Nf [Li [Lf ->]]]]]]]]].
  rewrite Es.
  assert (Ci : forall p, (forall c, PyStr.is_digit c = true -> p c = true) ->
            p "."%char = true -> str_all_prop p (ip ++ "." ++ fp)).
  { intros p Hp Hd. apply str_all_app. split; [apply digits_chars; auto|].
    simpl. split; auto. apply digits_chars; auto. }
  assert (Dall : PyStr.all_digits (ip ++ fp) = true).
  { apply all_digits_str_all, str_all_app.
    split; apply all_digits_str_all; auto. }
  assert (B := @digits_val_bound _ Dall). rewrite length_append in B.
  set (v := PyStr.digits_val 0 (ip ++ fp)) in *.
  set (k := String.length fp) in *.
  assert (Pk : 0 < 10 ^ (9 - Z.of_nat k)) by (apply pow10_pos; lia).
  split; [|split].
  - destruct ip; [contradiction|reflexivity].
  - split; [nia|].
    assert (10 ^ Z.of_nat (String.length ip + k) * 10 ^ (9 - Z.of_nat k)
            <= 10 ^ 18).
    { rewrite <- pow10_split by lia. apply Z.pow_le_mono_r; lia. }
    nia.
  - exists (Dec.Fin false v (- Z.of_nat k)). split.
    2:{ exists v, (- Z.of_nat k). repeat split; lia. }
    unfold Dec.of_string.
    rewrite strip_clean by (apply Ci; [apply digit_not_space|reflexivity]).
    rewrite remove_clean by (apply Ci; [apply digit_not_underscore|reflexivity]).
    assert (Body : Dec.read_number false (ip ++ "." ++ fp)
                   = Some (Dec.Fin false v (- Z.of_nat k))).
    { unfold Dec.read_number.
      change (ip ++ "." ++ fp)%string with (ip ++ String "." fp)%string.
      rewrite (@span_digits_point _ fp Di), (@span_digits_all _ Df).
      cbv iota beta. simpl Dec.read_exponent. fold v.
      destruct (ip ++ fp)%string eqn:E; [destruct ip; [contradiction|discriminate]|].
      reflexivity. }
    destruct ip as [|a ip']; [contradiction|].
    simpl in Di. apply andb_true_iff in Di. destruct Di as [Da _].
    cbn [append] in *.
    destruct a as [[] [] [] [] [] [] [] []]; try discriminate Da;
      rewrite Body; reflexivity.
Qed.

Lemma total_app (l1 l2 : list Z) : total (l1 ++ l2) = total l1 + total l2.
Proof. unfold total. induction l1 as [|a l1 IH]; simpl; lia. Qed.

Lemma total_bound (l : list Z) (b : Z) :
  Forall (fun n => 0 <= n < b) l -> 0 <= total l <= Z.of_nat (List.length l) * b.
Proof.
  unfold total. induction 1 as [|a l Ha Hl IH]; simpl List.length; simpl fold_right.
  - lia.
  - rewrite Nat2Z.inj_succ. nia.
Qed.

Lemma In_firstn {A : Type} (l : list A) :
  forall j x, In x (firstn j l) -> In x l.
Proof.
  induction l as [|a l IH]; intros [|j] x H; simpl in *; try contradiction.
  destruct H as [H|H]; eauto.
Qed.

(** The loop, started on an exact cursor: every offset it adds is exact. *)
Lemma offsets_loop_exact (outputs : list string) (nanos : list Z) :
  Forall2 duration_text outputs nanos ->
  forall previous_time p acc,
    is_nanos previous_time p ->
    p + Z.of_nat (List.length outputs) * 10 ^ 18 <= 10 ^ 24 ->
    exists new,
      offsets_loop previous_time outputs acc = Ok (acc ++ new) /\
      List.length new = List.length outputs /\
      forall i s e, nth_error new i = Some (s, e) ->
        is_nanos s (p + total (firstn i nanos)) /\
        is_nanos e (p + total (firstn (S i) nanos)).
Proof.
  induction 1 as [|out n outputs nanos Hout Hrest IH];
    intros previous_time p acc Hp Hb.
  - exists []. cbn [offsets_loop]. rewrite app_nil_r.
    split; [reflexivity|]. split; [reflexivity|].
    intros [|i] s e H; discriminate.
  - destruct (duration_text_read Hout) as [Ne [Bn [d [Ed Hd]]]].
    destruct (is_nanos_bound Hp) as [Hp0 _].
    cbn [List.length] in Hb. rewrite Nat2Z.inj_succ in Hb.
    assert (Hsum : p + n < 10 ^ 28) by (change (10 ^ 28) with (10 ^ 24 * 10 ^ 4); lia).
    destruct (add_nanos Hp Hd Hsum) as [next [En Hn]].
    destruct (IH next (p + n) (acc ++ [(previous_time, next)]) Hn) as [new [El [Len Hnew]]];
      [lia|].
    exists ((previous_time, next) :: new). split; [|split].
    + cbn [offsets_loop]. rewrite Ne, Ed. cbn [bind]. rewrite En. cbn [bind].
      rewrite El, <- app_assoc. reflexivity.
    + simpl. congruence.
    + intros [|i] s e H.
      * inversion H; subst. cbn [firstn]. unfold total at 1 2. simpl.
        rewrite Z.add_0_r. replace (p + (n + 0)) with (p + n) by lia. auto.
      * cbn [nth_error] in H. destruct (Hnew i s e H) as [H1 H2].
        change (firstn (S i) (n :: nanos)) with (n :: firstn i nanos).
        change (firstn (S (S i)) (n :: nanos)) with (n :: firstn (S i) nanos).
        unfold total in *. simpl.
        rewrite !Z.add_assoc. auto.
Qed.

(** X18. In the combining tool the chapter marks are exact: when
    the probe prints every duration as digits, a point and digits, at most
    nine of each, for at most a million files, every offset is the sum of
    the durations before it with no rounding at all, and the START and END
    written are these sums rounded to the millisecond, half to even. *)
Theorem decimal_timeline (outputs : list string) (nanos : list Z) :
  Forall2 duration_text outputs nanos ->
  Z.of_nat (List.length outputs) <= 1000000 ->
  exists offsets,
    combine_offsets outputs = Ok offsets /\
    List.length offsets = List.length outputs /\
    forall i s e, nth_error offsets i = Some (s, e) ->
      is_nanos s (total (firstn i nanos)) /\
      is_nanos e (total (firstn (S i) nanos)) /\
      to_ms s = Ok (round_half_even (total (firstn i nanos)) (10 ^ 6)) /\
      to_ms e = Ok (round_half_even (total (firstn (S i) nanos)) (10 ^ 6)).
Proof.
  intros H Hlen.
  assert (Zero : is_nanos (Dec.of_Z 0) 0).
  { exists 0, 0. repeat split; try lia. }
  destruct (@offsets_loop_exact outputs nanos H (Dec.of_Z 0) 0 [] Zero)
    as [new [E [Len Hnew]]].
  { change (10 ^ 24) with (1000000 * 10 ^ 18). lia. }
  exists new. split; [exact E|]. split; [exact Len|].
  intros i s e Hi. destruct (Hnew i s e Hi) as [H1 H2].
  rewrite !Z.add_0_l in *.
  assert (Bounds : forall j, 0 <= total (firstn j nanos) < 10 ^ 25).
  { intro j.
    assert (F : Forall (fun n => 0 <= n < 10 ^ 18) (firstn j nanos)).
    { apply Forall_forall. intros n Hn. apply In_firstn in Hn.
      clear - H Hn. induction H as [|out m outs ns Ho Hr IH]; [contradiction|].
      destruct Hn as [->|Hn]; auto.
      destruct (duration_text_read Ho) as [_ [B _]]. exact B. }
    apply total_bound in F.
    assert (L : Z.of_nat (List.length (firstn j nanos)) <= 1000000).
    { rewrite length_firstn. rewrite <- (Forall2_length H). lia. }
    change (10 ^ 25) with (10000000 * 10 ^ 18). nia. }
  repeat split; auto; apply to_ms_nanos; auto; apply Bounds.
Qed.

Lemma decimal_timeline_witness :
  exists offsets,
    combine_offsets [("1.500000" ++ nl)%string; "2.25"] = Ok offsets /\
    List.length offsets = 2%nat /\
    forall i s e, nth_error offsets i = Some (s, e) ->
      is_nanos s (total (firstn i [1500000000; 2250000000])) /\
      is_nanos e (total (firstn (S i) [1500000000; 2250000000])) /\
      to_ms s = Ok (round_half_even (total (firstn i [1500000000; 2250000000]))
                      (10 ^ 6)) /\
      to_ms e = Ok (round_half_even
                      (total (firstn (S i) [1500000000; 2250000000])) (10 ^ 6)).
Proof.
  apply (@decimal_timeline [("1.500000" ++ nl)%string; "2.25"] [1500000000; 2250000000]).
  - constructor; [|constructor; [|constructor]].
    + exists "1", "500000". repeat split; try discriminate; simpl; lia.
    + exists "2", "25". repeat split; try discriminate; simpl; lia.
  - simpl. lia.
Defined.

End DecimalCursor.

(** ** The parts found in the directory *)

Section Globbing.
Import Combine Runs Tokens.

Lemma fnmatch_nil (name : string) :
  fnmatch EmptyString name = true <-> name = EmptyString.
Proof. destruct name; simpl; split; intro H; auto; discriminate. Qed.

Lemma fnmatch_star (pat name : string) :
  fnmatch (String "*" pat) name = true <->
  exists a r, name = a ++ r /\ fnmatch pat r = true.
Proof.
  cbn [fnmatch]. change (Ascii.eqb "*" "*") with true. cbv iota.
  induction name as [|c n IH].
  - rewrite orb_false_r. split.
    + intro H. exists EmptyString, EmptyString. auto.
    + intros [a [r [E H]]]. destruct a; [|discriminate].
      simpl in E. subst r. exact H.
  - rewrite orb_true_iff, IH. split.
    + intros [H|[a [r [-> H]]]].
      * exists EmptyString, (String c n). auto.
      * exists (String c a), r. auto.
    + intros [a [r [E H]]]. destruct a as [|c' a].
      * simpl in E. subst r. auto.
      * simpl in E. inversion E; subst. right. eauto.
Qed.

Lemma fnmatch_char (p : ascii) (pat name : string) :
  Ascii.eqb p "*" = false ->
  (fnmatch (String p pat) name = true <->
   exists n, name = String p n /\ fnmatch pat n = true).
Proof.
  intro Hp. cbn [fnmatch]. rewrite Hp. destruct name as [|c n].
  - split; [discriminate|]. intros [n [E _]]. discriminate.
  - rewrite andb_true_iff. split.
    + intros [E H]. apply Ascii.eqb_eq in E. subst. eauto.
    + intros [n' [E H]]. inversion E; subst. rewrite Ascii.eqb_refl. auto.
Qed.

Lemma fnmatch_literal (pat : string) :
  str_all_prop (fun c => negb (Ascii.eqb c "*")) pat ->
  forall name, fnmatch pat name = true <-> name = pat.
Proof.
  induction pat as [|p pat IH]; intros Hp name.
  - apply fnmatch_nil.
  - simpl in Hp. destruct Hp as [Hc Hp]. apply negb_true_iff in Hc.
    rewrite (@fnmatch_char _ pat name Hc). split.
    + intros [n [-> H]]. f_equal. apply (IH Hp). exact H.
    + intros ->. exists pat. split; auto. apply (IH Hp). reflexivity.
Qed.

(** The pattern of the parts with the extension [ext]. *)
Lemma fnmatch_part (ext name : string) :
  str_all_prop (fun c => negb (Ascii.eqb c "*")) ext ->
  (fnmatch ("*(*)" ++ ext) name = true <->
   exists a b, name = a ++ "(" ++ b ++ ")" ++ ext).
Proof.
  intro Hext. change ("*(*)" ++ ext) with (String "*" (String "(" (String "*" (String ")" ext)))).
  rewrite fnmatch_star. split.
  - intros [a [r [-> H]]].
    apply fnmatch_char in H; [|reflexivity]. destruct H as [n [-> H]].
    apply fnmatch_star in H. destruct H as [b [r2 [-> H]]].
    apply fnmatch_char in H; [|reflexivity]. destruct H as [n2 [-> H]].
    apply (@fnmatch_literal _ Hext) in H. subst. exists a, b. reflexivity.
  - intros [a [b ->]]. exists a, ("(" ++ b ++ ")" ++ ext). split; auto.
    apply fnmatch_char; [reflexivity|]. exists (b ++ ")" ++ ext). split; auto.
    apply fnmatch_star. exists b, (")" ++ ext). split; auto.
    apply fnmatch_char; [reflexivity|]. exists ext. split; auto.
    apply (@fnmatch_literal _ Hext). reflexivity.
Qed.

Lemma glob_part (ext : string) (listing : list string) (f : string) :
  str_all_prop (fun c => negb (Ascii.eqb c "*")) ext ->
  (In f (glob ("*(*)" ++ ext) listing) <->
   In f listing /\ PyStr.startswith "." f = false /\
   exists a b, f = a ++ "(" ++ b ++ ")" ++ ext).
Proof.
  intro Hext. unfold glob. rewrite filter_In, andb_true_iff, negb_true_iff.
  rewrite (@fnmatch_part _ f Hext). tauto.
Qed.

(** The first field of a split: what stands before the first separator. *)
Lemma hd_split (sep : ascii) (s : string) :
  exists pre,
    hd EmptyString (PyStr.split sep s) = pre /\
    str_all_prop (fun c => negb (Ascii.eqb c sep)) pre /\
    (s = pre \/ exists tail, s = pre ++ String sep tail).
Proof.
  induction s as [|c s [pre [E [Hp Hs]]]]; cbn [PyStr.split].
  - exists EmptyString. simpl. auto.
  - destruct (Ascii.eqb_spec c sep) as [->|N].
    + exists EmptyString. simpl. split; auto. split; auto. right. eauto.
    + destruct (PyStr.split sep s) as [|p ps] eqn:Es.
      * exfalso. eapply split_nonempty; exact Es.
      * simpl in E. subst p. exists (String c pre). cbn [hd].
        split; auto. split.
        -- simpl. split; auto. apply negb_true_iff, Ascii.eqb_neq, N.
        -- destruct Hs as [->|[tail ->]]; [left|right; exists tail]; reflexivity.
Qed.

Lemma lstrip_all (p : ascii -> bool) (s : string) :
  str_all_prop p s -> str_all_prop p (PyStr.lstrip s).
Proof.
  induction s as [|c s IH]; simpl; auto.
  intros [Hc Hs]. destruct (PyStr.is_space c); simpl; auto.
Qed.

Lemma rstrip_all (p : ascii -> bool) (s : string) :
  str_all_prop p s -> str_all_prop p (PyStr.rstrip s).
Proof.
  induction s as [|c s IH]; cbn [PyStr.rstrip]; auto.
  intros [Hc Hs]. specialize (IH Hs).
  destruct (PyStr.rstrip s).
  - destruct (PyStr.is_space c); simpl; auto.
  - simpl. auto.
Qed.

Lemma strip_all (p : ascii -> bool) (s : string) :
  str_all_prop p s -> str_all_prop p (PyStr.strip s).
Proof. intro H. apply rstrip_all, lstrip_all, H. Qed.

Lemma strip_idem (s : string) : PyStr.strip (PyStr.strip s) = PyStr.strip s.
Proof.
  destruct (strip_ends s) as [->|[[c [r [E Hc]]] [a [x [Ea Hx]]]]];
    [reflexivity|].
  rewrite E. eapply strip_fixed; eauto. rewrite <- E. exact Ea.
Qed.

Lemma part_has_paren (f : string) : part_file f -> ~ no_open_paren f.
Proof.
  intros [_ [a [b [ext [-> _]]]]] H. unfold no_open_paren in H.
  apply str_all_app in H. destruct H as [_ H]. simpl in H.
  destruct H as [H _]. discriminate.
Qed.

Lemma infer_book_name_plain (listing : list string) (book_name : string)
    (files : list string) :
  infer_book_name_and_extension listing = Some (book_name, files) ->
  no_open_paren book_name.
Proof.
  unfold infer_book_name_and_extension.
  destruct (glob "*(*).mp3" listing ++ glob "*(*).m4a" listing
            ++ glob "*(*).aax" listing)%list as [|first rest]; [discriminate|].
  intro H. inversion H; subst.
  destruct (hd_split "(" first) as [pre [E [Hp _]]].
  rewrite E. apply strip_all, Hp.
Qed.

(** X19. In a directory whose entries have ASCII names, the files the
    tool works on are exactly the entries that are parts: not hidden, and
    ending in a pair of parentheses and [.mp3], [.m4a] or [.aax]; when
    there is none, nothing is inferred. The book name is what stands
    before the first opening parenthesis of the first file, without the
    whitespace around it: it has no opening parenthesis in it and no
    whitespace at its ends. *)
Theorem infer_book_name_spec (listing : list string) :
  Forall (fun f => PyStr.isascii f = true) listing ->
  match infer_book_name_and_extension listing with
  | None => forall f, In f listing -> ~ part_file f
  | Some (book_name, files) =>
      (forall f, In f files <-> In f listing /\ part_file f) /\
      (exists first rest pre,
         files = (first :: rest)%list /\
         (first = pre \/ exists tail, first = pre ++ String "(" tail) /\
         book_name = PyStr.strip pre) /\
      no_open_paren book_name /\
      PyStr.strip book_name = book_name
  end.
Proof.
  intros _. unfold infer_book_name_and_extension.
  set (files := (glob "*(*).mp3" listing ++ glob "*(*).m4a" listing
                 ++ glob "*(*).aax" listing)%list).
  assert (Hin : forall f, In f files <-> In f listing /\ part_file f).
  { intro f. unfold files. rewrite !in_app_iff.
    rewrite (@glob_part ".mp3" listing f) by (simpl; auto).
    rewrite (@glob_part ".m4a" listing f) by (simpl; auto).
    rewrite (@glob_part ".aax" listing f) by (simpl; auto).
    unfold part_file. split.
    - intros [[H1 [H2 [a [b E]]]]|[[H1 [H2 [a [b E]]]]|[H1 [H2 [a [b E]]]]]];
        (split; [exact H1|split; [exact H2|]]); eauto 10.
    - intros [H1 [H2 [a [b [ext [E [-> | [-> | ->]]]]]]]]; eauto 10. }
  destruct files as [|first rest] eqn:Ef.
  - intros f Hf Hp. apply (Hin f). auto.
  - split; [exact Hin|].
    destruct (hd_split "(" first) as [pre [E [Hp Hs]]].
    rewrite E. split; [|split].
    + exists first, rest, pre. auto.
    + apply strip_all, Hp.
    + apply strip_idem.
Qed.

Lemma infer_book_name_spec_witness :
  (forall f, In f ["Book (2).mp3"; "Book (1).mp3"] <->
             In f ["Book (2).mp3"; "notes.txt"; "Book (1).mp3"] /\ part_file f) /\
  (exists first rest pre,
     ["Book (2).mp3"; "Book (1).mp3"] = (first :: rest)%list /\
     (first = pre \/ exists tail, first = pre ++ String "(" tail) /\
     "Book" = PyStr.strip pre) /\
  no_open_paren "Book" /\
  PyStr.strip "Book" = "Book".
Proof.
  apply (@infer_book_name_spec ["Book (2).mp3"; "notes.txt"; "Book (1).mp3"]).
  repeat constructor.
Defined.

End Globbing.

(** ** The run of the combining tool *)

Section Running.
Import Combine Runs Tokens.
Local Open Scope list_scope.

Variable succeeds : list event -> list string -> bool.
Variable prints : list event -> list string -> string.
Variable path_exists : list event -> string -> bool.
Variable getsize : list event -> string -> Z.
Variable decode_tags : string -> option tags.
Variable abspath : string -> string.
Variable titles_file : string -> option (list string).

Lemma emits_ret (A : Type) (P : event -> Prop) (a : A) : emits P (ret a).
Proof.
  intros tr0 tr out H. inversion H; subst. exists []. rewrite app_nil_r. auto.
Qed.

Lemma emits_throw (A : Type) (P : event -> Prop) (e : exc) :
  emits P (@throw A e).
Proof.
  intros tr0 tr out H. inversion H; subst. exists []. rewrite app_nil_r. auto.
Qed.

Lemma emits_lift (A : Type) (P : event -> Prop) (r : result A) :
  emits P (lift r).
Proof.
  intros tr0 tr out H. inversion H; subst. exists []. rewrite app_nil_r. auto.
Qed.

Lemma emits_ask (A : Type) (P : event -> Prop) (f : list event -> A) :
  emits P (ask f).
Proof.
  intros tr0 tr out H. inversion H; subst. exists []. rewrite app_nil_r. auto.
Qed.

Lemma emits_emit (P : event -> Prop) (e : event) : P e -> emits P (emit e).
Proof.
  intros He tr0 tr out H. inversion H; subst. exists [e]. auto.
Qed.

Lemma emits_call (P : event -> Prop) (argv : list string) :
  P (Ran argv) -> emits P (call prints argv).
Proof.
  intros He tr0 tr out H. inversion H; subst. exists [Ran argv]. auto.
Qed.

Lemma emits_check_call (P : event -> Prop) (argv : list string) :
  P (Ran argv) -> emits P (check_call succeeds argv).
Proof.
  intros He tr0 tr out H. inversion H; subst. exists [Ran argv]. auto.
Qed.

Lemma emits_then (A B : Type) (P : event -> Prop) (m : act A) (k : A -> act B) :
  emits P m -> (forall a, emits P (k a)) -> emits P (then_ m k).
Proof.
  intros Hm Hk tr0 tr out H. unfold then_ in H.
  destruct (m tr0) as [tr1 [a|e]] eqn:E.
  - destruct (Hm _ _ _ E) as [evs1 [-> F1]].
    destruct (Hk a _ _ _ H) as [evs2 [-> F2]].
    exists (evs1 ++ evs2). rewrite app_assoc. split; auto.
    apply Forall_app. auto.
  - inversion H; subst. exact (Hm _ _ _ E).
Qed.

Lemma emits_or_false (P : event -> Prop) (m : act bool) :
  emits P m -> emits P (or_false m).
Proof.
  intros Hm tr0 tr out H. unfold or_false in H.
  destruct (m tr0) as [tr1 [a|e]] eqn:E.
  - inversion H; subst. exact (Hm _ _ _ E).
  - destruct (Hm _ _ _ E) as [evs [-> F]].
    destruct e; inversion H; subst; eauto.
Qed.

Lemma emits_weaken (A : Type) (P Q : event -> Prop) (m : act A) :
  (forall e, P e -> Q e) -> emits P m -> emits Q m.
Proof.
  intros HPQ Hm tr0 tr out H. destruct (Hm _ _ _ H) as [evs [-> F]].
  exists evs. split; auto. eapply Forall_impl; eauto.
Qed.

Lemma marks_emit (Q : unit -> Prop) (e : event) : marks Q e (emit e).
Proof.
  intros tr0 tr a H _. inversion H; subst. exists [e]. simpl. auto.
Qed.

Lemma marks_then_l (A B : Type) (Q : B -> Prop) (e : event)
    (m : act A) (k : A -> act B) :
  marks (fun _ => True) e m -> (forall a, emits (fun _ => True) (k a)) ->
  marks Q e (then_ m k).
Proof.
  intros Hm Hk tr0 tr b H _. unfold then_ in H.
  destruct (m tr0) as [tr1 [a|x]] eqn:E; [|discriminate].
  destruct (Hm _ _ _ E I) as [evs1 [-> I1]].
  destruct (Hk a _ _ _ H) as [evs2 [-> _]].
  exists (evs1 ++ evs2). rewrite app_assoc. split; auto.
  apply in_or_app. auto.
Qed.

Lemma marks_then_r (A B : Type) (Q : B -> Prop) (e : event)
    (m : act A) (k : A -> act B) :
  emits (fun _ => True) m -> (forall a, marks Q e (k a)) ->
  marks Q e (then_ m k).
Proof.
  intros Hm Hk tr0 tr b H HQ. unfold then_ in H.
  destruct (m tr0) as [tr1 [a|x]] eqn:E; [|discriminate].
  destruct (Hm _ _ _ E) as [evs1 [-> _]].
  destruct (Hk a _ _ _ H HQ) as [evs2 [-> I2]].
  exists (evs1 ++ evs2). rewrite app_assoc. split; auto.
  apply in_or_app. auto.
Qed.

Lemma marks_or_false (e : event) (m : act bool) :
  marks (eq true) e m -> marks (eq true) e (or_false m).
Proof.
  intros Hm tr0 tr b H Hb. subst b. unfold or_false in H.
  destruct (m tr0) as [tr1 [a|x]] eqn:E.
  - inversion H; subst. exact (Hm _ _ _ E eq_refl).
  - destruct x; discriminate.
Qed.

Lemma marks_false (e : event) (m : act bool) :
  (forall tr0 tr, m tr0 <> (tr, Returned true)) -> marks (eq true) e m.
Proof. intros Hm tr0 tr b H Hb. subst b. exfalso. exact (Hm _ _ H). Qed.

(** *** The paths the tool makes up have no parenthesis *)

Lemma digits_no_paren (s : string) :
  PyStr.all_digits s = true -> no_open_paren s.
Proof.
  intro H. apply all_digits_str_all in H. unfold no_open_paren.
  eapply str_all_impl; [|exact H].
  intros c Hc. destruct (Ascii.eqb_spec c "("); [subst; discriminate|reflexivity].
Qed.

Lemma temp_file_plain (index : nat) :
  no_open_paren ("_temp_" ++ PyStr.of_Z (Z.of_nat index) ++ ".m4b")%string.
Proof.
  unfold no_open_paren. apply str_all_app. split; [simpl; auto 10|].
  apply str_all_app. split; [|simpl; auto 10].
  apply digits_no_paren. apply of_Z_digits. lia.
Qed.

Lemma output_plain (book_name : string) :
  no_open_paren book_name -> no_open_paren (book_name ++ ".m4b")%string.
Proof.
  intro H. unfold no_open_paren. apply str_all_app. split; [exact H|].
  simpl. auto 10.
Qed.

Lemma replace_from_all (p : ascii -> bool) (old new : string) :
  str_all_prop p new ->
  forall s skip, str_all_prop p s -> str_all_prop p (PyStr.replace_from old new skip s).
Proof.
  intros Hn. induction s as [|c r IH]; intros skip Hs; cbn [PyStr.replace_from].
  - exact I.
  - destruct Hs as [Hc Hr]. destruct skip as [|k].
    + destruct (PyStr.startswith_str old (String c r)).
      * apply str_all_app. split; auto.
      * simpl. auto.
    + auto.
Qed.

Lemma temp_output_plain (book_name : string) :
  no_open_paren book_name -> no_open_paren (temp_output book_name).
Proof.
  intro H. unfold temp_output, PyStr.replace_str, no_open_paren.
  apply replace_from_all; [simpl; auto 10|]. apply output_plain, H.
Qed.

Lemma plain_keeps (e : event) : plain_paths e -> keeps_parts e.
Proof. intros H p Hp Hc. exact (part_has_paren Hp (H p Hc)). Qed.

Lemma plain_probe (argv : list string) : plain_paths (Ran ("ffprobe" :: argv)).
Proof. intros p [H _]. discriminate. Qed.

Lemma plain_ffmpeg (argv : list string) (out : string) :
  no_open_paren out -> plain_paths (Ran (argv ++ [out])).
Proof. intros H p [_ E]. rewrite last_last in E. subst. exact H. Qed.

Lemma plain_removed (p : string) : no_open_paren p -> plain_paths (Removed p).
Proof. intros H q E. simpl in E. subst. exact H. Qed.

Lemma plain_wrote (p text : string) : no_open_paren p -> plain_paths (Wrote p text).
Proof. intros H q E. simpl in E. subst. exact H. Qed.

Lemma plain_cut (p : string) : no_open_paren p -> plain_paths (Cut p).
Proof. intros H q E. simpl in E. subst. exact H. Qed.

Lemma plain_replaced (a b : string) :
  no_open_paren a -> no_open_paren b -> plain_paths (Replaced a b).
Proof. intros Ha Hb q [E|E]; subst; assumption. Qed.

Lemma cover_plain : no_open_paren "_temp_cover.jpg".
Proof. unfold no_open_paren. simpl. auto 20. Qed.

Lemma file_list_plain : no_open_paren "_temp_file_list.txt".
Proof. unfold no_open_paren. simpl. auto 30. Qed.

Lemma chapters_metadata_plain : no_open_paren "_temp_chapters_metadata.txt".
Proof. unfold no_open_paren. simpl. auto 40. Qed.

(** *** The steps of [combine_files] *)

Lemma emits_extract_cover_image (file_path : string) :
  emits plain_paths (extract_cover_image prints path_exists getsize file_path).
Proof.
  unfold extract_cover_image.
  apply emits_then.
  { apply emits_call.
    apply (@plain_ffmpeg ["ffmpeg"; "-y"; "-i"; file_path; "-an"; "-vcodec"; "copy"]).
    exact cover_plain. }
  intros _. apply emits_then; [apply emits_ask|]. intro there.
  apply emits_then; [apply emits_ask|]. intro size.
  destruct (there && (size >? 0)); [apply emits_ret|].
  apply emits_then; [|intros; apply emits_ret].
  destruct there; [|apply emits_ret].
  apply emits_emit, plain_removed, cover_plain.
Qed.

Lemma extract_cover_image_name (file_path : string) (tr0 tr : list event)
    (cover : string) :
  extract_cover_image prints path_exists getsize file_path tr0
    = (tr, Returned (Some cover)) ->
  cover = "_temp_cover.jpg"%string.
Proof.
  unfold extract_cover_image, then_, call, ask. 
  destruct (path_exists _ _ && (getsize _ _ >? 0)).
  - unfold ret. intro H. inversion H. reflexivity.
  - destruct (path_exists _ _); unfold emit, ret; intro H; inversion H.
Qed.

Lemma emits_reencode (bitrate_option sample_rate_option : list string)
    (part_files : list string) :
  forall index,
    emits plain_paths
      (reencode succeeds bitrate_option sample_rate_option index part_files).
Proof.
  induction part_files as [|f rest IH]; intro index; cbn [reencode].
  - apply emits_ret.
  - apply emits_then.
    + apply emits_check_call.
      rewrite !app_assoc. apply plain_ffmpeg, temp_file_plain.
    + intros _. apply emits_then; [apply IH|]. intros; apply emits_ret.
Qed.

Lemma reencode_names (bitrate_option sample_rate_option : list string)
    (part_files : list string) :
  forall index tr0 tr temp_files,
    reencode succeeds bitrate_option sample_rate_option index part_files tr0
      = (tr, Returned temp_files) ->
    Forall no_open_paren temp_files.
Proof.
  induction part_files as [|f rest IH]; intros index tr0 tr temp_files H;
    cbn [reencode] in H.
  - inversion H. constructor.
  - unfold then_ at 1 in H.
    destruct (check_call _ _ _) as [tr1 [[]|e]]; [|discriminate].
    unfold then_ in H.
    destruct (reencode _ _ _ _ _ _) as [tr2 [l|e]] eqn:E; [|discriminate].
    inversion H; subst. constructor; [apply temp_file_plain|].
    eapply IH; eauto.
Qed.

Lemma emits_probe_offsets (temp_files : list string) :
  Forall no_open_paren temp_files ->
  forall previous_time offsets,
    emits plain_paths (probe_offsets prints previous_time temp_files offsets).
Proof.
  induction 1 as [|f rest Hf _ IH]; intros previous_time offsets;
    cbn [probe_offsets].
  - apply emits_ret.
  - apply emits_then; [apply emits_call, plain_probe|]. intro out.
    destruct (String.eqb _ _); [apply IH|].
    apply emits_then; [apply emits_lift|]. intro duration.
    apply emits_then; [apply emits_lift|]. intro t.
    apply emits_then; [apply emits_emit, plain_removed, Hf|].
    intros _. apply IH.
Qed.

Lemma emits_probe_tags (file_paths : list string) :
  emits plain_paths (probe_tags prints decode_tags file_paths).
Proof.
  induction file_paths as [|f rest IH]; cbn [probe_tags].
  - apply emits_ret.
  - apply emits_then; [apply emits_call, plain_probe|]. intro out.
    apply emits_then; [apply IH|]. intros; apply emits_ret.
Qed.

Lemma emits_join_and_tag (part_files temp_files : list string)
    (cover_image : option string) (book_name : string)
    (chapter_threshold : Z) (chapter_titles : option (list string)) :
  no_open_paren book_name ->
  Forall no_open_paren temp_files ->
  (forall cover, cover_image = Some cover -> cover = "_temp_cover.jpg"%string) ->
  emits plain_paths
    (join_and_tag succeeds prints path_exists decode_tags part_files temp_files
       cover_image (book_name ++ ".m4b")%string chapter_threshold chapter_titles).
Proof.
  intros Hb Ht Hc. unfold join_and_tag.
  apply emits_then.
  { apply emits_check_call.
    replace (match cover_image with
             | Some cover => _
             | None => _
             end ++ ["-c:a"; "copy"; (book_name ++ ".m4b")%string])
      with ((match cover_image with
             | Some cover => ["-i"; cover; "-map"; "0:a"; "-map"; "1:v";
                              "-c:v"; "copy"; "-disposition:v:0"; "attached_pic"]
             | None => ["-map"; "0:a"]
             end ++ ["-c:a"; "copy"]) ++ [(book_name ++ ".m4b")%string])
      by (rewrite <- app_assoc; reflexivity).
    rewrite app_assoc. apply plain_ffmpeg, output_plain, Hb. }
  intros _. apply emits_then; [apply emits_emit, plain_removed, file_list_plain|].
  intros _. apply emits_then; [apply emits_probe_offsets, Ht|]. intro offsets.
  apply emits_then; [apply emits_probe_tags|]. intro probes.
  apply emits_then.
  { destruct (generate_chapter_metadata _ _ _ _).
    - apply emits_emit, plain_wrote, chapters_metadata_plain.
    - apply emits_then; [apply emits_emit, plain_cut, chapters_metadata_plain|].
      intros; apply emits_throw. }
  intros _. apply emits_then.
  { apply emits_check_call.
    apply (@plain_ffmpeg ["ffmpeg"; "-y"; "-i"; (book_name ++ ".m4b")%string;
                          "-i"; "_temp_chapters_metadata.txt";
                          "-map_metadata"; "1"; "-map_chapters"; "1"; "-c"; "copy"]).
    apply temp_output_plain, Hb. }
  intros _. apply emits_then.
  { apply emits_emit, plain_replaced; [apply temp_output_plain|apply output_plain];
      exact Hb. }
  intros _. apply emits_then;
    [apply emits_emit, plain_removed, chapters_metadata_plain|].
  intros _. apply emits_then; [|intros; apply emits_ret].
  destruct cover_image as [cover|]; [|apply emits_ret].
  apply emits_then; [apply emits_ask|]. intros [|]; [|apply emits_ret].
  rewrite (Hc cover eq_refl). apply emits_emit, plain_removed, cover_plain.
Qed.

Lemma all_events (A : Type) (P : event -> Prop) (m : act A) :
  emits P m -> emits (fun _ => True) m.
Proof. apply emits_weaken. auto. Qed.

Lemma marks_join_and_tag (part_files temp_files : list string)
    (cover_image : option string) (book_name : string)
    (chapter_threshold : Z) (chapter_titles : option (list string)) :
  no_open_paren book_name ->
  Forall no_open_paren temp_files ->
  (forall cover, cover_image = Some cover -> cover = "_temp_cover.jpg"%string) ->
  marks (eq true)
    (Replaced (temp_output book_name) (book_name ++ ".m4b")%string)
    (join_and_tag succeeds prints path_exists decode_tags part_files temp_files
       cover_image (book_name ++ ".m4b")%string chapter_threshold chapter_titles).
Proof.
  intros Hb Ht Hc. unfold join_and_tag.
  apply marks_then_r; [apply emits_check_call; exact I|]. intros _.
  apply marks_then_r; [apply emits_emit; exact I|]. intros _.
  apply marks_then_r;
    [eapply all_events; apply emits_probe_offsets, Ht|]. intros offsets.
  apply marks_then_r; [eapply all_events; apply emits_probe_tags|]. intros probes.
  apply marks_then_r.
  { destruct (generate_chapter_metadata _ _ _ _).
    - apply emits_emit; exact I.
    - apply emits_then; [apply emits_emit; exact I|]. intros; apply emits_throw. }
  intros _.
  apply marks_then_r; [apply emits_check_call; exact I|]. intros _.
  apply marks_then_l; [apply marks_emit|]. intros _.
  apply emits_then; [apply emits_emit; exact I|]. intros _.
  apply emits_then; [|intros; apply emits_ret].
  destruct cover_image as [cover|]; [|apply emits_ret].
  apply emits_then; [apply emits_ask|]. intros [|]; [|apply emits_ret].
  apply emits_emit; exact I.
Qed.

Lemma emits_then_run (A B : Type) (P : event -> Prop) (m : act A) (k : A -> act B) :
  emits P m ->
  (forall a tr0 tr, m tr0 = (tr, Returned a) -> emits P (k a)) ->
  emits P (then_ m k).
Proof.
  intros Hm Hk tr0 tr out H. unfold then_ in H.
  destruct (m tr0) as [tr1 [a|e]] eqn:E.
  - destruct (Hm _ _ _ E) as [evs1 [-> F1]].
    destruct (Hk a _ _ E _ _ _ H) as [evs2 [-> F2]].
    exists (evs1 ++ evs2). rewrite app_assoc. split; auto.
    apply Forall_app. auto.
  - inversion H; subst. exact (Hm _ _ _ E).
Qed.

Lemma marks_then_run (A B : Type) (Q : B -> Prop) (e : event)
    (m : act A) (k : A -> act B) :
  emits (fun _ => True) m ->
  (forall a tr0 tr, m tr0 = (tr, Returned a) -> marks Q e (k a)) ->
  marks Q e (then_ m k).
Proof.
  intros Hm Hk tr0 tr b H HQ. unfold then_ in H.
  destruct (m tr0) as [tr1 [a|x]] eqn:E; [|discriminate].
  destruct (Hm _ _ _ E) as [evs1 [-> _]].
  destruct (Hk a _ _ E _ _ _ H HQ) as [evs2 [-> I2]].
  exists (evs1 ++ evs2). rewrite app_assoc. split; auto.
  apply in_or_app. auto.
Qed.

Lemma emits_encoding (vbr : bool) (vbr_quality : option Z)
    (cbr_bitrate : option string) (input_bitrate : option Z) (P : event -> Prop) :
  emits P
    (if vbr then
       quality <~ match vbr_quality, input_bitrate with
                  | Some q, _ => ret q
                  | None, Some b => ret (map_bitrate_to_quality b)
                  | None, None => throw TypeError
                  end ;;
       ret ["-q:a"; PyStr.of_Z quality]
     else
       rate <~ match cbr_bitrate, input_bitrate with
               | Some r, _ => ret r
               | None, Some b => ret (map_bitrate_to_cbr b)
               | None, None => throw TypeError
               end ;;
       ret ["-b:a"; rate]).
Proof.
  destruct vbr; (apply emits_then; [|intros; apply emits_ret]).
  - destruct vbr_quality; [apply emits_ret|].
    destruct input_bitrate; [apply emits_ret|apply emits_throw].
  - destruct cbr_bitrate; [apply emits_ret|].
    destruct input_bitrate; [apply emits_ret|apply emits_throw].
Qed.

Lemma emits_combine_files (book_name : string) (files : list string)
    (vbr : bool) (vbr_quality : option Z) (cbr_bitrate : option string)
    (sample_rate : option Z) (chapter_threshold : Z)
    (chapter_titles : option (list string)) (dry_run : bool) :
  no_open_paren book_name ->
  emits plain_paths
    (combine_files succeeds prints path_exists getsize decode_tags abspath
       book_name files vbr vbr_quality cbr_bitrate sample_rate
       chapter_threshold chapter_titles dry_run).
Proof.
  intro Hb. unfold combine_files.
  destruct (get_files book_name files) as [|first_part others]; [apply emits_ret|].
  destruct dry_run; [apply emits_ret|].
  match goal with |- emits _ (if ?c then _ else _) => destruct c end;
    [apply emits_ret|].
  apply emits_then_run; [apply emits_extract_cover_image|].
  intros cover_image tr0 tr Hcover.
  apply emits_then; [apply emits_call, plain_probe|]. intro out.
  apply emits_then; [apply emits_lift|]. intro input_bitrate.
  apply emits_then; [apply emits_encoding|]. intro bitrate_option.
  assert (J : forall sample_rate_option,
    emits plain_paths
      (temp_files <~ reencode succeeds bitrate_option sample_rate_option O
                       (first_part :: others) ;;
       _ <~ emit (Wrote "_temp_file_list.txt"
                    (String.concat ""
                       (map (fun file => ("file '" ++ abspath file ++ "'" ++ nl)%string)
                            temp_files))) ;;
       or_false (join_and_tag succeeds prints path_exists decode_tags
                   (first_part :: others) temp_files cover_image
                   (book_name ++ ".m4b")%string chapter_threshold chapter_titles))).
  { intro sro. apply emits_then_run; [apply emits_reencode|].
    intros temp_files tr1 tr2 Hre.
    apply emits_then; [apply emits_emit, plain_wrote, file_list_plain|].
    intros _. apply emits_or_false, emits_join_and_tag; auto.
    - eapply reencode_names; eauto.
    - intros cover ->. eapply extract_cover_image_name; eauto. }
  destruct sample_rate as [rate|]; [|apply J].
  destruct (rate <=? 0); [apply emits_ret|apply J].
Qed.

Lemma marks_combine_files (book_name : string) (files : list string)
    (vbr : bool) (vbr_quality : option Z) (cbr_bitrate : option string)
    (sample_rate : option Z) (chapter_threshold : Z)
    (chapter_titles : option (list string)) :
  no_open_paren book_name ->
  marks (eq true)
    (Replaced (temp_output book_name) (book_name ++ ".m4b")%string)
    (combine_files succeeds prints path_exists getsize decode_tags abspath
       book_name files vbr vbr_quality cbr_bitrate sample_rate
       chapter_threshold chapter_titles false).
Proof.
  intro Hb. unfold combine_files.
  destruct (get_files book_name files) as [|first_part others];
    [apply marks_false; intros tr0 tr H; inversion H|].
  match goal with |- marks _ _ (if ?c then _ else _) => destruct c end;
    [apply marks_false; intros tr0 tr H; inversion H|].
  apply marks_then_run;
    [eapply all_events; apply emits_extract_cover_image|].
  intros cover_image tr0 tr Hcover.
  apply marks_then_r; [apply emits_call; exact I|]. intro out.
  apply marks_then_r; [apply emits_lift|]. intro input_bitrate.
  apply marks_then_r; [apply emits_encoding|]. intro bitrate_option.
  assert (J : forall sample_rate_option,
    marks (eq true)
      (Replaced (temp_output book_name) (book_name ++ ".m4b")%string)
      (temp_files <~ reencode succeeds bitrate_option sample_rate_option O
                       (first_part :: others) ;;
       _ <~ emit (Wrote "_temp_file_list.txt"
                    (String.concat ""
                       (map (fun file => ("file '" ++ abspath file ++ "'" ++ nl)%string)
                            temp_files))) ;;
       or_false (join_and_tag succeeds prints path_exists decode_tags
                   (first_part :: others) temp_files cover_image
                   (book_name ++ ".m4b")%string chapter_threshold chapter_titles))).
  { intro sro. apply marks_then_run;
      [eapply all_events; apply emits_reencode|].
    intros temp_files tr1 tr2 Hre.
    apply marks_then_r; [apply emits_emit; exact I|].
    intros _. apply marks_or_false, marks_join_and_tag; auto.
    - eapply reencode_names; eauto.
    - intros cover ->. eapply extract_cover_image_name; eauto. }
  destruct sample_rate as [rate|]; [|apply J].
  destruct (rate <=? 0); [apply marks_false; intros t0 t H; inversion H|apply J].
Qed.

(** The part of [main] after the titles are read. *)
Lemma combine_then_clean (a : args) (book_name : string) (files : list string)
    (chapter_titles : option (list string)) (tr0 : list event) :
  no_open_paren book_name ->
  exists before removed,
    fst ((go_on <~ (if a_combine a then
                      success <~ combine_files succeeds prints path_exists getsize
                                   decode_tags abspath book_name files (a_vbr a)
                                   (a_quality a) (a_bitrate a) (a_sample_rate a)
                                   (a_chapter_threshold a) chapter_titles
                                   (a_dry_run a) ;;
                      ret (success || a_dry_run a)
                    else ret true) ;;
          if go_on && a_clean a
          then clean_files path_exists book_name files (a_dry_run a)
          else ret tt) tr0)
      = tr0 ++ before ++ map Removed removed /\
    Forall plain_paths before /\
    (removed = [] \/
     removed = get_files book_name files /\
     a_clean a = true /\ a_dry_run a = false /\
     path_exists (tr0 ++ before) (book_name ++ ".m4b")%string = true /\
     (a_combine a = true ->
      In (Replaced (temp_output book_name) (book_name ++ ".m4b")%string) before)).
Proof.
  intro Hb.
  assert (C : forall tr1 go_on before,
    tr1 = tr0 ++ before -> Forall plain_paths before ->
    (go_on = true -> a_dry_run a = false -> a_combine a = true ->
     In (Replaced (temp_output book_name) (book_name ++ ".m4b")%string) before) ->
    exists before' removed,
      fst ((if go_on && a_clean a
            then clean_files path_exists book_name files (a_dry_run a)
            else ret tt) tr1)
        = tr0 ++ before' ++ map Removed removed /\
      Forall plain_paths before' /\
      (removed = [] \/
       removed = get_files book_name files /\
       a_clean a = true /\ a_dry_run a = false /\
       path_exists (tr0 ++ before') (book_name ++ ".m4b")%string = true /\
       (a_combine a = true ->
        In (Replaced (temp_output book_name) (book_name ++ ".m4b")%string) before'))).
  { intros tr1 go_on before -> F HR.
    assert (N : exists before' removed,
              tr0 ++ before = tr0 ++ before' ++ map Removed removed /\
              Forall plain_paths before' /\ removed = []).
    { exists before, []. simpl. rewrite app_nil_r. auto. }
    destruct go_on; cbn [andb].
    2:{ destruct N as [b [r [E [F' ->]]]]. exists b, []. simpl. auto. }
    destruct (a_clean a) eqn:Ecl.
    2:{ destruct N as [b [r [E [F' ->]]]]. exists b, []. simpl. auto. }
    unfold clean_files, then_, ask.
    destruct (path_exists (tr0 ++ before) (book_name ++ ".m4b")%string) eqn:Ex.
    2:{ destruct N as [b [r [E [F' ->]]]]. exists b, []. simpl. auto. }
    destruct (a_dry_run a) eqn:Ed.
    { destruct N as [b [r [E [F' ->]]]]. exists b, []. simpl. auto. }
    exists before, (get_files book_name files). cbn [fst].
    rewrite app_assoc. split; [reflexivity|]. split; [exact F|].
    right. repeat split; auto. }
  destruct (a_combine a) eqn:Ec.
  - destruct (combine_files succeeds prints path_exists getsize decode_tags abspath
                book_name files (a_vbr a) (a_quality a) (a_bitrate a)
                (a_sample_rate a) (a_chapter_threshold a) chapter_titles
                (a_dry_run a) tr0) as [tr1 [success|e]] eqn:E.
    + destruct (emits_combine_files _ _ _ _ _ _ _ _ _ Hb _ E) as [evs [-> F]].
      unfold then_ at 1 2. rewrite E. unfold ret at 1.
      apply (C _ _ evs eq_refl F).
      intros Hg Hd _. rewrite Hd in *. rewrite orb_false_r in Hg. subst success.
      destruct (marks_combine_files _ _ _ _ _ _ _ _ Hb _ E eq_refl) as [evs' [E' I']].
      apply app_inv_head in E'. subst evs'. exact I'.
    + destruct (emits_combine_files _ _ _ _ _ _ _ _ _ Hb _ E) as [evs [-> F]].
      unfold then_ at 1 2. rewrite E. exists evs, []. cbn [fst map].
      rewrite app_nil_r. auto.
  - unfold then_ at 1. unfold ret at 1.
    apply (C tr0 true [] (eq_sym (app_nil_r tr0)) (Forall_nil _)).
    intros _ _ H. discriminate.
Qed.

(** X20. Whatever the surroundings answer, a run of [main] changes
    no part (no command writes one, and none is written, removed or moved)
    until its last step, and that last step removes the parts of the book,
    all of them in the order of their numbers, only when [--clean] was
    given without [--dry-run] and the book file exists at that moment;
    with [--combine] given too, the finished book has been moved into
    place before. *)
Theorem parts_kept (a : args) (listing : list string) (tr0 : list event) :
  exists before removed,
    fst (main succeeds prints path_exists getsize decode_tags abspath
           titles_file a listing tr0)
      = tr0 ++ before ++ map Removed removed /\
    Forall keeps_parts before /\
    (removed = [] \/
     exists book_name files,
       infer_book_name_and_extension listing = Some (book_name, files) /\
       removed = get_files book_name files /\
       a_clean a = true /\ a_dry_run a = false /\
       path_exists (tr0 ++ before) (book_name ++ ".m4b")%string = true /\
       (a_combine a = true ->
        In (Replaced (temp_output book_name) (book_name ++ ".m4b")%string)
           before)).
Proof.
  assert (N : exists before removed,
            tr0 = tr0 ++ before ++ map Removed removed /\
            Forall keeps_parts before /\
            (removed = [] \/
             exists book_name files,
               infer_book_name_and_extension listing = Some (book_name, files) /\
               removed = get_files book_name files /\
               a_clean a = true /\ a_dry_run a = false /\
               path_exists (tr0 ++ before) (book_name ++ ".m4b")%string = true /\
               (a_combine a = true ->
                In (Replaced (temp_output book_name) (book_name ++ ".m4b")%string)
                   before))).
  { exists [], []. simpl. rewrite app_nil_r. auto. }
  unfold main.
  destruct (infer_book_name_and_extension listing) as [[book_name files]|] eqn:Ei;
    [|exact N].
  assert (Hb := infer_book_name_plain _ Ei).
  destruct (String.eqb book_name EmptyString); [exact N|].
  cbv zeta.
  assert (R : forall chapter_titles,
    exists before removed,
      fst ((go_on <~ (if a_combine a then
                        success <~ combine_files succeeds prints path_exists getsize
                                     decode_tags abspath book_name files (a_vbr a)
                                     (a_quality a) (a_bitrate a) (a_sample_rate a)
                                     (a_chapter_threshold a) chapter_titles
                                     (a_dry_run a) ;;
                        ret (success || a_dry_run a)
                      else ret true) ;;
            if go_on && a_clean a
            then clean_files path_exists book_name files (a_dry_run a)
            else ret tt) tr0)
        = tr0 ++ before ++ map Removed removed /\
      Forall keeps_parts before /\
      (removed = [] \/
       exists book_name' files',
         Some (book_name, files) = Some (book_name', files') /\
         removed = get_files book_name' files' /\
         a_clean a = true /\ a_dry_run a = false /\
         path_exists (tr0 ++ before) (book_name' ++ ".m4b")%string = true /\
         (a_combine a = true ->
          In (Replaced (temp_output book_name') (book_name' ++ ".m4b")%string)
             before))).
  { intro chapter_titles.
    destruct (combine_then_clean a book_name files chapter_titles tr0 Hb)
      as [before [removed [E [F H]]]].
    exists before, removed. split; [exact E|]. split.
    - eapply Forall_impl; [|exact F]. apply plain_keeps.
    - destruct H as [H|H]; [left; exact H|right].
      exists book_name, files. split; [reflexivity|exact H]. }
  destruct (a_chapter_titles_file a) as [path|]; [|apply R].
  destruct (String.eqb path EmptyString); [apply R|].
  destruct (read_chapter_titles (titles_file path)); [apply R|exact N].
Qed.

(** X21. With [--dry-run] the tool runs no command and writes,
    removes and moves nothing, whatever else is asked of it, and it ends
    without an exception. *)
Theorem dry_run_changes_nothing (a : args) (listing : list string)
    (tr : list event) :
  a_dry_run a = true ->
  main succeeds prints path_exists getsize decode_tags abspath titles_file
    a listing tr = (tr, Returned tt).
Proof.
  intro Hd. unfold main.
  destruct (infer_book_name_and_extension listing) as [[book_name files]|];
    [|reflexivity].
  destruct (String.eqb book_name EmptyString); [reflexivity|].
  cbv zeta. rewrite Hd.
  assert (R : forall chapter_titles,
    (go_on <~ (if a_combine a then
                 success <~ combine_files succeeds prints path_exists getsize
                              decode_tags abspath book_name files (a_vbr a)
                              (a_quality a) (a_bitrate a) (a_sample_rate a)
                              (a_chapter_threshold a) chapter_titles true ;;
                 ret (success || true)
               else ret true) ;;
     if go_on && a_clean a
     then clean_files path_exists book_name files true
     else ret tt) tr = (tr, Returned tt)).
  { intro chapter_titles. unfold combine_files, clean_files, then_, ask, ret.
    destruct (a_combine a); destruct (get_files book_name files);
      cbn [orb andb]; destruct (a_clean a);
      try destruct (path_exists tr _); reflexivity. }
  destruct (a_chapter_titles_file a) as [path|]; [|apply R].
  destruct (String.eqb path EmptyString); [apply R|].
  destruct (read_chapter_titles (titles_file path)); [apply R|reflexivity].
Qed.

(** X22. When the probe of the first part prints no number
    and neither [--quality] (with [--vbr]) nor [--bitrate] (without) is
    given, [combine_files] ends in a [TypeError], which nothing catches:
    it has tried to extract the cover and probed the bit rate, and has
    encoded nothing. A cover it has extracted stays behind. *)
Theorem unknown_bitrate_raises (book_name : string) (files : list string)
    (vbr : bool) (sample_rate : option Z) (chapter_threshold : Z)
    (chapter_titles : option (list string)) (first_part : string)
    (others : list string) (tr0 : list event) :
  get_files book_name files = first_part :: others ->
  titles_mismatch chapter_titles (first_part :: others) = false ->
  (forall tr, get_audio_bitrate (prints tr (bitrate_command first_part))
              = Ok None) ->
  exists cleanup,
    (cleanup = [] \/ cleanup = [Removed "_temp_cover.jpg"]) /\
    combine_files succeeds prints path_exists getsize decode_tags abspath
      book_name files vbr None None sample_rate chapter_threshold
      chapter_titles false tr0
    = (tr0 ++ Ran (cover_command first_part) :: cleanup
           ++ [Ran (bitrate_command first_part)],
       Raised TypeError).
Proof.
  intros Hg Ht Hp. unfold combine_files. rewrite Hg.
  unfold titles_mismatch in Ht. rewrite Ht.
  unfold extract_cover_image.
  unfold then_ at 1. unfold then_ at 1. unfold then_ at 1. unfold then_ at 1.
  unfold call at 1. unfold ask at 1 2.
  fold (cover_command first_part).
  set (tr1 := tr0 ++ [Ran (cover_command first_part)]).
  assert (T : forall cleanup cover_image,
    then_ (call prints ["ffprobe"; "-v"; "quiet"; "-show_entries"; "format=bit_rate";
                        "-of"; "default=noprint_wrappers=1:nokey=1"; first_part])
      (fun out =>
         input_bitrate <~ lift (get_audio_bitrate out) ;;
         bitrate_option <~
           (if vbr then
              quality <~ match @None Z, input_bitrate with
                         | Some q, _ => ret q
                         | None, Some b => ret (map_bitrate_to_quality b)
                         | None, None => throw TypeError
                         end ;;
              ret ["-q:a"; PyStr.of_Z quality]
            else
              rate <~ match @None string, input_bitrate with
                      | Some r, _ => ret r
                      | None, Some b => ret (map_bitrate_to_cbr b)
                      | None, None => throw TypeError
                      end ;;
              ret ["-b:a"; rate]) ;;
         match sample_rate with
         | Some rate =>
             if rate <=? 0 then ret false
             else
               temp_files <~ reencode succeeds bitrate_option
                               ["-ar"; PyStr.of_Z rate] O (first_part :: others) ;;
               _ <~ emit (Wrote "_temp_file_list.txt"
                            (String.concat ""
                               (map (fun file => ("file '" ++ abspath file ++ "'" ++ nl)%string)
                                    temp_files))) ;;
               or_false (join_and_tag succeeds prints path_exists decode_tags
                           (first_part :: others) temp_files cover_image
                           (book_name ++ ".m4b")%string chapter_threshold
                           chapter_titles)
         | None =>
             temp_files <~ reencode succeeds bitrate_option [] O
                             (first_part :: others) ;;
             _ <~ emit (Wrote "_temp_file_list.txt"
                          (String.concat ""
                             (map (fun file => ("file '" ++ abspath file ++ "'" ++ nl)%string)
                                  temp_files))) ;;
             or_false (join_and_tag succeeds prints path_exists decode_tags
                         (first_part :: others) temp_files cover_image
                         (book_name ++ ".m4b")%string chapter_threshold
                         chapter_titles)
         end) (tr1 ++ cleanup)
    = (tr0 ++ Ran (cover_command first_part) :: cleanup
           ++ [Ran (bitrate_command first_part)],
       Raised TypeError)).
  { intros cleanup cover_image. unfold then_ at 1. unfold call.
    fold (bitrate_command first_part).
    unfold then_ at 1. rewrite Hp. unfold lift.
    unfold then_ at 1.
    assert (E : tr1 ++ cleanup ++ [Ran (bitrate_command first_part)]
                = tr0 ++ Ran (cover_command first_part) :: cleanup
                      ++ [Ran (bitrate_command first_part)]).
    { unfold tr1. rewrite <- app_assoc. reflexivity. }
    rewrite <- app_assoc.
    destruct vbr; unfold then_, throw; rewrite E; reflexivity. }
  destruct (path_exists tr1 "_temp_cover.jpg" && (getsize tr1 "_temp_cover.jpg" >? 0))
    eqn:Ecov.
  - exists []. split; [auto|]. unfold ret at 1.
    rewrite <- (app_nil_r tr1) at 1. apply T.
  - destruct (path_exists tr1 "_temp_cover.jpg").
    + exists [Removed "_temp_cover.jpg"]. split; [auto|].
      unfold then_ at 1. unfold emit at 1. unfold ret at 1. apply T.
    + exists []. split; [auto|]. unfold then_ at 1. unfold ret at 1 2.
      rewrite <- (app_nil_r tr1) at 1. apply T.
Qed.

End Running.

Lemma dry_run_changes_nothing_witness :
  Combine.main (fun _ _ => true) (fun _ _ => "12") (fun _ _ => true)
    (fun _ _ => 1) (fun _ => None) (fun p => p) (fun _ => None)
    (Combine.Args true true true false None None None 6 None)
    ["Book (1).mp3"; "Book (2).mp3"] []
  = ([], Combine.Returned tt).
Proof. apply dry_run_changes_nothing. reflexivity. Defined.

Lemma unknown_bitrate_raises_witness :
  exists cleanup,
    (cleanup = [] \/ cleanup = [Removed "_temp_cover.jpg"]) /\
    Combine.combine_files (fun _ _ => true) (fun _ _ => "N/A")
      (fun _ _ => true) (fun _ _ => 0) (fun _ => None) (fun p => p)
      "Book" ["Book (2).mp3"; "Book (1).mp3"] false None None None 6 None
      false []
    = (([] ++ Ran (Runs.cover_command "Book (1).mp3") :: cleanup
           ++ [Ran (Runs.bitrate_command "Book (1).mp3")])%list,
       Combine.Raised Combine.TypeError).
Proof.
  apply (@unknown_bitrate_raises (fun _ _ => true) (fun _ _ => "N/A")
           (fun _ _ => true) (fun _ _ => 0) (fun _ => None) (fun p => p)
           "Book" ["Book (2).mp3"; "Book (1).mp3"] false None 6 None
           "Book (1).mp3" ["Book (2).mp3"] []).
  - reflexivity.
  - reflexivity.
  - intro tr. reflexivity.
Defined.
